(** * TradingJournal: the trade-analytics core, embedded and verified

    The development follows the TypeScript sources:
    - [utils/historicalUtils.ts]: filtering, grouping, [calculateTradeStats],
      [calculateMaxDrawdown], [generateHistoricalAnalytics];
    - [services/monthlyTargetsService.ts]: the monthly-target documents and
      [updateMonthlyTargetProgress];
    - [services/tradingStorageService.ts]: [getPortfolioSummary];
    - [utils/tradingUtils.ts]: [calculatePortfolioMetrics];
    - [components/SimpleTradingJournal.tsx]: [calculateDailyStats];
    - [components/PositionSizeCalculator.tsx]: [calculatePositionSize].

    Conventions of the embedding.
    - A JavaScript [number] is an exact rational ([Q]); the arithmetic of the
      sources is carried out exactly, where the sources round each sum to
      a double.  Statements that compare totals with one another are
      therefore limited to what rounding leaves untouched (signs, counts,
      the greatest and the least element); where a total is named, it is
      the sum in the order the loop adds it.
      [NaN] appears only where the source tests for it (the text fields of
      the calculator).
    - A date text ["YYYY-MM-DD"] is the number of its day counted from
      1970-01-01; a [Date] is its time value in milliseconds (UTC).  The
      local-time getters of [Date] read the host's zone, a fixed offset
      [tz] in minutes east of UTC; the statements about years and months
      hold for every offset, in the reading of these getters (which, at or
      east of UTC, is the year and month of the date text, and west of UTC
      that of the day before).
    - The Firestore collection is a finite map from document ids to
      documents; reads and writes that fail are outside the model. *)

From Stdlib Require Import QArith Qminmax Qround Qabs Lqa ZArith Lia.
From stdpp Require Import gmap strings pretty list sorting.

(* ===================================================================== *)
(** * Part I: the program                                                *)
(* ===================================================================== *)

(** ** The JavaScript runtime the sources rely on *)
Module JS.

Local Open Scope Q_scope.

(** [x < y] and [x <= y] on numbers, as tests. *)
Definition ltb (x y : Q) : bool := negb (Qle_bool y x).
Definition leb (x y : Q) : bool := Qle_bool x y.

(** A number used as a condition: [0] is falsy ([NaN] is handled where
    it can occur). *)
Definition truthy (x : Q) : bool := negb (Qeq_bool x 0).

(** *** [Array.prototype.sort(cmp)]

    The sort is stable and orders by the sign of the comparator.  An
    element stays in front of the later elements it compares equal to. *)
Section Sort.
Context {A : Type} (cmp : A -> A -> Q).

Fixpoint sort_insert (x : A) (l : list A) : list A :=
  match l with
  | [] => [x]
  | y :: l' => if leb (cmp x y) 0 then x :: y :: l' else y :: sort_insert x l'
  end.

Fixpoint Array_sort (l : list A) : list A :=
  match l with
  | [] => []
  | x :: l' => sort_insert x (Array_sort l')
  end.
End Sort.

(** *** [Math.max] and [Math.min] applied to at least one argument *)
Definition Math_max (x : Q) (xs : list Q) : Q := fold_left Qmax xs x.
Definition Math_min (x : Q) (xs : list Q) : Q := fold_left Qmin xs x.

(** *** [Number.prototype.toFixed(digits)] read back by [parseFloat]

    The nearest multiple of [10^-digits]; of two nearest ones the larger
    in magnitude.  (Above [1e21] [toFixed] prints the number itself, which
    for a double of that size is the same thing.) *)
Definition toFixed (x : Q) (digits : nat) : Q :=
  let scale := inject_Z (10 ^ Z.of_nat digits) in
  let n := Qfloor (Qabs x * scale + (1 # 2)) in
  if ltb x 0 then - (inject_Z n / scale) else inject_Z n / scale.

(** *** Dates *)
Local Open Scope Z_scope.

Definition msPerDay : Z := 86400000.
Definition msPerMinute : Z := 60000.

(** The proleptic Gregorian calendar: day number to (year, month, day),
    month in 1..12, and back. *)
Definition civil_from_days (z : Z) : Z * Z * Z :=
  let z := z + 719468 in
  let era := z / 146097 in
  let doe := z - era * 146097 in
  let yoe := (doe - doe / 1460 + doe / 36524 - doe / 146096) / 365 in
  let doy := doe - (365 * yoe + yoe / 4 - yoe / 100) in
  let mp := (5 * doy + 2) / 153 in
  let d := doy - (153 * mp + 2) / 5 + 1 in
  let m := if mp <? 10 then mp + 3 else mp - 9 in
  let y := yoe + era * 400 + (if m <=? 2 then 1 else 0) in
  (y, m, d).

Definition days_from_civil (y m d : Z) : Z :=
  let y := if m <=? 2 then y - 1 else y in
  let era := y / 400 in
  let yoe := y - era * 400 in
  let mp := if 2 <? m then m - 3 else m + 9 in
  let doy := (153 * mp + 2) / 5 + d - 1 in
  let doe := yoe * 365 + yoe / 4 - yoe / 100 + doy in
  era * 146097 + doe - 719468.

Definition year_of (z : Z) : Z := fst (fst (civil_from_days z)).
Definition month_of (z : Z) : Z := snd (fst (civil_from_days z)).

(** [new Date("YYYY-MM-DD")]: midnight UTC of that day. *)
Definition Date_parse (isoDay : Z) : Z := isoDay * msPerDay.

(** [d.getTime()] is the time value itself. *)
Definition getTime (d : Z) : Z := d.

(** [d.toISOString().split('T')[0]]: the UTC day of the instant. *)
Definition toISODate (d : Z) : Z := d / msPerDay.

Section LocalTime.
(** Offset of the host's zone, in minutes east of UTC. *)
Variable tz : Z.

Definition localDay (d : Z) : Z := (d + tz * msPerMinute) / msPerDay.

(** [d.getFullYear()] and [d.getMonth()] (0-based), in local time. *)
Definition getFullYear (d : Z) : Z := year_of (localDay d).
Definition getMonth (d : Z) : Z := month_of (localDay d) - 1.

(** [d.getDate()]: the day of the month, in local time. *)
Definition getDate (d : Z) : Z := snd (civil_from_days (localDay d)).

(** [new Date(year, monthIndex, day)]: local midnight.  The month index
    and the day overflow into the neighbouring months and years, and a
    year in 0..99 means 1900 + year. *)
Definition Date_local (year monthIndex day : Z) : Z :=
  let yr := if (0 <=? year) && (year <=? 99) then 1900 + year else year in
  let ym := yr + monthIndex / 12 in
  let mn := monthIndex mod 12 in
  (days_from_civil ym (mn + 1) 1 + day - 1) * msPerDay - tz * msPerMinute.
End LocalTime.

(** [s.padStart(2, '0')] *)
Definition padStart2 (s : string) : string :=
  match String.length s with
  | O => "00" +:+ s
  | S O => "0" +:+ s
  | _ => s
  end.

End JS.

(** ** [types/trading.ts] *)
Module Types.

Inductive TradeType := Buy | Sell.

Record Trade := {
  id : string;
  userId : string;
  accountId : option string;
  date : Z;            (* the day of the text "YYYY-MM-DD" *)
  symbol : string;
  type : TradeType;
  plAmount : Q;
  entry : Q;
  exit : Q;
  fees : Q;
  netPL : Q;
  notes : option string
}.

Record DateRange := {
  startDate : Z;
  endDate : Z
}.

Inductive Timeframe := daily | weekly | monthly | yearly.

Record MonthlyBreakdownEntry := {
  mb_month : Z;
  mb_monthName : string;
  mb_trades : nat;
  mb_pnl : Q;
  mb_winRate : Q
}.

Record SymbolPerformance := {
  sp_symbol : string;
  sp_trades : nat;
  sp_pnl : Q;
  sp_winRate : Q
}.

End Types.

(** ** [utils/historicalUtils.ts] *)
Module HistoricalUtils.
Import Types.
Local Open Scope Q_scope.

Definition getMonthName (month : Z) : string :=
  let monthNames :=
    ["January"; "February"; "March"; "April"; "May"; "June";
     "July"; "August"; "September"; "October"; "November"; "December"] in
  if (1 <=? month)%Z
  then default "Unknown" (monthNames !! Z.to_nat (month - 1))
  else "Unknown".

Definition getMonthKey (year month : Z) : string :=
  pretty year +:+ "-" +:+ JS.padStart2 (pretty month).

Definition filterTradesByDateRange (trades : list Trade) (dateRange : DateRange)
  : list Trade :=
  let startDate := JS.Date_parse (startDate dateRange) in
  let endDate := JS.Date_parse (endDate dateRange) in
  List.filter (fun trade =>
       let tradeDate := JS.Date_parse (date trade) in
       (startDate <=? tradeDate)%Z && (tradeDate <=? endDate)%Z)
    trades.

(** The statistics record returned by [calculateTradeStats]. *)
Record TradeStats := {
  totalTrades : nat;
  totalPnL : Q;
  totalFees : Q;
  winningTrades : nat;
  losingTrades : nat;
  winRate : Q;
  bestTrade : Q;
  worstTrade : Q;
  averagePnL : Q
}.

Definition calculateTradeStats (trades : list Trade) : TradeStats :=
  let totalTrades := length trades in
  let totalPnL := fold_left (fun sum trade => sum + netPL trade) trades 0 in
  let totalFees := fold_left (fun sum trade => sum + fees trade) trades 0 in
  let winningTrades := length (List.filter (fun t => JS.ltb 0 (netPL t)) trades) in
  let losingTrades := length (List.filter (fun t => JS.ltb (netPL t) 0) trades) in
  let winRate :=
    if (0 <? totalTrades)%nat
    then (inject_Z (Z.of_nat winningTrades) / inject_Z (Z.of_nat totalTrades)) * 100
    else 0 in
  let bestTrade :=
    match List.map netPL trades with
    | [] => 0
    | x :: xs => JS.Math_max x xs
    end in
  let worstTrade :=
    match List.map netPL trades with
    | [] => 0
    | x :: xs => JS.Math_min x xs
    end in
  let averagePnL :=
    if (0 <? totalTrades)%nat
    then totalPnL / inject_Z (Z.of_nat totalTrades)
    else 0 in
  {| totalTrades := totalTrades; totalPnL := totalPnL; totalFees := totalFees;
     winningTrades := winningTrades; losingTrades := losingTrades;
     winRate := winRate; bestTrade := bestTrade; worstTrade := worstTrade;
     averagePnL := averagePnL |}.

(** State of the loop of [calculateMaxDrawdown]. *)
Record DrawdownState := {
  peak : Q;
  runningTotal : Q;
  maxDrawdown : Q
}.

Definition drawdown_step (st : DrawdownState) (trade : Trade) : DrawdownState :=
  let runningTotal := runningTotal st + netPL trade in
  let peak := if JS.ltb (peak st) runningTotal then runningTotal else peak st in
  let drawdown := peak - runningTotal in
  let maxDrawdown :=
    if JS.ltb (maxDrawdown st) drawdown then drawdown else maxDrawdown st in
  {| peak := peak; runningTotal := runningTotal; maxDrawdown := maxDrawdown |}.

Definition byDateAscending (a b : Trade) : Q :=
  inject_Z (JS.getTime (JS.Date_parse (date a)) - JS.getTime (JS.Date_parse (date b))).

Definition calculateMaxDrawdown (trades : list Trade) : Q :=
  match trades with
  | [] => 0
  | _ =>
    let sortedTrades := JS.Array_sort byDateAscending trades in
    maxDrawdown
      (fold_left drawdown_step sortedTrades
         {| peak := 0; runningTotal := 0; maxDrawdown := 0 |})
  end.

(** *** [calculateSymbolPerformance]

    The [Map] keeps its keys in the order of their first insertion, which is
    the order [Array.from(symbolMap.entries())] lists them in. *)
Record SymbolAggregate := {
  sa_trades : nat;
  sa_pnl : Q;
  sa_winningTrades : nat
}.

Fixpoint Map_get {V} (m : list (string * V)) (key : string) : option V :=
  match m with
  | [] => None
  | (k, v) :: m' => if bool_decide (k = key) then Some v else Map_get m' key
  end.

Fixpoint Map_set {V} (m : list (string * V)) (key : string) (value : V)
  : list (string * V) :=
  match m with
  | [] => [(key, value)]
  | (k, v) :: m' =>
    if bool_decide (k = key) then (k, value) :: m' else (k, v) :: Map_set m' key value
  end.

Definition byPnlDescending (a b : SymbolPerformance) : Q := sp_pnl b - sp_pnl a.

Definition calculateSymbolPerformance (trades : list Trade) : list SymbolPerformance :=
  let symbolMap :=
    fold_left (fun symbolMap trade =>
        let existing :=
          default {| sa_trades := 0; sa_pnl := 0; sa_winningTrades := 0 |}
                  (Map_get symbolMap (symbol trade)) in
        Map_set symbolMap (symbol trade)
          {| sa_trades := sa_trades existing + 1;
             sa_pnl := sa_pnl existing + netPL trade;
             sa_winningTrades :=
               sa_winningTrades existing + (if JS.ltb 0 (netPL trade) then 1 else 0) |})
      trades [] in
  JS.Array_sort byPnlDescending
    (List.map (fun '(symbol, data) =>
        {| sp_symbol := symbol;
           sp_trades := sa_trades data;
           sp_pnl := sa_pnl data;
           sp_winRate :=
             if (0 <? sa_trades data)%nat
             then (inject_Z (Z.of_nat (sa_winningTrades data))
                   / inject_Z (Z.of_nat (sa_trades data))) * 100
             else 0 |})
      symbolMap).

(** *** [calculateTradingConsistency] *)
Record Consistency := {
  tradingDays : nat;
  averageTradesPerDay : Q;
  profitableDays : nat
}.

Definition calculateTradingConsistency (trades : list Trade) : Consistency :=
  let uniqueDates : gset Z := list_to_set (List.map date trades) in
  let tradingDays := size uniqueDates in
  let averageTradesPerDay :=
    if (0 <? tradingDays)%nat
    then inject_Z (Z.of_nat (length trades)) / inject_Z (Z.of_nat tradingDays)
    else 0 in
  let dayPnL : gmap Z Q :=
    fold_left (fun dayPnL trade =>
        let date := date trade in
        let sofar := match dayPnL !! date with
                     | Some v => if JS.truthy v then v else 0
                     | None => 0
                     end in
        <[date := sofar + netPL trade]> dayPnL)
      trades ∅ in
  let profitableDays :=
    length (List.filter (fun pnl => JS.ltb 0 pnl) (snd <$> map_to_list dayPnL)) in
  {| tradingDays := tradingDays;
     averageTradesPerDay := averageTradesPerDay;
     profitableDays := profitableDays |}.

(** The report of [generateHistoricalAnalytics]. *)
Record HistoricalAnalytics := {
  ha_userId : string;
  ha_timeframe : Timeframe;
  ha_startDate : Z;
  ha_endDate : Z;
  ha_stats : TradeStats;              (* ...basicStats *)
  ha_maxDrawdown : Q;
  ha_consistency : Consistency;       (* ...consistency *)
  ha_topSymbols : list SymbolPerformance;
  ha_monthlyBreakdown : option (list MonthlyBreakdownEntry)
}.

Section WithZone.
Variable tz : Z.

(** The key under which [groupTradesByMonth] files a trade. *)
Definition monthKeyOf (trade : Trade) : string :=
  let date := JS.Date_parse (date trade) in
  let year := JS.getFullYear tz date in
  let month := (JS.getMonth tz date + 1)%Z in
  getMonthKey year month.

Definition groupTradesByMonth (trades : list Trade) : gmap string (list Trade) :=
  fold_left (fun grouped trade =>
      let key := monthKeyOf trade in
      let grouped :=
        if bool_decide (is_Some (grouped !! key)) then grouped
        else <[key := []]> grouped in
      match grouped !! key with
      | Some group => <[key := group ++ [trade]]> grouped
      | None => grouped
      end)
    trades ∅.

Definition groupTradesByYear (trades : list Trade) : gmap Z (list Trade) :=
  fold_left (fun grouped trade =>
      let year := JS.getFullYear tz (JS.Date_parse (date trade)) in
      let grouped :=
        if bool_decide (is_Some (grouped !! year)) then grouped
        else <[year := []]> grouped in
      match grouped !! year with
      | Some group => <[year := group ++ [trade]]> grouped
      | None => grouped
      end)
    trades ∅.

(** [getCurrentMonth]; [now] is the instant [new Date()] reads. *)
Definition getCurrentMonth (now : Z) : Z * Z * string :=
  let year := JS.getFullYear tz now in
  let month := (JS.getMonth tz now + 1)%Z in
  (year, month, getMonthName month +:+ " " +:+ pretty year).

(** The body of the loop [for (month = 1; month <= 12; month++)]. *)
Definition breakdownEntry (dateRange : DateRange)
    (monthlyGroups : gmap string (list Trade)) (month : Z)
  : MonthlyBreakdownEntry :=
  let startDate := JS.Date_parse (startDate dateRange) in
  let year := JS.getFullYear tz startDate in
  let key := getMonthKey year month in
  let monthTrades := default [] (monthlyGroups !! key) in
  let monthStats := calculateTradeStats monthTrades in
  {| mb_month := month;
     mb_monthName := getMonthName month;
     mb_trades := totalTrades monthStats;
     mb_pnl := totalPnL monthStats;
     mb_winRate := winRate monthStats |}.

Definition monthlyBreakdownOf (dateRange : DateRange)
    (filteredTrades : list Trade) : list MonthlyBreakdownEntry :=
  let monthlyGroups := groupTradesByMonth filteredTrades in
  fold_left (fun monthlyBreakdown month =>
      monthlyBreakdown ++ [breakdownEntry dateRange monthlyGroups month])
    (seqZ 1 12) [].

Definition generateHistoricalAnalytics (userId : string) (trades : list Trade)
    (timeframe : Timeframe) (dateRange : DateRange) : HistoricalAnalytics :=
  let filteredTrades := filterTradesByDateRange trades dateRange in
  let basicStats := calculateTradeStats filteredTrades in
  let symbolPerformance := calculateSymbolPerformance filteredTrades in
  let maxDrawdown := calculateMaxDrawdown filteredTrades in
  let consistency := calculateTradingConsistency filteredTrades in
  let monthlyBreakdown :=
    match timeframe with
    | yearly => Some (monthlyBreakdownOf dateRange filteredTrades)
    | _ => None
    end in
  {| ha_userId := userId;
     ha_timeframe := timeframe;
     ha_startDate := startDate dateRange;
     ha_endDate := endDate dateRange;
     ha_stats := basicStats;
     ha_maxDrawdown := maxDrawdown;
     ha_consistency := consistency;
     ha_topSymbols := take 10 symbolPerformance;
     ha_monthlyBreakdown := monthlyBreakdown |}.

(** [getPresetDateRange], with the name of the preset the range carries;
    [now] is the instant [new Date()] reads. *)
Definition getPresetDateRange (now : Z) (preset : string) : DateRange * string :=
  let today := JS.toISODate now in
  if bool_decide (preset = "today")
  then ({| startDate := today; endDate := today |}, "today")
  else if bool_decide (preset = "week")
  then
    let weekAgo := (JS.getTime now - 7 * 24 * 60 * 60 * 1000)%Z in
    ({| startDate := JS.toISODate weekAgo; endDate := today |}, "week")
  else if bool_decide (preset = "month")
  then
    let monthAgo :=
      JS.Date_local tz (JS.getFullYear tz now) (JS.getMonth tz now - 1)
        (JS.getDate tz now) in
    ({| startDate := JS.toISODate monthAgo; endDate := today |}, "month")
  else if bool_decide (preset = "quarter")
  then
    let quarterAgo :=
      JS.Date_local tz (JS.getFullYear tz now) (JS.getMonth tz now - 3)
        (JS.getDate tz now) in
    ({| startDate := JS.toISODate quarterAgo; endDate := today |}, "quarter")
  else if bool_decide (preset = "year")
  then
    let yearStart := JS.Date_local tz (JS.getFullYear tz now) 0 1 in
    ({| startDate := JS.toISODate yearStart; endDate := today |}, "year")
  else
    (* case 'all': default: the text '2020-01-01' *)
    ({| startDate := JS.days_from_civil 2020 1 1; endDate := today |}, "all").
End WithZone.

End HistoricalUtils.

(** ** [services/monthlyTargetsService.ts] *)
Module MonthlyTargetsService.
Import Types HistoricalUtils.
Local Open Scope Q_scope.

(** The data of a document of the collection ["monthlyTargets"]. *)
Record TargetDoc := {
  userId : string;
  year : Z;
  month : Z;
  monthName : string;
  pnlTarget : Q;
  tradesTarget : Q;
  winRateTarget : Q;
  currentPnL : Q;
  currentTrades : Q;
  currentWinRate : Q;
  isCompleted : bool;
  completedAt : option Z;
  createdAt : Z;
  updatedAt : Z
}.

(** [MonthlyTarget]: the document together with its id. *)
Record MonthlyTarget := {
  id : string;
  data : TargetDoc
}.

(** [Partial<MonthlyTarget>]: a field that is absent is [None]. *)
Record TargetUpdates := {
  u_userId : option string;
  u_year : option Z;
  u_month : option Z;
  u_monthName : option string;
  u_pnlTarget : option Q;
  u_tradesTarget : option Q;
  u_winRateTarget : option Q;
  u_currentPnL : option Q;
  u_currentTrades : option Q;
  u_currentWinRate : option Q;
  u_isCompleted : option bool;
  u_completedAt : option Z;
  u_createdAt : option Z
}.

(** [updates.completedAt = t] *)
Definition set_completedAt (t : Z) (u : TargetUpdates) : TargetUpdates :=
  {| u_userId := u_userId u; u_year := u_year u; u_month := u_month u;
     u_monthName := u_monthName u; u_pnlTarget := u_pnlTarget u;
     u_tradesTarget := u_tradesTarget u; u_winRateTarget := u_winRateTarget u;
     u_currentPnL := u_currentPnL u; u_currentTrades := u_currentTrades u;
     u_currentWinRate := u_currentWinRate u; u_isCompleted := u_isCompleted u;
     u_completedAt := Some t; u_createdAt := u_createdAt u |}.

(** The world of the service: the collection and the clock. *)
Record World := {
  targets : gmap string TargetDoc;
  now : Z
}.

(** An asynchronous computation: it runs on the world and either rejects
    ([None]) or resolves to a value and the world it leaves. *)
Definition Async (A : Type) : Type := World -> option (A * World).

#[global] Instance Async_ret : MRet Async := fun A x w => Some (x, w).
#[global] Instance Async_bind : MBind Async := fun A B f m w =>
  match m w with
  | Some (x, w') => f x w'
  | None => None
  end.

(** [new Date()] *)
Definition newDate : Async Z := fun w => Some (now w, w).

(** [getDocs(query(...))]: the documents that satisfy the [where] clauses,
    in the order the collection lists them (no statement below depends on
    which of several matching documents comes first). *)
Definition getDocs (matches : TargetDoc -> bool) : Async (list MonthlyTarget) :=
  fun w =>
    Some (List.map (fun '(i, d) => {| id := i; data := d |})
            (List.filter (fun '(i, d) => matches d) (map_to_list (targets w))), w).

(** A document with the fields of [{...updates, updatedAt}] written over
    it. *)
Definition applyUpdates (updates : TargetUpdates) (updatedAt' : Z) (d : TargetDoc)
  : TargetDoc :=
  {| userId := default (userId d) (u_userId updates);
     year := default (year d) (u_year updates);
     month := default (month d) (u_month updates);
     monthName := default (monthName d) (u_monthName updates);
     pnlTarget := default (pnlTarget d) (u_pnlTarget updates);
     tradesTarget := default (tradesTarget d) (u_tradesTarget updates);
     winRateTarget := default (winRateTarget d) (u_winRateTarget updates);
     currentPnL := default (currentPnL d) (u_currentPnL updates);
     currentTrades := default (currentTrades d) (u_currentTrades updates);
     currentWinRate := default (currentWinRate d) (u_currentWinRate updates);
     isCompleted := default (isCompleted d) (u_isCompleted updates);
     completedAt :=
       match u_completedAt updates with
       | Some t => Some t
       | None => completedAt d
       end;
     createdAt := default (createdAt d) (u_createdAt updates);
     updatedAt := updatedAt' |}.

(** [updateDoc(docRef, updateData)]: writes the fields that are present;
    rejects when the document does not exist. *)
Definition updateDoc (targetId : string) (updates : TargetUpdates) (updatedAt' : Z)
  : Async unit :=
  fun w =>
    match targets w !! targetId with
    | Some d =>
      Some (tt, {| targets := <[targetId := applyUpdates updates updatedAt' d]> (targets w);
                   now := now w |})
    | None => None
    end.

Definition getMonthlyTarget (userId' : string) (year' month' : Z)
  : Async (option MonthlyTarget) :=
  docs ← getDocs (fun d =>
            bool_decide (userId d = userId') && bool_decide (year d = year')
            && bool_decide (month d = month'));
  mret (head docs).

Definition updateMonthlyTarget (targetId : string) (updates : TargetUpdates)
  : Async unit :=
  updatedAt' ← newDate;
  updateDoc targetId updates updatedAt'.

(** [Omit<MonthlyTarget, 'id' | 'createdAt' | 'updatedAt'>]: what a caller
    of [createMonthlyTarget] supplies. *)
Record NewTarget := {
  n_userId : string;
  n_year : Z;
  n_month : Z;
  n_monthName : string;
  n_pnlTarget : Q;
  n_tradesTarget : Q;
  n_winRateTarget : Q;
  n_currentPnL : Q;
  n_currentTrades : Q;
  n_currentWinRate : Q;
  n_isCompleted : bool;
  n_completedAt : option Z
}.

(** [addDoc(collection, data)]: stores the data under an id that the
    collection does not hold yet, and resolves to that id. *)
Definition addDoc (d : TargetDoc) : Async string :=
  fun w =>
    let i := fresh (dom (targets w)) in
    Some (i, {| targets := <[i := d]> (targets w); now := now w |}).

(** [getDoc(docRef)] followed by [firestoreToMonthlyTarget]: [null] when
    the document does not exist. *)
Definition getDoc (targetId : string) : Async (option MonthlyTarget) :=
  fun w =>
    Some ((fun d => {| id := targetId; data := d |}) <$> targets w !! targetId, w).

(** [deleteDoc(docRef)]: resolves also when there is no such document. *)
Definition deleteDoc (targetId : string) : Async unit :=
  fun w => Some (tt, {| targets := delete targetId (targets w); now := now w |}).

Definition createMonthlyTarget (target : NewTarget) : Async string :=
  now' ← newDate;
  addDoc {| userId := n_userId target; year := n_year target;
            month := n_month target; monthName := n_monthName target;
            pnlTarget := n_pnlTarget target; tradesTarget := n_tradesTarget target;
            winRateTarget := n_winRateTarget target;
            currentPnL := n_currentPnL target;
            currentTrades := n_currentTrades target;
            currentWinRate := n_currentWinRate target;
            isCompleted := n_isCompleted target;
            completedAt := n_completedAt target;
            createdAt := now'; updatedAt := now' |}.

Definition getMonthlyTargetById (targetId : string) : Async (option MonthlyTarget) :=
  getDoc targetId.

Definition deleteMonthlyTarget (targetId : string) : Async unit :=
  deleteDoc targetId.

(** A query with [orderBy] clauses: the matching documents in the order of
    the comparator (documents that compare equal: in the order of
    [getDocs]). *)
Definition getDocsOrdered (matches : TargetDoc -> bool)
    (cmp : MonthlyTarget -> MonthlyTarget -> Q) : Async (list MonthlyTarget) :=
  docs ← getDocs matches;
  mret (JS.Array_sort cmp docs).

(** [orderBy('year', 'desc'), orderBy('month', 'desc')] *)
Definition byYearMonthDescending (a b : MonthlyTarget) : Q :=
  if bool_decide (year (data a) = year (data b))
  then inject_Z (month (data b) - month (data a))
  else inject_Z (year (data b) - year (data a)).

(** [orderBy('month', 'asc')] *)
Definition byMonthAscending (a b : MonthlyTarget) : Q :=
  inject_Z (month (data a) - month (data b)).

Definition getUserMonthlyTargets (userId' : string) : Async (list MonthlyTarget) :=
  getDocsOrdered (fun d => bool_decide (userId d = userId')) byYearMonthDescending.

(** The summary of [getYearTargetsSummary]. *)
Record YearSummary := {
  totalTargetPnL : Q;
  totalCurrentPnL : Q;
  totalTargetTrades : Q;
  totalCurrentTrades : Q;
  completedTargets : nat;
  totalTargets : nat;
  completionRate : Q;
  averageWinRateTarget : Q;
  averageCurrentWinRate : Q;
  pnlProgress : Q;
  tradesProgress : Q
}.

Record YearTargets := {
  yt_year : Z;
  yt_targets : list MonthlyTarget;
  yt_summary : YearSummary
}.

Definition getYearTargetsSummary (userId' : string) (year' : Z) : Async YearTargets :=
  targets ← getDocsOrdered
               (fun d => bool_decide (userId d = userId') && bool_decide (year d = year'))
               byMonthAscending;
  let totalTargetPnL := fold_left (fun sum t => sum + pnlTarget (data t)) targets 0 in
  let totalCurrentPnL := fold_left (fun sum t => sum + currentPnL (data t)) targets 0 in
  let totalTargetTrades :=
    fold_left (fun sum t => sum + tradesTarget (data t)) targets 0 in
  let totalCurrentTrades :=
    fold_left (fun sum t => sum + currentTrades (data t)) targets 0 in
  let completedTargets := length (List.filter (fun t => isCompleted (data t)) targets) in
  let averageWinRateTarget :=
    if (0 <? length targets)%nat
    then fold_left (fun sum t => sum + winRateTarget (data t)) targets 0
         / inject_Z (Z.of_nat (length targets))
    else 0 in
  let averageCurrentWinRate :=
    if (0 <? length targets)%nat
    then fold_left (fun sum t => sum + currentWinRate (data t)) targets 0
         / inject_Z (Z.of_nat (length targets))
    else 0 in
  mret {| yt_year := year';
          yt_targets := targets;
          yt_summary :=
            {| totalTargetPnL := totalTargetPnL;
               totalCurrentPnL := totalCurrentPnL;
               totalTargetTrades := totalTargetTrades;
               totalCurrentTrades := totalCurrentTrades;
               completedTargets := completedTargets;
               totalTargets := length targets;
               completionRate :=
                 if (0 <? length targets)%nat
                 then (inject_Z (Z.of_nat completedTargets)
                       / inject_Z (Z.of_nat (length targets))) * 100
                 else 0;
               averageWinRateTarget := averageWinRateTarget;
               averageCurrentWinRate := averageCurrentWinRate;
               pnlProgress :=
                 if JS.ltb 0 totalTargetPnL
                 then (totalCurrentPnL / totalTargetPnL) * 100 else 0;
               tradesProgress :=
                 if JS.ltb 0 totalTargetTrades
                 then (totalCurrentTrades / totalTargetTrades) * 100 else 0 |} |}.

Section WithZone.
Variable tz : Z.

Definition updateMonthlyTargetProgress (userId' : string) (year' month' : Z)
    (trades : list Trade) : Async unit :=
  target ← getMonthlyTarget userId' year' month';
  match target with
  | None => mret tt
  | Some target =>
    let startDate := JS.toISODate (JS.Date_local tz year' (month' - 1) 1) in
    let endDate := JS.toISODate (JS.Date_local tz year' month' 0) in
    let monthTrades :=
      filterTradesByDateRange trades {| startDate := startDate; endDate := endDate |} in
    let stats := calculateTradeStats monthTrades in
    let isCompleted' :=
      JS.leb (pnlTarget (data target)) (totalPnL stats)
      && JS.leb (tradesTarget (data target)) (inject_Z (Z.of_nat (totalTrades stats)))
      && JS.leb (winRateTarget (data target)) (winRate stats) in
    let updates :=
      {| u_userId := None; u_year := None; u_month := None; u_monthName := None;
         u_pnlTarget := None; u_tradesTarget := None; u_winRateTarget := None;
         u_currentPnL := Some (totalPnL stats);
         u_currentTrades := Some (inject_Z (Z.of_nat (totalTrades stats)));
         u_currentWinRate := Some (winRate stats);
         u_isCompleted := Some isCompleted';
         u_completedAt := None;
         u_createdAt := None |} in
    if isCompleted' && negb (isCompleted (data target))
    then
      completedAt' ← newDate;
      updateMonthlyTarget (id target) (set_completedAt completedAt' updates)
    else updateMonthlyTarget (id target) updates
  end.

(** [getCurrentMonthTarget]: the target of the month of the clock, made
    with the default goals when there is none.  ([target!] asserts, and
    does not check, that the last read finds the document.) *)
Definition getCurrentMonthTarget (userId' : string) : Async (option MonthlyTarget) :=
  now' ← newDate;
  let '(year', month', monthName') := getCurrentMonth tz now' in
  target ← getMonthlyTarget userId' year' month';
  match target with
  | Some target => mret (Some target)
  | None =>
    targetId ← createMonthlyTarget
                 {| n_userId := userId'; n_year := year'; n_month := month';
                    n_monthName := monthName';
                    n_pnlTarget := 1000; n_tradesTarget := 20; n_winRateTarget := 60;
                    n_currentPnL := 0; n_currentTrades := 0; n_currentWinRate := 0;
                    n_isCompleted := false; n_completedAt := None |};
    getMonthlyTargetById targetId
  end.
End WithZone.

End MonthlyTargetsService.

(** ** [services/tradingStorageService.ts] *)
Module TradingStorageService.
Import Types.
Local Open Scope Q_scope.

Record PortfolioSummary := {
  totalTrades : nat;
  totalNetPL : Q;
  totalFees : Q;
  winningTrades : nat;
  losingTrades : nat;
  winRate : Q;
  bestTrade : Q;
  worstTrade : Q;
  averageNetPL : Q
}.

(** [getUserTrades]: the user's documents of the collection ["trades"],
    in the order the query returns them. *)
Definition getUserTrades (collection : list Trade) (userId' : string) : list Trade :=
  List.filter (fun t => bool_decide (userId t = userId')) collection.

(** [getPortfolioSummary], on the collection the query reads. *)
Definition getPortfolioSummary (collection : list Trade) (userId' : string)
  : PortfolioSummary :=
  let trades := getUserTrades collection userId' in
  let totalTrades := length trades in
  let totalNetPL := fold_left (fun sum trade => sum + netPL trade) trades 0 in
  let totalFees := fold_left (fun sum trade => sum + fees trade) trades 0 in
  let winningTrades := length (List.filter (fun t => JS.ltb 0 (netPL t)) trades) in
  let losingTrades := length (List.filter (fun t => JS.ltb (netPL t) 0) trades) in
  let winRate :=
    if (0 <? totalTrades)%nat
    then (inject_Z (Z.of_nat winningTrades) / inject_Z (Z.of_nat totalTrades)) * 100
    else 0 in
  let bestTrade :=
    match List.map netPL trades with
    | [] => 0
    | x :: xs => JS.Math_max x xs
    end in
  let worstTrade :=
    match List.map netPL trades with
    | [] => 0
    | x :: xs => JS.Math_min x xs
    end in
  let averageNetPL :=
    if (0 <? totalTrades)%nat
    then totalNetPL / inject_Z (Z.of_nat totalTrades)
    else 0 in
  {| totalTrades := totalTrades; totalNetPL := totalNetPL; totalFees := totalFees;
     winningTrades := winningTrades; losingTrades := losingTrades;
     winRate := winRate; bestTrade := bestTrade; worstTrade := worstTrade;
     averageNetPL := averageNetPL |}.

End TradingStorageService.

(** ** [utils/tradingUtils.ts] *)
Module TradingUtils.
Local Open Scope Q_scope.

Inductive TradeStatus := OPEN | CLOSED.

Record PortfolioMetrics := {
  totalTrades : nat;
  openTrades : nat;
  closedTrades : nat;
  winningTrades : nat;
  losingTrades : nat;
  winRate : Q;
  totalPnl : Q;
  totalFees : Q;
  totalInvestment : Q;
  averagePnl : Q;
  bestTrade : Q;
  worstTrade : Q;
  returnOnInvestment : Q
}.

Section Portfolio.
(** The helpers of this file read fields ([status], [netPnl], [quantity],
    [entryPrice]) of a [Trade] whose declaration is not the one of
    [types/trading.ts]; the type and its fields are parameters. *)
Context {Trade : Type}.
Variable status : Trade -> TradeStatus.
Variable netPnl : Trade -> option Q.
Variable fees : Trade -> Q.
Variable entryPrice : Trade -> Q.
Variable quantity : Trade -> Q.

(** [t.netPnl || 0] *)
Definition netPnlOr0 (t : Trade) : Q :=
  match netPnl t with
  | Some v => if JS.truthy v then v else 0
  | None => 0
  end.

Definition calculatePortfolioMetrics (trades : list Trade) : PortfolioMetrics :=
  let closedTrades :=
    List.filter (fun t => match status t with CLOSED => true | OPEN => false end) trades in
  let openTrades :=
    List.filter (fun t => match status t with OPEN => true | CLOSED => false end) trades in
  let totalPnl := fold_left (fun sum trade => sum + netPnlOr0 trade) trades 0 in
  let totalFees := fold_left (fun sum trade => sum + fees trade) trades 0 in
  let totalInvestment :=
    fold_left (fun sum trade => sum + entryPrice trade * quantity trade) trades 0 in
  let winningTrades := List.filter (fun t => JS.ltb 0 (netPnlOr0 t)) closedTrades in
  let losingTrades := List.filter (fun t => JS.ltb (netPnlOr0 t) 0) closedTrades in
  let winRate :=
    if (0 <? length closedTrades)%nat
    then (inject_Z (Z.of_nat (length winningTrades))
          / inject_Z (Z.of_nat (length closedTrades))) * 100
    else 0 in
  let averagePnl :=
    if (0 <? length trades)%nat
    then totalPnl / inject_Z (Z.of_nat (length trades))
    else 0 in
  (* Math.max(...trades.map(t => t.netPnl || 0), 0) *)
  let bestTrade :=
    match List.map netPnlOr0 trades with
    | [] => JS.Math_max 0 []
    | x :: xs => JS.Math_max x (xs ++ [0])
    end in
  let worstTrade :=
    match List.map netPnlOr0 trades with
    | [] => JS.Math_min 0 []
    | x :: xs => JS.Math_min x (xs ++ [0])
    end in
  {| totalTrades := length trades;
     openTrades := length openTrades;
     closedTrades := length closedTrades;
     winningTrades := length winningTrades;
     losingTrades := length losingTrades;
     winRate := winRate;
     totalPnl := totalPnl;
     totalFees := totalFees;
     totalInvestment := totalInvestment;
     averagePnl := averagePnl;
     bestTrade := bestTrade;
     worstTrade := worstTrade;
     returnOnInvestment :=
       if JS.ltb 0 totalInvestment then (totalPnl / totalInvestment) * 100 else 0 |}.
End Portfolio.

(** The result of [calculateTradeMetrics]. *)
Record TradeMetrics := {
  tm_pnlAmount : Q;
  tm_netPnl : Q;
  tm_pnlPercentage : Q;
  tm_isOpen : bool;
  tm_totalInvestment : Q
}.

(** [calculateTradeMetrics], on the five fields it reads of the trade;
    an [exitPrice] that is absent is [None]. *)
Definition calculateTradeMetrics (type : string) (quantity entryPrice : Q)
    (exitPrice : option Q) (fees : Q) : TradeMetrics :=
  match exitPrice ≫= (fun v => if JS.truthy v then Some v else None) with
  | None =>
    {| tm_pnlAmount := 0;
       tm_netPnl := - fees;
       tm_pnlPercentage := 0;
       tm_isOpen := true;
       tm_totalInvestment := entryPrice * quantity |}
  | Some exitPrice =>
    let pnlAmount :=
      if bool_decide (type = "BUY") || bool_decide (type = "LONG")
      then (exitPrice - entryPrice) * quantity
      else if bool_decide (type = "SELL") || bool_decide (type = "SHORT")
      then (entryPrice - exitPrice) * quantity
      else 0 in
    let netPnl := pnlAmount - fees in
    let totalInvestment := entryPrice * quantity in
    let pnlPercentage :=
      if JS.ltb 0 totalInvestment then (netPnl / totalInvestment) * 100 else 0 in
    {| tm_pnlAmount := pnlAmount;
       tm_netPnl := netPnl;
       tm_pnlPercentage := pnlPercentage;
       tm_isOpen := false;
       tm_totalInvestment := totalInvestment |}
  end.

End TradingUtils.

(** ** [components/SimpleTradingJournal.tsx] *)
Module SimpleTradingJournal.
Import Types.
Local Open Scope Q_scope.

Record DailyTarget := {
  dailyPnLTarget : Q;
  dailyTradesTarget : Q;
  currentDayPnL : Q;
  currentDayTrades : nat;
  streak : nat
}.

Definition byDateDescending (a b : Trade) : Q :=
  inject_Z (JS.getTime (JS.Date_parse (date b)) - JS.getTime (JS.Date_parse (date a))).

(** [for (const trade of sortedTrades) { if (trade.netPL > 0) streak++; else break; }] *)
Fixpoint streakLoop (sortedTrades : list Trade) (streak : nat) : nat :=
  match sortedTrades with
  | [] => streak
  | trade :: rest =>
    if JS.ltb 0 (netPL trade) then streakLoop rest (S streak) else streak
  end.

(** [calculateDailyStats], as the new value of the state [dailyTarget];
    [now] is the instant [new Date()] reads. *)
Definition calculateDailyStats (now : Z) (allTrades : list Trade) (prev : DailyTarget)
  : DailyTarget :=
  let today := JS.toISODate now in
  let todayTrades := List.filter (fun trade => bool_decide (date trade = today)) allTrades in
  let currentDayPnL := fold_left (fun sum trade => sum + netPL trade) todayTrades 0 in
  let currentDayTrades := length todayTrades in
  let sortedTrades := JS.Array_sort byDateDescending allTrades in
  let streak := streakLoop sortedTrades 0 in
  {| dailyPnLTarget := dailyPnLTarget prev;
     dailyTradesTarget := dailyTradesTarget prev;
     currentDayPnL := currentDayPnL;
     currentDayTrades := currentDayTrades;
     streak := streak |}.

End SimpleTradingJournal.

(** ** [components/PositionSizeCalculator.tsx] *)
Module PositionSizeCalculator.
Local Open Scope Q_scope.

(** What [parseFloat] makes of the text of a field. *)
Inductive Parsed := NaN | Num (q : Q).

Record CalculatorFormData := {
  accountBalance : Parsed;          (* parseFloat(formData.accountBalance) *)
  riskPercentage : Parsed;
  stopLossPips : Parsed;
  pair : string;
  takeProfitPips : option Parsed    (* [None]: the text is empty *)
}.

Record CalculationResults := {
  lotSize : Q;
  riskAmount : Q;
  potentialProfit : option Q;
  pipValue : Q
}.

Record PairOption := {
  po_value : string;
  po_label : string;
  po_pipValue : Q
}.

Definition pairOptions : list PairOption :=
  [ {| po_value := "XAUUSD"; po_label := "Gold (XAUUSD)"; po_pipValue := 1 # 10 |};
    {| po_value := "EURUSD"; po_label := "EUR/USD"; po_pipValue := 1 # 10 |};
    {| po_value := "GBPUSD"; po_label := "GBP/USD"; po_pipValue := 1 # 10 |};
    {| po_value := "USDJPY"; po_label := "USD/JPY"; po_pipValue := 91 # 1000 |};
    {| po_value := "USDCHF"; po_label := "USD/CHF"; po_pipValue := 1 # 10 |};
    {| po_value := "AUDUSD"; po_label := "AUD/USD"; po_pipValue := 1 # 10 |};
    {| po_value := "USDCAD"; po_label := "USD/CAD"; po_pipValue := 75 # 1000 |};
    {| po_value := "NZDUSD"; po_label := "NZD/USD"; po_pipValue := 1 # 10 |};
    {| po_value := "EURJPY"; po_label := "EUR/JPY"; po_pipValue := 91 # 1000 |};
    {| po_value := "GBPJPY"; po_label := "GBP/JPY"; po_pipValue := 91 # 1000 |} ].

(** The value of a number on which the test [!x] is false: neither [NaN]
    nor [0]. *)
Definition truthyValue (x : Parsed) : option Q :=
  match x with
  | NaN => None
  | Num q => if JS.truthy q then Some q else None
  end.

(** [calculatePositionSize], as the new value of the state [results]: the
    early [return] leaves the state as it is, [setResults] replaces it. *)
Definition calculatePositionSize (formData : CalculatorFormData)
    (results : option CalculationResults) : option CalculationResults :=
  let balance := accountBalance formData in
  let riskPercent := riskPercentage formData in
  let stopLoss := stopLossPips formData in
  let selectedPair :=
    List.find (fun p => bool_decide (po_value p = pair formData)) pairOptions in
  let takeProfit := takeProfitPips formData in
  match truthyValue balance, truthyValue riskPercent, truthyValue stopLoss, selectedPair with
  | Some balance, Some riskPercent, Some stopLoss, Some selectedPair =>
    let riskAmount := (balance * riskPercent) / 100 in
    let pipValue := po_pipValue selectedPair in
    let lotSize := riskAmount / (stopLoss * pipValue) in
    let potentialProfit :=
      match takeProfit ≫= truthyValue with
      | Some takeProfit => Some (takeProfit * pipValue * lotSize)
      | None => None
      end in
    Some {| lotSize := JS.toFixed lotSize 4;
            riskAmount := JS.toFixed riskAmount 2;
            potentialProfit :=
              match potentialProfit with
              | Some p => if JS.truthy p then Some (JS.toFixed p 2) else None
              | None => None
              end;
            pipValue := pipValue |}
  | _, _, _, _ => results
  end.

End PositionSizeCalculator.

(** ** Vocabulary of the statements *)
Module Spec.
Import Types.
Local Open Scope Q_scope.

(** The sum of a list of numbers, from the left as [reduce] adds them. *)
Definition sumQ (xs : list Q) : Q := fold_left Qplus xs 0.

(** A trade counts as a win when its net result is strictly positive. *)
Definition isWin (t : Trade) : bool := JS.ltb 0 (netPL t).

(** The longest run of wins at the front of a list. *)
Fixpoint leadingWins (trades : list Trade) : list Trade :=
  match trades with
  | [] => []
  | t :: rest => if isWin t then t :: leadingWins rest else []
  end.

(** Most recent first. *)
Definition newestFirst (a b : Trade) : Prop := (date b <= date a)%Z.
(** Oldest first. *)
Definition oldestFirst (a b : Trade) : Prop := (date a <= date b)%Z.

(** A trade falls in month [m] of year [y], read as [groupTradesByMonth]
    reads its date: with the local-time getters of the host. *)
Definition inMonth (tz y m : Z) (t : Trade) : bool :=
  bool_decide (JS.getFullYear tz (JS.Date_parse (date t)) = y
               ∧ (JS.getMonth tz (JS.Date_parse (date t)) + 1)%Z = m).

(** The trades [updateMonthlyTargetProgress] counts for a month: those from
    the day [new Date(year, month - 1, 1)] prints to the day
    [new Date(year, month, 0)] prints. *)
Definition monthTradesOf (tz year month : Z) (trades : list Trade) : list Trade :=
  HistoricalUtils.filterTradesByDateRange trades
    {| startDate := JS.toISODate (JS.Date_local tz year (month - 1) 1);
       endDate := JS.toISODate (JS.Date_local tz year month 0) |}.

(** [r] is [x] rounded to [digits] decimal places: a multiple of
    [10^-digits] at most half such a unit away from [x]. *)
Definition roundedTo (digits : nat) (x r : Q) : Prop :=
  (exists n : Z, r == inject_Z n * (1 / inject_Z (10 ^ Z.of_nat digits))) ∧
  Qabs (r - x) <= (1 # 2) * (1 / inject_Z (10 ^ Z.of_nat digits)).

(** The text of a field yields no number, or the number [0]. *)
Definition missingOrZero (x : PositionSizeCalculator.Parsed) : Prop :=
  match x with
  | PositionSizeCalculator.NaN => True
  | PositionSizeCalculator.Num q => q == 0
  end.

(** A trade falls in month [m] of year [y] of the calendar, by its date
    text. *)
Definition inCalendarMonth (y m : Z) (t : Trade) : bool :=
  bool_decide (JS.year_of (date t) = y ∧ JS.month_of (date t) = m).

(** [x] is the greatest (least) number of a list. *)
Definition isMaxOf (x : Q) (xs : list Q) : Prop :=
  x ∈ xs ∧ Forall (fun y => y <= x) xs.
Definition isMinOf (x : Q) (xs : list Q) : Prop :=
  x ∈ xs ∧ Forall (fun y => x <= y) xs.

(** A trade with the given day and net result; the other fields are of no
    account for the statistics. *)
Definition mkTrade (name : string) (day : Z) (net : Q) : Trade :=
  {| id := name; userId := "u1"; accountId := None; date := day;
     symbol := "XAUUSD"; type := Buy; plAmount := net; entry := 0; exit := 0;
     fees := 0; netPL := net; notes := None |}.

End Spec.

(** ** Sample data *)
Module Examples.
Import Types Spec.
Local Open Scope Q_scope.

(** One losing trade. *)
Definition oneLoss : list Trade := [mkTrade "t1" 19723 (-5)].

(** One trade that loses 50. *)
Definition oneLoss50 : list Trade := [mkTrade "t1" 19723 (-50)].

(** Three trades of three days, in two orders. *)
Definition threeDays : list Trade :=
  [mkTrade "a" 19723 100; mkTrade "b" 19724 (-50); mkTrade "c" 19725 200].
Definition threeDaysShuffled : list Trade :=
  [mkTrade "c" 19725 200; mkTrade "a" 19723 100; mkTrade "b" 19724 (-50)].

(** Three trades of one day, in two orders. *)
Definition sameDay : list Trade :=
  [mkTrade "a" 19723 (-10); mkTrade "b" 19723 10; mkTrade "c" 19723 (-10)].
Definition sameDayShuffled : list Trade :=
  [mkTrade "b" 19723 10; mkTrade "a" 19723 (-10); mkTrade "c" 19723 (-10)].

(** Four trades, the most recent first: +10, +5, -3, +20. *)
Definition recentFirst : list Trade :=
  [mkTrade "d" 19726 10; mkTrade "c" 19725 5; mkTrade "b" 19724 (-3);
   mkTrade "a" 19723 20].

(** The most recent trade wins, the one before it breaks even. *)
Definition breakEvenSecond : list Trade :=
  [mkTrade "c" 19725 10; mkTrade "b" 19724 0; mkTrade "a" 19723 5].

Definition freshDailyTarget : SimpleTradingJournal.DailyTarget :=
  {| SimpleTradingJournal.dailyPnLTarget := 100;
     SimpleTradingJournal.dailyTradesTarget := 5;
     SimpleTradingJournal.currentDayPnL := 0;
     SimpleTradingJournal.currentDayTrades := 0;
     SimpleTradingJournal.streak := 0 |}.

(** A target for January 2024: 100 of profit, 2 trades, a win rate of 50. *)
Definition januaryTarget : MonthlyTargetsService.TargetDoc :=
  {| MonthlyTargetsService.userId := "u1";
     MonthlyTargetsService.year := 2024;
     MonthlyTargetsService.month := 1;
     MonthlyTargetsService.monthName := "January 2024";
     MonthlyTargetsService.pnlTarget := 100;
     MonthlyTargetsService.tradesTarget := 2;
     MonthlyTargetsService.winRateTarget := 50;
     MonthlyTargetsService.currentPnL := 0;
     MonthlyTargetsService.currentTrades := 0;
     MonthlyTargetsService.currentWinRate := 0;
     MonthlyTargetsService.isCompleted := false;
     MonthlyTargetsService.completedAt := None;
     MonthlyTargetsService.createdAt := 500;
     MonthlyTargetsService.updatedAt := 500 |}.

Definition world0 : MonthlyTargetsService.World :=
  {| MonthlyTargetsService.targets := {["t1" := januaryTarget]};
     MonthlyTargetsService.now := 1000 |}.

(** The world a computation leaves (the world it started in, should it
    reject), and the same world at a later instant. *)
Definition after (a : MonthlyTargetsService.Async unit)
    (w : MonthlyTargetsService.World) : MonthlyTargetsService.World :=
  match a w with
  | Some (_, w') => w'
  | None => w
  end.

Definition atTime (t : Z) (w : MonthlyTargetsService.World)
  : MonthlyTargetsService.World :=
  {| MonthlyTargetsService.targets := MonthlyTargetsService.targets w;
     MonthlyTargetsService.now := t |}.

(** The progress of January 2024 recomputed three times, in UTC: from the
    three trades of [threeDays] at instant 1000; from no trade (the trades
    were deleted) at instant 2000; from the three trades again at instant
    3000. *)
Definition recompute (trades : list Trade) : MonthlyTargetsService.Async unit :=
  MonthlyTargetsService.updateMonthlyTargetProgress 0 "u1" 2024 1 trades.

Definition world1 : MonthlyTargetsService.World := after (recompute threeDays) world0.
Definition world2 : MonthlyTargetsService.World :=
  after (recompute []) (atTime 2000 world1).
Definition world3 : MonthlyTargetsService.World :=
  after (recompute threeDays) (atTime 3000 world2).

(** Forms of the calculator: the scenario of the specification (balance
    10000, risk 2, stop loss 50, gold at 0.1 per pip); the same with no
    balance entered, with a negative balance, and with a take profit of 0. *)
Definition scenarioForm : PositionSizeCalculator.CalculatorFormData :=
  {| PositionSizeCalculator.accountBalance := PositionSizeCalculator.Num 10000;
     PositionSizeCalculator.riskPercentage := PositionSizeCalculator.Num 2;
     PositionSizeCalculator.stopLossPips := PositionSizeCalculator.Num 50;
     PositionSizeCalculator.pair := "XAUUSD";
     PositionSizeCalculator.takeProfitPips := None |}.

Definition noBalanceForm : PositionSizeCalculator.CalculatorFormData :=
  {| PositionSizeCalculator.accountBalance := PositionSizeCalculator.NaN;
     PositionSizeCalculator.riskPercentage := PositionSizeCalculator.Num 2;
     PositionSizeCalculator.stopLossPips := PositionSizeCalculator.Num 50;
     PositionSizeCalculator.pair := "XAUUSD";
     PositionSizeCalculator.takeProfitPips := None |}.

Definition negativeBalanceForm : PositionSizeCalculator.CalculatorFormData :=
  {| PositionSizeCalculator.accountBalance := PositionSizeCalculator.Num (-1000);
     PositionSizeCalculator.riskPercentage := PositionSizeCalculator.Num 2;
     PositionSizeCalculator.stopLossPips := PositionSizeCalculator.Num 50;
     PositionSizeCalculator.pair := "XAUUSD";
     PositionSizeCalculator.takeProfitPips := None |}.

Definition zeroTakeProfitForm : PositionSizeCalculator.CalculatorFormData :=
  {| PositionSizeCalculator.accountBalance := PositionSizeCalculator.Num 10000;
     PositionSizeCalculator.riskPercentage := PositionSizeCalculator.Num 2;
     PositionSizeCalculator.stopLossPips := PositionSizeCalculator.Num 50;
     PositionSizeCalculator.pair := "XAUUSD";
     PositionSizeCalculator.takeProfitPips := Some (PositionSizeCalculator.Num 0) |}.

Definition gold : PositionSizeCalculator.PairOption :=
  {| PositionSizeCalculator.po_value := "XAUUSD";
     PositionSizeCalculator.po_label := "Gold (XAUUSD)";
     PositionSizeCalculator.po_pipValue := 1 # 10 |}.

(** The year 2024 as a range, and two trades of March 2024. *)
Definition year2024 : DateRange := {| startDate := 19723; endDate := 20088 |}.
Definition marchTrades : list Trade :=
  [mkTrade "m1" 19797 10; mkTrade "m2" 19802 (-5)].

(** One trade of 1 February 2024, and the year 2024 from its second day. *)
Definition februaryTrade : list Trade := [mkTrade "f" 19754 10].
Definition from2Jan2024 : DateRange := {| startDate := 19724; endDate := 20088 |}.

(** A losing trade of a later day. *)
Definition laterLoss : list Trade := [mkTrade "d" 19726 (-500)].

(** Three winning trades. *)
Definition onlyWins : list Trade :=
  [mkTrade "a" 19723 10; mkTrade "b" 19725 0; mkTrade "c" 19724 30].

(** Two overlapping ranges of January 2024. *)
Definition firstHalfJan : DateRange := {| startDate := 19723; endDate := 19737 |}.
Definition secondWeekOn : DateRange := {| startDate := 19730; endDate := 19753 |}.

(** A trade of each of three months. *)
Definition threeMonths : list Trade :=
  [mkTrade "j" 19723 10; mkTrade "m" 19797 (-5); mkTrade "d" 20088 7].

(** The [Trade] of [tradingUtils.ts], with the fields its helpers read. *)
Record LegacyTrade := {
  lt_status : TradingUtils.TradeStatus;
  lt_netPnl : option Q;
  lt_fees : Q;
  lt_entryPrice : Q;
  lt_quantity : Q
}.

Definition closedWith (net : Q) : LegacyTrade :=
  {| lt_status := TradingUtils.CLOSED; lt_netPnl := Some net; lt_fees := 0;
     lt_entryPrice := 100; lt_quantity := 1 |}.

Definition legacyMetrics : list LegacyTrade -> TradingUtils.PortfolioMetrics :=
  TradingUtils.calculatePortfolioMetrics lt_status lt_netPnl lt_fees lt_entryPrice lt_quantity.

(** Two losing trades, and two winning ones. *)
Definition allLosers : list LegacyTrade := [closedWith (-5); closedWith (-10)].
Definition allWinners : list LegacyTrade := [closedWith 5; closedWith 10].

End Examples.

(** ** More vocabulary *)
Module Aggregates.
Import Types.
Local Open Scope Q_scope.

(** The sum of a quantity over a list. *)
Fixpoint sumOf {A} (f : A -> Q) (l : list A) : Q :=
  match l with
  | [] => 0
  | x :: l' => f x + sumOf f l'
  end.

(** Losing and break-even trades. *)
Definition isLoss (t : Trade) : bool := JS.ltb (netPL t) 0.
Definition isBreakEven (t : Trade) : bool := Qeq_bool (netPL t) 0.

(** What a trade loses: [-netPL] for a losing trade, [0] otherwise. *)
Definition lossOf (t : Trade) : Q := Qmax 0 (- netPL t).

(** What [calculateSymbolPerformance] reports for the trades of one symbol. *)
Definition symbolEntry (sym : string) (trades : list Trade) : SymbolPerformance :=
  let own := List.filter (fun t => bool_decide (symbol t = sym)) trades in
  let s := HistoricalUtils.calculateTradeStats own in
  {| sp_symbol := sym;
     sp_trades := HistoricalUtils.totalTrades s;
     sp_pnl := HistoricalUtils.totalPnL s;
     sp_winRate := HistoricalUtils.winRate s |}.

(** The aggregate the loop of [calculateSymbolPerformance] holds for the
    trades of a symbol. *)
Definition aggregateOf (own : list Trade) : HistoricalUtils.SymbolAggregate :=
  {| HistoricalUtils.sa_trades := length own;
     HistoricalUtils.sa_pnl := fold_left (fun sum trade => sum + netPL trade) own 0;
     HistoricalUtils.sa_winningTrades :=
       length (List.filter (fun t => JS.ltb 0 (netPL t)) own) |}.

(** The step of that loop. *)
Definition symbolStep (symbolMap : list (string * HistoricalUtils.SymbolAggregate))
    (trade : Trade) : list (string * HistoricalUtils.SymbolAggregate) :=
  let existing :=
    default {| HistoricalUtils.sa_trades := 0; HistoricalUtils.sa_pnl := 0;
               HistoricalUtils.sa_winningTrades := 0 |}
            (HistoricalUtils.Map_get symbolMap (symbol trade)) in
  HistoricalUtils.Map_set symbolMap (symbol trade)
    {| HistoricalUtils.sa_trades := HistoricalUtils.sa_trades existing + 1;
       HistoricalUtils.sa_pnl := HistoricalUtils.sa_pnl existing + netPL trade;
       HistoricalUtils.sa_winningTrades :=
         HistoricalUtils.sa_winningTrades existing
         + (if JS.ltb 0 (netPL trade) then 1 else 0) |}.

(** The entry made of a symbol and its aggregate. *)
Definition entryOfAggregate (p : string * HistoricalUtils.SymbolAggregate)
  : SymbolPerformance :=
  {| sp_symbol := p.1;
     sp_trades := HistoricalUtils.sa_trades p.2;
     sp_pnl := HistoricalUtils.sa_pnl p.2;
     sp_winRate :=
       if (0 <? HistoricalUtils.sa_trades p.2)%nat
       then (inject_Z (Z.of_nat (HistoricalUtils.sa_winningTrades p.2))
             / inject_Z (Z.of_nat (HistoricalUtils.sa_trades p.2))) * 100
       else 0 |}.

(** The net result of the trades of one day. *)
Definition dayTotal (day : Z) (trades : list Trade) : Q :=
  sumOf netPL (List.filter (fun t => bool_decide (date t = day)) trades).

(** The loop of [calculateTradingConsistency] that adds up the days. *)
Definition dayPnLOf (trades : list Trade) : gmap Z Q :=
  fold_left (fun (dayPnL : gmap Z Q) trade =>
      let date := date trade in
      let sofar := match dayPnL !! date with
                   | Some v => if JS.truthy v then v else 0
                   | None => 0
                   end in
      <[date := sofar + netPL trade]> dayPnL)
    trades ∅.

(** A trade falls in year [y], read as the grouping functions read its
    date: with the local-time getters of the host. *)
Definition inYear (tz y : Z) (t : Trade) : bool :=
  bool_decide (JS.getFullYear tz (JS.Date_parse (date t)) = y).

(** The first and the last day of month [m], from 1 to 12, of year [y]:
    the last day is the day before the first day of the next month. *)
Definition monthFirstDay (y m : Z) : Z := JS.days_from_civil y m 1.
Definition monthLastDay (y m : Z) : Z :=
  (JS.days_from_civil (y + m / 12) (m mod 12 + 1) 1 - 1)%Z.

(** The trades dated from one day to another, both included. *)
Definition datedBetween (first last : Z) (trades : list Trade) : list Trade :=
  List.filter (fun t => bool_decide (first <= date t <= last)%Z) trades.

(** The trades of one day; a day on which no trade loses and one at least
    gains; a day with a gaining trade. *)
Definition tradesOn (day : Z) (trades : list Trade) : list Trade :=
  List.filter (fun t => bool_decide (date t = day)) trades.
Definition gainOnly (trades : list Trade) (day : Z) : bool :=
  forallb (fun t => JS.leb 0 (netPL t)) (tradesOn day trades)
  && existsb (fun t => JS.ltb 0 (netPL t)) (tradesOn day trades).
Definition hasGain (trades : list Trade) (day : Z) : bool :=
  existsb (fun t => JS.ltb 0 (netPL t)) (tradesOn day trades).

(** The range of the dates that lie in both of two ranges. *)
Definition intersectRanges (r1 r2 : DateRange) : DateRange :=
  {| startDate := Z.max (startDate r1) (startDate r2);
     endDate := Z.min (endDate r1) (endDate r2) |}.

End Aggregates.

(* ===================================================================== *)
(** * Part II: the properties                                            *)
(* ===================================================================== *)

(** Closed comparisons and equations between numbers, by evaluation. *)
Ltac by_evaluation := vm_compute; first [reflexivity | easy].

(** ** Facts about the runtime *)
Section RuntimeFacts.
Local Open Scope Q_scope.

Lemma ltb_lt (x y : Q) : JS.ltb x y = true <-> x < y.
Proof.
  unfold JS.ltb. rewrite negb_true_iff, <- not_true_iff_false, Qle_bool_iff.
  split; [apply Qnot_le_lt | apply Qlt_not_le].
Qed.

Lemma ltb_ge (x y : Q) : JS.ltb x y = false <-> y <= x.
Proof.
  unfold JS.ltb. rewrite negb_false_iff. apply Qle_bool_iff.
Qed.

Lemma leb_le (x y : Q) : JS.leb x y = true <-> x <= y.
Proof. apply Qle_bool_iff. Qed.

Lemma truthy_neq (x : Q) : JS.truthy x = true <-> ~ x == 0.
Proof.
  unfold JS.truthy. rewrite negb_true_iff, <- not_true_iff_false, Qeq_bool_iff.
  reflexivity.
Qed.

Lemma inject_nat_nonneg (n : nat) : 0 <= inject_Z (Z.of_nat n).
Proof. change 0 with (inject_Z 0). rewrite <- Zle_Qle. lia. Qed.

Lemma inject_nat_pos (n : nat) : (0 < n)%nat -> 0 < inject_Z (Z.of_nat n).
Proof. intros H. change 0 with (inject_Z 0). rewrite <- Zlt_Qlt. lia. Qed.

Lemma inject_nat_le (m n : nat) :
  (m <= n)%nat -> inject_Z (Z.of_nat m) <= inject_Z (Z.of_nat n).
Proof. intros H. rewrite <- Zle_Qle. lia. Qed.

End RuntimeFacts.

Lemma StronglySorted_weaken {A} (R1 R2 : A -> A -> Prop) (l : list A) :
  (forall a b, R1 a b -> R2 a b) -> StronglySorted R1 l -> StronglySorted R2 l.
Proof.
  intros HR. induction 1 as [|x l Hs IH Hx]; constructor; [done|].
  eapply Forall_impl; [exact Hx | apply HR].
Qed.

(** *** The sort, for a comparator that compares keys *)
Section SortFacts.
Context {A : Type} (cmp : A -> A -> Q) (key : A -> Z).
Hypothesis cmp_key : forall a b, JS.leb (cmp a b) 0 = (key a <=? key b)%Z.

Let R (a b : A) : Prop := (key a <= key b)%Z.

Lemma sort_insert_perm (x : A) (l : list A) : JS.sort_insert cmp x l ≡ₚ x :: l.
Proof.
  induction l as [|y l IH]; simpl; [done|].
  destruct (JS.leb (cmp x y) 0); [done|].
  rewrite IH. apply Permutation_swap.
Qed.

Lemma Array_sort_perm (l : list A) : JS.Array_sort cmp l ≡ₚ l.
Proof.
  induction l as [|x l IH]; simpl; [done|].
  by rewrite sort_insert_perm, IH.
Qed.

Lemma sort_insert_sorted (x : A) (l : list A) :
  StronglySorted R l -> StronglySorted R (JS.sort_insert cmp x l).
Proof.
  induction l as [|y l IH]; intros Hs; simpl.
  - repeat constructor.
  - apply StronglySorted_inv in Hs as [Hl Hy].
    rewrite cmp_key. destruct (Z.leb_spec (key x) (key y)) as [Hle|Hgt].
    + constructor; [by constructor|].
      constructor; [exact Hle|].
      eapply Forall_impl; [exact Hy|]. intros z Hz. unfold R in *. lia.
    + constructor; [by apply IH|].
      rewrite (sort_insert_perm x l). constructor; [unfold R; lia | exact Hy].
Qed.

Lemma Array_sort_sorted (l : list A) : StronglySorted R (JS.Array_sort cmp l).
Proof.
  induction l as [|x l IH]; simpl; [constructor|].
  by apply sort_insert_sorted.
Qed.

(** Stability: the elements of one key keep their order. *)
Lemma sort_insert_stable (k : Z) (x : A) (l : list A) :
  StronglySorted R l ->
  List.filter (fun a => (key a =? k)%Z) (JS.sort_insert cmp x l)
  = List.filter (fun a => (key a =? k)%Z) (x :: l).
Proof.
  induction l as [|y l IH]; intros Hs; [done|].
  apply StronglySorted_inv in Hs as [Hl Hy].
  cbn [JS.sort_insert]. rewrite cmp_key.
  destruct (Z.leb_spec (key x) (key y)) as [Hle|Hgt]; [done|].
  cbn [List.filter] in *. rewrite (IH Hl).
  destruct (Z.eqb_spec (key y) k) as [Hyk|Hyk]; [|done].
  destruct (Z.eqb_spec (key x) k) as [Hxk|Hxk]; [lia|done].
Qed.

Lemma Array_sort_stable (k : Z) (l : list A) :
  List.filter (fun a => (key a =? k)%Z) (JS.Array_sort cmp l)
  = List.filter (fun a => (key a =? k)%Z) l.
Proof.
  induction l as [|x l IH]; [done|].
  cbn [JS.Array_sort]. rewrite sort_insert_stable by apply Array_sort_sorted.
  cbn [List.filter]. by rewrite IH.
Qed.

(** A list that is already in order is left as it is. *)
Lemma Array_sort_id (l : list A) : StronglySorted R l -> JS.Array_sort cmp l = l.
Proof.
  induction l as [|x l IH]; intros Hs; [done|].
  apply StronglySorted_inv in Hs as [Hl Hx].
  cbn [JS.Array_sort]. rewrite (IH Hl).
  destruct l as [|y l]; [done|].
  cbn [JS.sort_insert]. rewrite cmp_key.
  apply Forall_inv in Hx. unfold R in Hx.
  by destruct (Z.leb_spec (key x) (key y)); [|lia].
Qed.
End SortFacts.

(** ** [Math.max] and [Math.min] *)
Section MinMaxFacts.
Import Spec.
Local Open Scope Q_scope.

Lemma Qmax_cases (x y : Q) : (Qmax x y = x ∧ y <= x) ∨ (Qmax x y = y ∧ x <= y).
Proof.
  unfold Qmax, GenericMinMax.gmax. destruct (x ?= y) eqn:E.
  - left. split; [done|]. apply Qeq_alt in E. rewrite E. apply Qle_refl.
  - right. split; [done|]. apply Qlt_alt in E. by apply Qlt_le_weak.
  - left. split; [done|]. apply Qgt_alt in E. by apply Qlt_le_weak.
Qed.

Lemma Qmin_cases (x y : Q) : (Qmin x y = x ∧ x <= y) ∨ (Qmin x y = y ∧ y <= x).
Proof.
  unfold Qmin, GenericMinMax.gmin. destruct (x ?= y) eqn:E.
  - left. split; [done|]. apply Qeq_alt in E. rewrite E. apply Qle_refl.
  - left. split; [done|]. apply Qlt_alt in E. by apply Qlt_le_weak.
  - right. split; [done|]. apply Qgt_alt in E. by apply Qlt_le_weak.
Qed.

Lemma Math_max_isMax (x : Q) (xs : list Q) : isMaxOf (JS.Math_max x xs) (x :: xs).
Proof.
  unfold JS.Math_max. revert x. induction xs as [|y xs IH]; intros x; simpl.
  - split; [apply list_elem_of_here | repeat constructor; apply Qle_refl].
  - destruct (IH (Qmax x y)) as [Hin Hall].
    apply Forall_cons in Hall as [Hm Hall].
    destruct (Qmax_cases x y) as [[E Hle]|[E Hle]]; rewrite E in *.
    + split.
      * apply elem_of_cons in Hin as [->|Hin];
          [apply list_elem_of_here | by do 2 apply list_elem_of_further].
      * repeat constructor; [done | lra | done].
    + split.
      * by apply list_elem_of_further.
      * repeat constructor; [lra | done | done].
Qed.

Lemma Math_min_isMin (x : Q) (xs : list Q) : isMinOf (JS.Math_min x xs) (x :: xs).
Proof.
  unfold JS.Math_min. revert x. induction xs as [|y xs IH]; intros x; simpl.
  - split; [apply list_elem_of_here | repeat constructor; apply Qle_refl].
  - destruct (IH (Qmin x y)) as [Hin Hall].
    apply Forall_cons in Hall as [Hm Hall].
    destruct (Qmin_cases x y) as [[E Hle]|[E Hle]]; rewrite E in *.
    + split.
      * apply elem_of_cons in Hin as [->|Hin];
          [apply list_elem_of_here | by do 2 apply list_elem_of_further].
      * repeat constructor; [done | lra | done].
    + split.
      * by apply list_elem_of_further.
      * repeat constructor; [lra | done | done].
Qed.

End MinMaxFacts.

(** ** The statistics: [calculateTradeStats] and [getPortfolioSummary] *)
Section StatsFacts.
Import Types Spec.
Local Open Scope Q_scope.

(** The rate [wins / total * 100] of [wins <= total] trades. *)
Lemma rate_bounds (wins total : nat) :
  (wins <= total)%nat -> (0 < total)%nat ->
  let rate := (inject_Z (Z.of_nat wins) / inject_Z (Z.of_nat total)) * 100 in
  0 <= rate <= 100 ∧ (rate == 0 <-> wins = 0%nat).
Proof.
  intros Hle Hpos rate.
  pose proof (inject_nat_pos total Hpos) as HN.
  pose proof (inject_nat_nonneg wins) as HW.
  pose proof (inject_nat_le wins total Hle) as HWN.
  subst rate.
  assert (HW0 : inject_Z (Z.of_nat wins) == 0 <-> wins = 0%nat).
  { change 0 with (inject_Z 0). rewrite inject_Z_injective. lia. }
  revert HN HW HWN HW0.
  generalize (inject_Z (Z.of_nat wins)) (inject_Z (Z.of_nat total)).
  intros W N HN HW HWN HW0.
  assert (Hr0 : 0 <= W / N) by (apply Qle_shift_div_l; [done | lra]).
  assert (Hr1 : W / N <= 1) by (apply Qle_shift_div_r; [done | lra]).
  assert (HWr : W == (W / N) * N) by (field; lra).
  split; [lra|]. rewrite <- HW0. split.
  - intros H0. assert (Hz : W / N == 0) by lra.
    rewrite Hz in HWr. lra.
  - intros Hz. rewrite Hz. unfold Qdiv. rewrite Qmult_0_l. reflexivity.
Qed.

Lemma wins_le_total (trades : list Trade) :
  (length (List.filter isWin trades) <= length trades)%nat.
Proof. apply List.filter_length_le. Qed.

End StatsFacts.

Section StatsTheorems.
Import Types Spec Examples.
Local Open Scope Q_scope.

(** C6, as the code has it.  For every trade set, the win rate of
    [calculateTradeStats] is [winningTrades / totalTrades * 100], with
    [winningTrades] the number of trades of strictly positive [netPL], and [0]
    for the empty set; it lies in [[0, 100]]; and it is [0] exactly when no
    trade of the set is a win (the empty set being one such case).
    [getPortfolioSummary] computes the same three numbers on the trades of
    the user. *)
Theorem winRate_formula_bounds_zero :
  (forall trades : list Trade,
     let s := HistoricalUtils.calculateTradeStats trades in
     HistoricalUtils.totalTrades s = length trades ∧
     HistoricalUtils.winningTrades s = length (List.filter isWin trades) ∧
     HistoricalUtils.winRate s ==
       (if decide (length trades = 0%nat) then 0
        else (inject_Z (Z.of_nat (HistoricalUtils.winningTrades s))
              / inject_Z (Z.of_nat (HistoricalUtils.totalTrades s))) * 100) ∧
     0 <= HistoricalUtils.winRate s <= 100 ∧
     (HistoricalUtils.winRate s == 0 <-> HistoricalUtils.winningTrades s = 0%nat)) ∧
  (forall (collection : list Trade) (user : string),
     let p := TradingStorageService.getPortfolioSummary collection user in
     let s := HistoricalUtils.calculateTradeStats
                (TradingStorageService.getUserTrades collection user) in
     TradingStorageService.totalTrades p = HistoricalUtils.totalTrades s ∧
     TradingStorageService.winningTrades p = HistoricalUtils.winningTrades s ∧
     TradingStorageService.winRate p = HistoricalUtils.winRate s).
Proof.
  split; [|by intros].
  intros trades s. split; [done|]. split; [done|].
  subst s. cbn [HistoricalUtils.calculateTradeStats HistoricalUtils.winRate
                HistoricalUtils.winningTrades HistoricalUtils.totalTrades].
  fold isWin. destruct trades as [|t trades].
  - cbn. split; [reflexivity|]. split; [lra|]. done.
  - assert (Hpos : (0 < length (t :: trades))%nat) by (cbn; lia).
    destruct (decide (length (t :: trades) = 0%nat)) as [E|_]; [cbn in E; lia|].
    replace (0 <? length (t :: trades))%nat with true
      by (symmetry; apply Nat.ltb_lt; exact Hpos).
    split; [reflexivity|].
    exact (rate_bounds _ _ (wins_le_total (t :: trades)) Hpos).
Qed.

(** C6, the claim as it stands fails: one losing trade makes a set that is
    not empty and whose win rate is [0]. *)
Lemma winRate_zero_on_nonempty_set :
  let s := HistoricalUtils.calculateTradeStats oneLoss in
  HistoricalUtils.totalTrades s = 1%nat ∧
  HistoricalUtils.winRate s == 0 ∧
  ~ (HistoricalUtils.winRate s == 0 <-> HistoricalUtils.totalTrades s = 0%nat).
Proof.
  cbv zeta. split; [reflexivity|]. split; [reflexivity|].
  intros [H _]. specialize (H eq_refl). discriminate H.
Qed.

(** Best and worst trade of [calculateTradeStats]: for a set that is not
    empty, the greatest and the least [netPL] of the set; [0] for the empty
    set.  [getPortfolioSummary] computes the same two numbers. *)
Lemma tradeStats_best_worst :
  (forall (t : Trade) (trades : list Trade),
     let s := HistoricalUtils.calculateTradeStats (t :: trades) in
     isMaxOf (HistoricalUtils.bestTrade s) (List.map netPL (t :: trades)) ∧
     isMinOf (HistoricalUtils.worstTrade s) (List.map netPL (t :: trades))) ∧
  (let s := HistoricalUtils.calculateTradeStats [] in
     HistoricalUtils.bestTrade s = 0 ∧ HistoricalUtils.worstTrade s = 0) ∧
  (forall (collection : list Trade) (user : string),
     let p := TradingStorageService.getPortfolioSummary collection user in
     let s := HistoricalUtils.calculateTradeStats
                (TradingStorageService.getUserTrades collection user) in
     TradingStorageService.bestTrade p = HistoricalUtils.bestTrade s ∧
     TradingStorageService.worstTrade p = HistoricalUtils.worstTrade s).
Proof.
  split; [|split; [done | by intros]].
  intros t trades s. split.
  - apply Math_max_isMax.
  - apply Math_min_isMin.
Qed.

(** [calculatePortfolioMetrics] passes [0] to [Math.max] and [Math.min]
    along with the results of the trades: its best trade is never negative
    and its worst trade never positive. *)
Lemma portfolioMetrics_best_worst_sign
    {T : Type} (status : T -> TradingUtils.TradeStatus) (netPnl : T -> option Q)
    (fees entryPrice quantity : T -> Q) (trades : list T) :
  let m := TradingUtils.calculatePortfolioMetrics status netPnl fees entryPrice
             quantity trades in
  0 <= TradingUtils.bestTrade m ∧ TradingUtils.worstTrade m <= 0.
Proof.
  cbv zeta. cbn [TradingUtils.calculatePortfolioMetrics TradingUtils.bestTrade
                 TradingUtils.worstTrade].
  destruct (List.map (TradingUtils.netPnlOr0 netPnl) trades) as [|x xs].
  - cbn. lra.
  - split.
    + destruct (Math_max_isMax x (xs ++ [0])) as [_ Hall].
      rewrite Forall_forall in Hall. apply Hall.
      apply list_elem_of_further, elem_of_app. right. apply list_elem_of_here.
    + destruct (Math_min_isMin x (xs ++ [0])) as [_ Hall].
      rewrite Forall_forall in Hall. apply Hall.
      apply list_elem_of_further, elem_of_app. right. apply list_elem_of_here.
Qed.

(** C7, where the code departs from the claim.  On two losing trades
    ([-5] and [-10]) [calculatePortfolioMetrics] returns the best trade [0],
    which is no trade of the set, where the greatest [netPnl] is [-5]; on two
    winning trades ([5] and [10]) it returns the worst trade [0], where the
    least is [5]. *)
Theorem portfolioMetrics_best_worst_clamped :
  TradingUtils.bestTrade (legacyMetrics allLosers) = 0 ∧
  isMaxOf (-5) (List.map (TradingUtils.netPnlOr0 lt_netPnl) allLosers) ∧
  TradingUtils.worstTrade (legacyMetrics allWinners) = 0 ∧
  isMinOf 5 (List.map (TradingUtils.netPnlOr0 lt_netPnl) allWinners).
Proof.
  split; [reflexivity|]. split; [|split; [reflexivity|]].
  - split; [apply list_elem_of_here|].
    repeat (apply Forall_cons; split); [by_evaluation.. | apply Forall_nil_2].
  - split; [apply list_elem_of_here|].
    repeat (apply Forall_cons; split); [by_evaluation.. | apply Forall_nil_2].
Qed.

End StatsTheorems.

(** ** The drawdown: [calculateMaxDrawdown] *)
Section DrawdownFacts.
Import Types Spec Examples HistoricalUtils.
Local Open Scope Q_scope.

Lemma byDateAscending_key (a b : Trade) :
  JS.leb (byDateAscending a b) 0 = (date a <=? date b)%Z.
Proof.
  unfold byDateAscending, JS.leb, JS.getTime, JS.Date_parse, JS.msPerDay, Qle_bool.
  cbn [Qnum Qden inject_Z]. apply eq_true_iff_eq.
  rewrite !Z.leb_le. lia.
Qed.

(** The list the loop runs over is the input in chronological order. *)
Lemma sortedTrades_chronological (trades : list Trade) :
  let sortedTrades := JS.Array_sort byDateAscending trades in
  sortedTrades ≡ₚ trades ∧ StronglySorted oldestFirst sortedTrades.
Proof.
  split.
  - apply Array_sort_perm.
  - apply (Array_sort_sorted byDateAscending date byDateAscending_key).
Qed.

(** The loop never lets the recorded drawdown fall below zero. *)
Lemma drawdown_step_nonneg (st : DrawdownState) (trade : Trade) :
  0 <= maxDrawdown st -> 0 <= maxDrawdown (drawdown_step st trade).
Proof.
  intros H. unfold drawdown_step. cbn [maxDrawdown].
  match goal with |- context [JS.ltb ?a ?b] =>
    destruct (JS.ltb a b) eqn:E; [apply ltb_lt in E; lra | exact H] end.
Qed.

Lemma drawdown_loop_nonneg (trades : list Trade) (st : DrawdownState) :
  0 <= maxDrawdown st -> 0 <= maxDrawdown (fold_left drawdown_step trades st).
Proof.
  revert st. induction trades as [|t trades IH]; intros st H; [exact H|].
  cbn [fold_left]. apply IH. by apply drawdown_step_nonneg.
Qed.

(** The first step of the loop: the peak starts at [0], so a first trade
    that loses is a drawdown of the size of its loss. *)
Lemma drawdown_first_step (trade : Trade) :
  maxDrawdown (drawdown_step {| peak := 0; runningTotal := 0; maxDrawdown := 0 |} trade)
  == Qmax 0 (- netPL trade).
Proof.
  unfold drawdown_step. cbn [peak runningTotal maxDrawdown].
  destruct (JS.ltb 0 (0 + netPL trade)) eqn:E1.
  - apply ltb_lt in E1.
    destruct (JS.ltb 0 (0 + netPL trade - (0 + netPL trade))) eqn:E2.
    + apply ltb_lt in E2. lra.
    + rewrite Q.max_l by lra. reflexivity.
  - apply ltb_ge in E1.
    destruct (JS.ltb 0 (0 - (0 + netPL trade))) eqn:E2.
    + apply ltb_lt in E2. rewrite Q.max_r by lra. lra.
    + apply ltb_ge in E2. rewrite Q.max_l by lra. reflexivity.
Qed.

(** C5, as the code has it.  The maximum drawdown is never negative; it is
    [0] for the empty sequence; for a sequence of one trade it is the loss of
    that trade, [0] when the trade does not lose: the peak the loop starts
    from is [0], not the first running total. *)
Theorem maxDrawdown_nonneg_empty_single :
  (forall trades : list Trade, 0 <= calculateMaxDrawdown trades) ∧
  calculateMaxDrawdown [] = 0 ∧
  (forall trade : Trade, calculateMaxDrawdown [trade] == Qmax 0 (- netPL trade)).
Proof.
  split; [|split; [reflexivity|]].
  - intros [|t trades]; [cbn; lra|].
    unfold calculateMaxDrawdown. apply drawdown_loop_nonneg. cbn. lra.
  - intros trade. apply drawdown_first_step.
Qed.

(** C5, the claim as it stands fails: the sequence of one trade that loses
    50 has a maximum drawdown of 50, not 0. *)
Lemma maxDrawdown_single_loss :
  calculateMaxDrawdown oneLoss50 == 50 ∧ ~ calculateMaxDrawdown oneLoss50 == 0.
Proof. split; by_evaluation. Qed.

(** Two trades of one list that carry the same date are the same trade,
    when no date occurs twice. *)
Lemma distinct_dates_inj (l : list Trade) (x y : Trade) :
  NoDup (List.map date l) -> x ∈ l -> y ∈ l -> date x = date y -> x = y.
Proof.
  induction l as [|z l IH]; intros Hnd Hx Hy E; [by apply elem_of_nil in Hx|].
  cbn in Hnd. apply NoDup_cons in Hnd as [Hz Hnd].
  apply elem_of_cons in Hx as [->|Hx]; apply elem_of_cons in Hy as [->|Hy].
  - done.
  - exfalso. apply Hz. rewrite E. apply (list_elem_of_fmap_2 date), Hy.
  - exfalso. apply Hz. rewrite <- E. apply (list_elem_of_fmap_2 date), Hx.
  - by apply IH.
Qed.

(** The chronological order of trades of pairwise distinct dates does not
    depend on the order they are given in. *)
Lemma sortedTrades_unique (l1 l2 : list Trade) :
  l1 ≡ₚ l2 -> NoDup (List.map date l1) ->
  JS.Array_sort byDateAscending l1 = JS.Array_sort byDateAscending l2.
Proof.
  intros Hp Hnd.
  destruct (sortedTrades_chronological l1) as [P1 S1].
  destruct (sortedTrades_chronological l2) as [P2 S2].
  apply (StronglySorted_unique_strong oldestFirst); [|done|done|].
  - intros x y Hx Hy Hxy Hyx. unfold oldestFirst in *.
    apply (distinct_dates_inj l1); [done| | |lia].
    + by rewrite <- P1.
    + by rewrite Hp, <- P2.
  - by rewrite P1, P2.
Qed.

(** C10.  Two lists of trades that are permutations of each other and whose
    dates are pairwise distinct have the same maximum drawdown: the function
    puts its input in chronological order itself before the pass. *)
Theorem maxDrawdown_permutation (l1 l2 : list Trade) :
  l1 ≡ₚ l2 -> NoDup (List.map date l1) ->
  calculateMaxDrawdown l1 = calculateMaxDrawdown l2.
Proof.
  intros Hp Hnd. unfold calculateMaxDrawdown.
  rewrite (sortedTrades_unique l1 l2 Hp Hnd).
  destruct l1 as [|x1 l1], l2 as [|x2 l2]; try done.
  by apply Permutation_nil_cons in Hp.
Qed.

Lemma maxDrawdown_permutation_witness :
  threeDays ≡ₚ threeDaysShuffled ∧
  NoDup (List.map date threeDays) ∧
  calculateMaxDrawdown threeDays = calculateMaxDrawdown threeDaysShuffled.
Proof.
  assert (Hp : threeDays ≡ₚ threeDaysShuffled).
  { unfold threeDays, threeDaysShuffled.
    etrans; [|apply Permutation_swap]. apply Permutation_skip, Permutation_swap. }
  assert (Hnd : NoDup (List.map date threeDays)).
  { cbn. repeat (apply NoDup_cons_2; [rewrite ?elem_of_cons, elem_of_nil; lia|]).
    apply NoDup_nil_2. }
  split; [exact Hp|]. split; [exact Hnd|].
  exact (maxDrawdown_permutation threeDays threeDaysShuffled Hp Hnd).
Defined.

(** Between trades of one date the order of the input does matter. *)
Lemma maxDrawdown_same_date_order :
  sameDay ≡ₚ sameDayShuffled ∧
  calculateMaxDrawdown sameDay == 10 ∧
  calculateMaxDrawdown sameDayShuffled == 20.
Proof.
  split; [apply Permutation_swap|]. split; by_evaluation.
Qed.

End DrawdownFacts.

(** ** The win streak: [calculateDailyStats] *)
Section StreakFacts.
Import Types Spec Examples SimpleTradingJournal.
Local Open Scope Q_scope.

Lemma byDateDescending_key (a b : Trade) :
  JS.leb (byDateDescending a b) 0 = (- date a <=? - date b)%Z.
Proof.
  unfold byDateDescending, JS.leb, JS.getTime, JS.Date_parse, JS.msPerDay, Qle_bool.
  cbn [Qnum Qden inject_Z]. apply eq_true_iff_eq.
  rewrite !Z.leb_le. lia.
Qed.

(** The loop adds to the counter the length of the run of wins in front. *)
Lemma streakLoop_leadingWins (trades : list Trade) (n : nat) :
  streakLoop trades n = (n + length (leadingWins trades))%nat.
Proof.
  revert n. induction trades as [|t trades IH]; intros n; cbn.
  - lia.
  - unfold isWin. destruct (JS.ltb 0 (netPL t)); cbn; [rewrite IH|]; lia.
Qed.

(** The run of wins in front is a prefix of wins, and what follows it, if
    anything, starts with a trade that is not a win. *)
Lemma leadingWins_split (trades : list Trade) :
  exists rest,
    trades = leadingWins trades ++ rest ∧
    Forall (fun t => 0 < netPL t) (leadingWins trades) ∧
    match rest with
    | [] => True
    | t :: _ => netPL t <= 0
    end.
Proof.
  induction trades as [|t trades (rest & E & Hw & Hr)]; cbn.
  - by exists [].
  - unfold isWin. destruct (JS.ltb 0 (netPL t)) eqn:Ht.
    + exists rest. split; [cbn; congruence|]. split; [|done].
      constructor; [by apply ltb_lt | done].
    + exists (t :: trades). split; [done|]. split; [constructor|].
      by apply ltb_ge.
Qed.

(** C8.  The list the loop of [calculateDailyStats] runs over is the trade
    set with its most recent date first, the trades of one date in the order
    they came in; the streak is the length of the run of trades with
    [netPL > 0] at the front of that list, a run that ends at the first trade
    with [netPL <= 0].  The sequence +10, +5, -3, +20 (most recent first) has
    a streak of 2, and a break-even trade ends a streak. *)
Theorem winStreak_counts_leading_wins :
  (forall (now : Z) (allTrades : list Trade) (prev : DailyTarget),
     let sortedTrades := JS.Array_sort byDateDescending allTrades in
     sortedTrades ≡ₚ allTrades ∧
     StronglySorted newestFirst sortedTrades ∧
     (forall day : Z,
        List.filter (fun t => (date t =? day)%Z) sortedTrades
        = List.filter (fun t => (date t =? day)%Z) allTrades) ∧
     exists wins rest : list Trade,
       sortedTrades = wins ++ rest ∧
       Forall (fun t => 0 < netPL t) wins ∧
       match rest with
       | [] => True
       | t :: _ => netPL t <= 0
       end ∧
       streak (calculateDailyStats now allTrades prev) = length wins) ∧
  (forall now : Z,
     List.map netPL (JS.Array_sort byDateDescending recentFirst) = [10; 5; -3; 20] ∧
     streak (calculateDailyStats now recentFirst freshDailyTarget) = 2%nat ∧
     streak (calculateDailyStats now breakEvenSecond freshDailyTarget) = 1%nat).
Proof.
  split; [|by intros].
  intros now allTrades prev sortedTrades. split; [apply Array_sort_perm|]. split.
  { pose proof (Array_sort_sorted byDateDescending (fun t => (- date t)%Z)
                  byDateDescending_key allTrades) as Hs.
    eapply StronglySorted_weaken; [|exact Hs].
    intros a b. unfold newestFirst. cbn. lia. }
  split.
  { intros day.
    pose proof (Array_sort_stable byDateDescending (fun t => (- date t)%Z)
                  byDateDescending_key (- day) allTrades) as Hst.
    fold sortedTrades in Hst.
    rewrite (List.filter_ext _ (fun a => (- date a =? - day)%Z));
      [|intros a; apply eq_true_iff_eq; rewrite !Z.eqb_eq; lia].
    rewrite Hst. apply List.filter_ext.
    intros a. apply eq_true_iff_eq. rewrite !Z.eqb_eq. lia. }
  destruct (leadingWins_split sortedTrades) as (rest & E & Hw & Hr).
  exists (leadingWins sortedTrades), rest. split; [exact E|]. split; [exact Hw|].
  split; [exact Hr|].
  cbn [calculateDailyStats streak]. fold sortedTrades.
  by rewrite streakLoop_leadingWins.
Qed.

End StreakFacts.

(** ** The calendar and the month keys *)
Section CalendarFacts.
Import HistoricalUtils.
Local Open Scope Z_scope.

(** The month of a day lies in 1..12. *)
Lemma month_of_range (z : Z) : 1 <= JS.month_of z <= 12.
Proof.
  unfold JS.month_of, JS.civil_from_days. cbn [fst snd].
  set (doe := z + 719468 - (z + 719468) / 146097 * 146097).
  assert (Hdoe : 0 <= doe < 146097) by (subst doe; Z.div_mod_to_equations; lia).
  clearbody doe.
  set (yoe := (doe - doe / 1460 + doe / 36524 - doe / 146096) / 365).
  set (doy := doe - (365 * yoe + yoe / 4 - yoe / 100)).
  assert (Hdoy : 0 <= doy <= 365) by (subst doy yoe; Z.div_mod_to_equations; lia).
  clearbody doy.
  set (mp := (5 * doy + 2) / 153).
  assert (Hmp : 0 <= mp <= 11) by (subst mp; Z.div_mod_to_equations; lia).
  clearbody mp.
  destruct (Z.ltb_spec mp 10); lia.
Qed.

(** Days of the calendar the samples below use. *)
Lemma calendar_samples :
  JS.civil_from_days 0 = (1970, 1, 1) ∧
  JS.civil_from_days 19723 = (2024, 1, 1) ∧
  JS.civil_from_days 19782 = (2024, 2, 29) ∧
  JS.civil_from_days 19797 = (2024, 3, 15) ∧
  JS.civil_from_days 20088 = (2024, 12, 31) ∧
  JS.days_from_civil 2024 1 1 = 19723 ∧
  JS.days_from_civil 2024 12 31 = 20088.
Proof. repeat split; reflexivity. Qed.

(** Read in a zone at or east of UTC (and less than a day ahead), midnight
    UTC of a day is still that day; read in a zone west of UTC it is the day
    before. *)
Lemma localDay_east (tz day : Z) :
  0 <= tz < 1440 -> JS.localDay tz (JS.Date_parse day) = day.
Proof.
  intros H. unfold JS.localDay, JS.Date_parse, JS.msPerDay, JS.msPerMinute.
  Z.div_mod_to_equations. lia.
Qed.

Lemma localDay_west (tz day : Z) :
  -1440 <= tz < 0 -> JS.localDay tz (JS.Date_parse day) = day - 1.
Proof.
  intros H. unfold JS.localDay, JS.Date_parse, JS.msPerDay, JS.msPerMinute.
  Z.div_mod_to_equations. lia.
Qed.

Lemma string_length_app (s t : string) :
  String.length (s +:+ t) = (String.length s + String.length t)%nat.
Proof. induction s as [|c s IH]; simpl; [done | by f_equal]. Qed.

(** Two texts that end in suffixes of one length are equal only if the
    suffixes are, and what precedes them. *)
Lemma string_app_inj_suffix (s1 s2 t1 t2 : string) :
  String.length t1 = String.length t2 ->
  s1 +:+ t1 = s2 +:+ t2 -> s1 = s2 ∧ t1 = t2.
Proof.
  intros Hlen. revert s2.
  induction s1 as [|c1 s1 IH]; intros [|c2 s2] E.
  - done.
  - apply (f_equal String.length) in E.
    rewrite !string_length_app in E. cbn in E. lia.
  - apply (f_equal String.length) in E.
    rewrite !string_length_app in E. cbn in E. lia.
  - change (String c1 (s1 +:+ t1) = String c2 (s2 +:+ t2)) in E.
    injection E as -> E. destruct (IH _ E) as [-> ->]. done.
Qed.

Ltac month_cases m H :=
  let C := fresh "C" in
  assert (C : m = 1 ∨ m = 2 ∨ m = 3 ∨ m = 4 ∨ m = 5 ∨ m = 6 ∨ m = 7 ∨ m = 8
              ∨ m = 9 ∨ m = 10 ∨ m = 11 ∨ m = 12) by lia;
  clear H;
  repeat (destruct C as [C|C]; [subst m|]); [..|subst m].

Lemma padded_month_length (m : Z) :
  1 <= m <= 12 -> String.length (JS.padStart2 (pretty m)) = 2%nat.
Proof. intros H. month_cases m H; reflexivity. Qed.

Lemma padded_month_inj (m1 m2 : Z) :
  1 <= m1 <= 12 -> 1 <= m2 <= 12 ->
  JS.padStart2 (pretty m1) = JS.padStart2 (pretty m2) -> m1 = m2.
Proof.
  intros H1 H2 E. month_cases m1 H1; month_cases m2 H2;
    first [reflexivity | vm_compute in E; discriminate E].
Qed.

(** The keys ["YYYY-MM"] of two months are equal only for the same month of
    the same year. *)
Lemma getMonthKey_inj (y1 m1 y2 m2 : Z) :
  1 <= m1 <= 12 -> 1 <= m2 <= 12 ->
  getMonthKey y1 m1 = getMonthKey y2 m2 -> y1 = y2 ∧ m1 = m2.
Proof.
  intros H1 H2 E. unfold getMonthKey in E.
  apply string_app_inj_suffix in E as [Ey Em].
  - split; [by apply (inj pretty)|].
    apply string_app_inj_suffix in Em as [_ Em];
      [by apply padded_month_inj | by rewrite !padded_month_length].
  - by rewrite !string_length_app, !padded_month_length.
Qed.

End CalendarFacts.

(** ** The monthly breakdown of [generateHistoricalAnalytics] *)
Section BreakdownFacts.
Import Types Spec HistoricalUtils.
Local Open Scope Z_scope.

Variable tz : Z.

(** Under a key [groupTradesByMonth] holds the trades of that key, in the
    order of the input; a key without trades is absent. *)
Lemma groupTradesByMonth_lookup (trades : list Trade) (key : string) :
  groupTradesByMonth tz trades !! key
  = match List.filter (fun t => bool_decide (monthKeyOf tz t = key)) trades with
    | [] => None
    | group => Some group
    end.
Proof.
  revert key. induction trades as [|t trades IH] using rev_ind; intros key; [done|].
  unfold groupTradesByMonth. rewrite fold_left_app. cbn [fold_left].
  fold (groupTradesByMonth tz trades). set (g := groupTradesByMonth tz trades) in *.
  rewrite List.filter_app. cbn [List.filter].
  set (k := monthKeyOf tz t).
  destruct (decide (k = key)) as [<-|Hne].
  - rewrite (bool_decide_eq_true_2 (k = k)) by done.
    assert (Hsome : forall group : list Trade,
              match group ++ [t] with [] => None | x :: l => Some (x :: l) end
              = Some (group ++ [t])) by (by intros []).
    rewrite Hsome. case_bool_decide as Hs.
    + destruct Hs as [group Hgroup]. rewrite Hgroup, lookup_insert_eq.
      rewrite IH in Hgroup. by destruct (List.filter _ trades); simplify_eq.
    + rewrite lookup_insert_eq, lookup_insert_eq.
      specialize (IH k). destruct (List.filter _ trades); [done|].
      exfalso. apply Hs. by rewrite IH.
  - rewrite (bool_decide_eq_false_2 (k = key)) by done. rewrite app_nil_r.
    case_bool_decide as Hs.
    + destruct Hs as [group Hgroup]. rewrite Hgroup.
      rewrite lookup_insert_ne by done. apply IH.
    + rewrite lookup_insert_eq. rewrite !lookup_insert_ne by done. apply IH.
Qed.

(** For the twelve months of a year, the key selects the trades of the
    month. *)
Lemma monthKey_selects (y m : Z) (trades : list Trade) :
  1 <= m <= 12 ->
  List.filter (fun t => bool_decide (monthKeyOf tz t = getMonthKey y m)) trades
  = List.filter (inMonth tz y m) trades.
Proof.
  intros Hm. apply List.filter_ext. intros t. unfold inMonth, monthKeyOf.
  apply bool_decide_ext. split.
  - intros E. apply getMonthKey_inj in E; [done| |done].
    unfold JS.getMonth. pose proof (month_of_range (JS.localDay tz (JS.Date_parse (date t)))).
    lia.
  - by intros [-> ->].
Qed.

Lemma push_loop_map {A B} (f : A -> B) (l : list A) (acc : list B) :
  fold_left (fun acc x => acc ++ [f x]) l acc = acc ++ List.map f l.
Proof.
  revert acc. induction l as [|x l IH]; intros acc; cbn.
  - by rewrite app_nil_r.
  - by rewrite IH, <- app_assoc.
Qed.

(** The entry of a month holds the statistics of the trades of the month. *)
Lemma breakdownEntry_month (range : DateRange) (filtered : list Trade) (m : Z) :
  1 <= m <= 12 ->
  let y := JS.getFullYear tz (JS.Date_parse (startDate range)) in
  let monthTrades := List.filter (inMonth tz y m) filtered in
  let e := breakdownEntry tz range (groupTradesByMonth tz filtered) m in
  mb_month e = m ∧
  mb_monthName e = getMonthName m ∧
  mb_trades e = length monthTrades ∧
  mb_pnl e = totalPnL (calculateTradeStats monthTrades) ∧
  mb_winRate e = winRate (calculateTradeStats monthTrades).
Proof.
  intros Hm y monthTrades e. subst e. unfold breakdownEntry.
  cbn [mb_month mb_monthName mb_trades mb_pnl mb_winRate]. fold y.
  rewrite groupTradesByMonth_lookup, (monthKey_selects y m filtered Hm).
  fold monthTrades.
  assert (E : forall l : list Trade,
             default [] match l with [] => None | x :: l' => Some (x :: l') end = l)
    by (by intros []).
  by rewrite E.
Qed.

(** The yearly breakdown as the code reads the dates, for every zone: 12
    entries, the entry of month 1 to the entry of month 12 of the year the
    local-time getters read from the start date of the range, in this order;
    each entry holds the number, the total and the win rate of the filtered
    trades the getters read as of its month, and the entry of a month
    without such trades is there with 0 trades, 0 pnl and 0 win rate. *)
Lemma yearly_breakdown_local_months
    (user : string) (trades : list Trade) (range : DateRange) :
  let filtered := filterTradesByDateRange trades range in
  let y := JS.getFullYear tz (JS.Date_parse (startDate range)) in
  exists breakdown : list MonthlyBreakdownEntry,
    ha_monthlyBreakdown (generateHistoricalAnalytics tz user trades yearly range)
    = Some breakdown ∧
    length breakdown = 12%nat ∧
    Forall2 (fun m e =>
        let monthTrades := List.filter (inMonth tz y m) filtered in
        mb_month e = m ∧
        mb_monthName e = getMonthName m ∧
        mb_trades e = length monthTrades ∧
        mb_pnl e = totalPnL (calculateTradeStats monthTrades) ∧
        mb_winRate e = winRate (calculateTradeStats monthTrades) ∧
        (monthTrades = [] ->
         mb_trades e = 0%nat ∧ mb_pnl e = 0%Q ∧ mb_winRate e = 0%Q))
      (seqZ 1 12) breakdown.
Proof.
  intros filtered y.
  exists (List.map (breakdownEntry tz range (groupTradesByMonth tz filtered)) (seqZ 1 12)).
  split.
  { cbn [generateHistoricalAnalytics ha_monthlyBreakdown]. fold filtered.
    unfold monthlyBreakdownOf. by rewrite push_loop_map. }
  split; [done|].
  apply Forall2_fmap_r, Forall_Forall2_diag, Forall_forall.
  intros m Hm. apply elem_of_seqZ in Hm.
  destruct (breakdownEntry_month range filtered m ltac:(lia)) as (H1 & H2 & H3 & H4 & H5).
  fold y in H3, H4, H5.
  repeat (split; [assumption|]).
  intros E. rewrite H3, H4, H5, E. done.
Qed.

End BreakdownFacts.

Section BreakdownRemarks.
Import Types Spec Examples HistoricalUtils.
Local Open Scope Z_scope.

(** In a zone at or east of UTC the getters read the year and the month of
    the date text itself. *)
Lemma local_calendar_east (tz day : Z) :
  0 <= tz < 1440 ->
  JS.getFullYear tz (JS.Date_parse day) = JS.year_of day ∧
  JS.getMonth tz (JS.Date_parse day) + 1 = JS.month_of day.
Proof.
  intros H. unfold JS.getFullYear, JS.getMonth.
  rewrite (localDay_east tz day H). lia.
Qed.

(** In a zone west of UTC they read the day before. *)
Lemma local_calendar_west (tz day : Z) :
  -1440 <= tz < 0 ->
  JS.getFullYear tz (JS.Date_parse day) = JS.year_of (day - 1) ∧
  JS.getMonth tz (JS.Date_parse day) + 1 = JS.month_of (day - 1).
Proof.
  intros H. unfold JS.getFullYear, JS.getMonth.
  rewrite (localDay_west tz day H). lia.
Qed.

(** In such a zone the breakdown is that of the calendar year of the start
    date, each entry holding the statistics of the filtered trades whose date
    text lies in its month. *)
Lemma yearly_breakdown_calendar_months (tz : Z) (user : string)
    (trades : list Trade) (range : DateRange) :
  0 <= tz < 1440 ->
  let filtered := filterTradesByDateRange trades range in
  let y := JS.year_of (startDate range) in
  exists breakdown : list MonthlyBreakdownEntry,
    ha_monthlyBreakdown (generateHistoricalAnalytics tz user trades yearly range)
    = Some breakdown ∧
    length breakdown = 12%nat ∧
    Forall2 (fun m e =>
        let monthTrades := List.filter (inCalendarMonth y m) filtered in
        mb_month e = m ∧
        mb_trades e = length monthTrades ∧
        mb_pnl e = totalPnL (calculateTradeStats monthTrades) ∧
        mb_winRate e = winRate (calculateTradeStats monthTrades))
      (seqZ 1 12) breakdown.
Proof.
  intros Htz filtered y.
  exists (List.map (breakdownEntry tz range (groupTradesByMonth tz filtered)) (seqZ 1 12)).
  split.
  { cbn [generateHistoricalAnalytics ha_monthlyBreakdown]. fold filtered.
    unfold monthlyBreakdownOf. by rewrite push_loop_map. }
  split; [done|].
  apply Forall2_fmap_r, Forall_Forall2_diag, Forall_forall.
  intros m Hm. apply elem_of_seqZ in Hm.
  destruct (breakdownEntry_month tz range filtered m ltac:(lia))
    as (H1 & _ & H3 & H4 & H5).
  destruct (local_calendar_east tz (startDate range) Htz) as [Ey _].
  rewrite Ey in H3, H4, H5. fold y in H3, H4, H5.
  assert (E : List.filter (inMonth tz y m) filtered
              = List.filter (inCalendarMonth y m) filtered).
  { apply List.filter_ext. intros t. unfold inMonth, inCalendarMonth.
    destruct (local_calendar_east tz (date t) Htz) as [-> ->]. done. }
  rewrite E in H3, H4, H5. done.
Qed.

(** For another timeframe than [yearly] the report has no breakdown. *)
Lemma breakdown_only_yearly (tz : Z) (user : string) (trades : list Trade)
    (timeframe : Timeframe) (range : DateRange) :
  timeframe ≠ yearly ->
  ha_monthlyBreakdown (generateHistoricalAnalytics tz user trades timeframe range)
  = None.
Proof. by destruct timeframe. Qed.

(** The year 2024 with two trades in March, in UTC: twelve entries, March
    with 2 trades, the other months with none. *)
Lemma breakdown_of_2024 :
  (mb_month <$> monthlyBreakdownOf 0 year2024 marchTrades)
  = [1; 2; 3; 4; 5; 6; 7; 8; 9; 10; 11; 12] ∧
  (mb_trades <$> monthlyBreakdownOf 0 year2024 marchTrades)
  = [0; 0; 2; 0; 0; 0; 0; 0; 0; 0; 0; 0]%nat ∧
  (mb_monthName <$> monthlyBreakdownOf 0 year2024 marchTrades) !! 2%nat
  = Some "March".
Proof. repeat split; vm_compute; reflexivity. Qed.

(** C9, where the code departs from the claim.  The dates are parsed as
    midnight UTC and read back with the local-time getters, so on a host
    west of UTC each date is read as the day before.  Five hours west of
    UTC, with the one trade of 1 February 2024: for the range from
    2 January 2024 the breakdown files the trade under January, not
    February; for the range of the whole year 2024 the year read from the
    start date is 2023 and all twelve entries are empty, although the trade
    is in the range.  In UTC the trade is under February. *)
Theorem yearly_breakdown_misfiled_west_of_utc :
  JS.civil_from_days 19754 = (2024, 2, 1) ∧
  JS.year_of (startDate year2024) = 2024 ∧
  JS.year_of (startDate from2Jan2024) = 2024 ∧
  filterTradesByDateRange februaryTrade year2024 = februaryTrade ∧
  filterTradesByDateRange februaryTrade from2Jan2024 = februaryTrade ∧
  (mb_trades <$> default [] (ha_monthlyBreakdown
     (generateHistoricalAnalytics 0 "u1" februaryTrade yearly year2024)))
  = [0; 1; 0; 0; 0; 0; 0; 0; 0; 0; 0; 0]%nat ∧
  (mb_trades <$> default [] (ha_monthlyBreakdown
     (generateHistoricalAnalytics (-300) "u1" februaryTrade yearly from2Jan2024)))
  = [1; 0; 0; 0; 0; 0; 0; 0; 0; 0; 0; 0]%nat ∧
  (mb_trades <$> default [] (ha_monthlyBreakdown
     (generateHistoricalAnalytics (-300) "u1" februaryTrade yearly year2024)))
  = [0; 0; 0; 0; 0; 0; 0; 0; 0; 0; 0; 0]%nat ∧
  JS.getFullYear (-300) (JS.Date_parse (startDate year2024)) = 2023.
Proof. repeat split; vm_compute; reflexivity. Qed.

End BreakdownRemarks.

(** ** The monthly target: [updateMonthlyTargetProgress] *)
Section TargetFacts.
Import Types Spec Examples HistoricalUtils MonthlyTargetsService.
Local Open Scope Q_scope.

(** The laws of the monad of asynchronous computations. *)
Lemma Async_ret_bind {A B} (x : A) (f : A -> Async B) (w : World) :
  (mret x ≫= f) w = f x w.
Proof. reflexivity. Qed.

Lemma Async_bind_ret {A} (m : Async A) (w : World) : (m ≫= mret) w = m w.
Proof. unfold mbind, Async_bind, mret, Async_ret. by destruct (m w) as [[x w']|]. Qed.

Lemma Async_bind_assoc {A B C} (m : Async A) (f : A -> Async B) (g : B -> Async C)
    (w : World) :
  ((m ≫= f) ≫= g) w = (m ≫= (fun x => f x ≫= g)) w.
Proof. unfold mbind, Async_bind. by destruct (m w) as [[x w']|]. Qed.

(** The target a query finds is a document of the collection, and the query
    leaves the world as it is. *)
Lemma getMonthlyTarget_found (user : string) (y m : Z) (w w' : World)
    (target : MonthlyTarget) :
  getMonthlyTarget user y m w = Some (Some target, w') ->
  w' = w ∧ targets w !! id target = Some (data target).
Proof.
  unfold getMonthlyTarget, getDocs, mbind, Async_bind, mret, Async_ret.
  intros H. injection H as H ->. split; [done|].
  apply head_Some_elem_of in H. apply list_elem_of_fmap in H as ([i d] & -> & H).
  apply list_elem_of_In, List.filter_In in H as [H _].
  by apply list_elem_of_In, elem_of_map_to_list in H.
Qed.

(** What one run of [updateMonthlyTargetProgress] writes. *)
Lemma updateMonthlyTargetProgress_writes (tz : Z) (user : string) (y m : Z)
    (trades : list Trade) (w : World) (target : MonthlyTarget) :
  getMonthlyTarget user y m w = Some (Some target, w) ->
  let d := data target in
  let stats := calculateTradeStats (monthTradesOf tz y m trades) in
  let completed :=
    JS.leb (pnlTarget d) (totalPnL stats)
    && JS.leb (tradesTarget d) (inject_Z (Z.of_nat (totalTrades stats)))
    && JS.leb (winRateTarget d) (winRate stats) in
  updateMonthlyTargetProgress tz user y m trades w
  = Some (tt,
      {| targets :=
           <[id target :=
               {| userId := userId d; year := year d; month := month d;
                  monthName := monthName d;
                  pnlTarget := pnlTarget d; tradesTarget := tradesTarget d;
                  winRateTarget := winRateTarget d;
                  currentPnL := totalPnL stats;
                  currentTrades := inject_Z (Z.of_nat (totalTrades stats));
                  currentWinRate := winRate stats;
                  isCompleted := completed;
                  completedAt :=
                    if completed && negb (isCompleted d) then Some (now w)
                    else completedAt d;
                  createdAt := createdAt d;
                  updatedAt := now w |}]> (targets w);
         now := now w |}).
Proof.
  intros Hget d stats completed.
  destruct (getMonthlyTarget_found _ _ _ _ _ _ Hget) as [_ Hdoc].
  unfold updateMonthlyTargetProgress. unfold mbind at 1. unfold Async_bind at 1.
  rewrite Hget. fold (monthTradesOf tz y m trades). fold d stats. fold completed.
  destruct (completed && negb (isCompleted d)) eqn:E;
    unfold updateMonthlyTarget, newDate, updateDoc, mbind, Async_bind;
    cbn; fold d; rewrite Hdoc; reflexivity.
Qed.

End TargetFacts.

Section TargetTheorems.
Import Types Spec Examples HistoricalUtils MonthlyTargetsService.
Local Open Scope Q_scope.

(** C1.  When a target of the month exists, [updateMonthlyTargetProgress]
    resolves and rewrites that document: the goals are left as they were, the
    three progress fields are the statistics of the trades of the month, and
    the stored [isCompleted] is true if and only if
    [currentPnL >= pnlTarget], [currentTrades >= tradesTarget] and
    [currentWinRate >= winRateTarget] hold together; if one of the three
    fails, [isCompleted] is false. *)
Theorem isCompleted_iff_all_three_targets_met (tz : Z) (user : string) (y m : Z)
    (trades : list Trade) (w : World) (target : MonthlyTarget) :
  getMonthlyTarget user y m w = Some (Some target, w) ->
  exists doc' : TargetDoc,
    updateMonthlyTargetProgress tz user y m trades w
    = Some (tt, {| targets := <[id target := doc']> (targets w); now := now w |}) ∧
    pnlTarget doc' = pnlTarget (data target) ∧
    tradesTarget doc' = tradesTarget (data target) ∧
    winRateTarget doc' = winRateTarget (data target) ∧
    (let stats := calculateTradeStats (monthTradesOf tz y m trades) in
     currentPnL doc' = totalPnL stats ∧
     currentTrades doc' = inject_Z (Z.of_nat (totalTrades stats)) ∧
     currentWinRate doc' = winRate stats) ∧
    (isCompleted doc' = true <->
     pnlTarget doc' <= currentPnL doc' ∧
     tradesTarget doc' <= currentTrades doc' ∧
     winRateTarget doc' <= currentWinRate doc') ∧
    (~ (pnlTarget doc' <= currentPnL doc' ∧
        tradesTarget doc' <= currentTrades doc' ∧
        winRateTarget doc' <= currentWinRate doc') ->
     isCompleted doc' = false).
Proof.
  intros Hget. eexists. split; [by apply updateMonthlyTargetProgress_writes|].
  cbn [pnlTarget tradesTarget winRateTarget currentPnL currentTrades
       currentWinRate isCompleted].
  do 4 (split; [done|]).
  assert (Hiff : forall a b c a' b' c',
            JS.leb a a' && JS.leb b b' && JS.leb c c' = true
            <-> a <= a' ∧ b <= b' ∧ c <= c').
  { intros. rewrite !andb_true_iff, !leb_le. tauto. }
  split; [apply Hiff|].
  intros Hnot. apply not_true_is_false. intros Ht. apply Hnot. by apply Hiff.
Qed.

Lemma isCompleted_iff_all_three_targets_met_witness :
  let target := {| id := "t1"; data := januaryTarget |} in
  getMonthlyTarget "u1" 2024 1 world0 = Some (Some target, world0) ∧
  exists doc' : TargetDoc,
    updateMonthlyTargetProgress 0 "u1" 2024 1 threeDays world0
    = Some (tt, {| targets := <[id target := doc']> (targets world0);
                   now := now world0 |}) ∧
    pnlTarget doc' = pnlTarget (data target) ∧
    tradesTarget doc' = tradesTarget (data target) ∧
    winRateTarget doc' = winRateTarget (data target) ∧
    (let stats := calculateTradeStats (monthTradesOf 0 2024 1 threeDays) in
     currentPnL doc' = totalPnL stats ∧
     currentTrades doc' = inject_Z (Z.of_nat (totalTrades stats)) ∧
     currentWinRate doc' = winRate stats) ∧
    (isCompleted doc' = true <->
     pnlTarget doc' <= currentPnL doc' ∧
     tradesTarget doc' <= currentTrades doc' ∧
     winRateTarget doc' <= currentWinRate doc') ∧
    (~ (pnlTarget doc' <= currentPnL doc' ∧
        tradesTarget doc' <= currentTrades doc' ∧
        winRateTarget doc' <= currentWinRate doc') ->
     isCompleted doc' = false).
Proof.
  intros target.
  assert (Hget : getMonthlyTarget "u1" 2024 1 world0 = Some (Some target, world0))
    by reflexivity.
  split; [exact Hget|].
  exact (isCompleted_iff_all_three_targets_met 0 "u1" 2024 1 threeDays world0
           target Hget).
Defined.

(** Without a target of the month the call resolves and changes nothing. *)
Lemma updateMonthlyTargetProgress_no_target (tz : Z) (user : string) (y m : Z)
    (trades : list Trade) (w : World) :
  getMonthlyTarget user y m w = Some (None, w) ->
  updateMonthlyTargetProgress tz user y m trades w = Some (tt, w).
Proof.
  intros Hget. unfold updateMonthlyTargetProgress, mbind, Async_bind.
  by rewrite Hget.
Qed.

(** C2, as the code has it.  A recomputation never removes a [completedAt]
    that the target carries, and leaves it as it is whenever the stored
    [isCompleted] was already true or the recomputed [isCompleted] is false;
    [completedAt] is written, with the instant of the call, exactly on the
    transition of [isCompleted] from false to true, also when the target
    carries an earlier timestamp. *)
Theorem completedAt_written_only_on_transition (tz : Z) (user : string) (y m : Z)
    (trades : list Trade) (w : World) (target : MonthlyTarget) :
  getMonthlyTarget user y m w = Some (Some target, w) ->
  exists doc' : TargetDoc,
    updateMonthlyTargetProgress tz user y m trades w
    = Some (tt, {| targets := <[id target := doc']> (targets w); now := now w |}) ∧
    (is_Some (completedAt (data target)) -> is_Some (completedAt doc')) ∧
    (isCompleted (data target) = true ∨ isCompleted doc' = false ->
     completedAt doc' = completedAt (data target)) ∧
    (isCompleted (data target) = false ∧ isCompleted doc' = true ->
     completedAt doc' = Some (now w)).
Proof.
  intros Hget.
  pose proof (updateMonthlyTargetProgress_writes tz user y m trades w target Hget)
    as Hrun.
  cbv zeta in Hrun.
  set (completed := JS.leb _ _ && JS.leb _ _ && JS.leb _ _) in Hrun.
  clearbody completed.
  eexists. split; [exact Hrun|]. cbn [completedAt isCompleted].
  destruct completed, (isCompleted (data target)); cbn.
  - split; [done|]. split; [done|]. by intros [? _].
  - split; [by eexists|]. split; [|done]. by intros [?|?].
  - split; [done|]. split; [done|]. by intros [? _].
  - split; [done|]. split; [done|]. by intros [_ ?].
Qed.

Lemma completedAt_written_only_on_transition_witness :
  let target := {| id := "t1"; data := januaryTarget |} in
  getMonthlyTarget "u1" 2024 1 world0 = Some (Some target, world0) ∧
  exists doc' : TargetDoc,
    updateMonthlyTargetProgress 0 "u1" 2024 1 threeDays world0
    = Some (tt, {| targets := <[id target := doc']> (targets world0);
                   now := now world0 |}) ∧
    (is_Some (completedAt (data target)) -> is_Some (completedAt doc')) ∧
    (isCompleted (data target) = true ∨ isCompleted doc' = false ->
     completedAt doc' = completedAt (data target)) ∧
    (isCompleted (data target) = false ∧ isCompleted doc' = true ->
     completedAt doc' = Some (now world0)).
Proof.
  intros target.
  assert (Hget : getMonthlyTarget "u1" 2024 1 world0 = Some (Some target, world0))
    by reflexivity.
  split; [exact Hget|].
  exact (completedAt_written_only_on_transition 0 "u1" 2024 1 threeDays world0
           target Hget).
Defined.

(** C2, the claim as it stands fails.  The target is completed at instant
    1000; the trades are deleted and the recomputation at instant 2000 finds
    it not completed, the timestamp 1000 staying; the recomputation at
    instant 3000 finds it completed again and replaces the timestamp the
    target carried by 3000. *)
Lemma completedAt_overwritten_on_second_completion :
  (completedAt <$> (targets world1 !! "t1") = Some (Some 1000%Z) ∧
   isCompleted <$> (targets world1 !! "t1") = Some true) ∧
  (completedAt <$> (targets world2 !! "t1") = Some (Some 1000%Z) ∧
   isCompleted <$> (targets world2 !! "t1") = Some false) ∧
  (completedAt <$> (targets world3 !! "t1") = Some (Some 3000%Z) ∧
   isCompleted <$> (targets world3 !! "t1") = Some true).
Proof. repeat split; vm_compute; reflexivity. Qed.

End TargetTheorems.

(** ** Rounding: [toFixed] *)
Section RoundingFacts.
Import Spec.
Local Open Scope Q_scope.

Lemma scale_pos (digits : nat) : 0 < inject_Z (10 ^ Z.of_nat digits).
Proof.
  change 0 with (inject_Z 0). rewrite <- Zlt_Qlt. apply Z.pow_pos_nonneg; lia.
Qed.

(** The integer nearest to [a * s], over [s], is within [1 / (2 s)] of [a]. *)
Lemma round_close (a s : Q) :
  0 < s -> 0 <= a ->
  let n := inject_Z (Qfloor (a * s + (1 # 2))) in
  - ((1 # 2) / s) <= n / s - a <= (1 # 2) / s.
Proof.
  intros Hs Ha n.
  pose proof (Qfloor_le (a * s + (1 # 2))) as H1.
  pose proof (Qlt_floor (a * s + (1 # 2))) as H2.
  rewrite inject_Z_plus in H2. change (inject_Z 1) with 1 in H2.
  fold n in H1, H2. clearbody n.
  assert (E : n / s - a == (n - a * s) / s) by (field; lra).
  rewrite E. split.
  - apply Qle_shift_div_l; [done|].
    assert (E2 : - ((1 # 2) / s) * s == - (1 # 2)) by (field; lra).
    rewrite E2. lra.
  - apply Qle_shift_div_r; [done|].
    assert (E2 : (1 # 2) / s * s == (1 # 2)) by (field; lra).
    rewrite E2. lra.
Qed.

(** [toFixed] rounds to the given number of decimal places. *)
Lemma toFixed_rounds (x : Q) (digits : nat) : roundedTo digits x (JS.toFixed x digits).
Proof.
  unfold roundedTo. pose proof (scale_pos digits) as Hs.
  unfold JS.toFixed. set (s := inject_Z (10 ^ Z.of_nat digits)) in *. clearbody s.
  assert (E : (1 # 2) * (1 / s) == (1 # 2) / s) by (field; lra).
  pose proof (round_close (Qabs x) s Hs (Qabs_nonneg x)) as [H1 H2].
  cbv zeta in H1, H2.
  destruct (JS.ltb x 0) eqn:Hx.
  - apply ltb_lt in Hx.
    assert (Ea : Qabs x == - x) by (apply Qabs_neg; lra).
    split.
    + exists (- Qfloor (Qabs x * s + (1 # 2)))%Z. rewrite inject_Z_opp. field. lra.
    + apply Qabs_Qle_condition. rewrite E.
      revert H1 H2. generalize (inject_Z (Qfloor (Qabs x * s + (1 # 2))) / s).
      intros q H1 H2. rewrite Ea in H1, H2. split; lra.
  - apply ltb_ge in Hx.
    assert (Ea : Qabs x == x) by (apply Qabs_pos; lra).
    split.
    + exists (Qfloor (Qabs x * s + (1 # 2)))%Z. field. lra.
    + apply Qabs_Qle_condition. rewrite E.
      revert H1 H2. generalize (inject_Z (Qfloor (Qabs x * s + (1 # 2))) / s).
      intros q H1 H2. rewrite Ea in H1, H2. split; lra.
Qed.

End RoundingFacts.

(** ** The position-size calculator: [calculatePositionSize] *)
Section CalculatorFacts.
Import Spec Examples PositionSizeCalculator.
Local Open Scope Q_scope.

Lemma truthyValue_nonzero (q : Q) : ~ q == 0 -> truthyValue (Num q) = Some q.
Proof. intros H. cbn. by rewrite (proj2 (truthy_neq q) H). Qed.

Lemma truthyValue_missingOrZero (x : Parsed) : missingOrZero x -> truthyValue x = None.
Proof.
  destruct x as [|q]; cbn; [done|]. intros H.
  unfold JS.truthy. by rewrite (proj2 (Qeq_bool_iff q 0) H).
Qed.

(** Each pair of the table is the one its name selects, and its pip value
    is positive. *)
Lemma pairOptions_find (p : PairOption) :
  p ∈ pairOptions ->
  List.find (fun q => bool_decide (po_value q = po_value p)) pairOptions = Some p
  ∧ 0 < po_pipValue p.
Proof.
  unfold pairOptions. rewrite !elem_of_cons, elem_of_nil.
  intros H. repeat (destruct H as [->|H]; [split; by_evaluation|]). done.
Qed.

Lemma pairOptions_find_none (name : string) :
  Forall (fun p => po_value p ≠ name) pairOptions ->
  List.find (fun q => bool_decide (po_value q = name)) pairOptions = None.
Proof.
  induction pairOptions as [|p l IH]; intros H; [done|].
  apply Forall_cons in H as [Hp Hl]. cbn.
  rewrite bool_decide_eq_false_2 by done. by apply IH.
Qed.

End CalculatorFacts.

Section CalculatorTheorems.
Import Spec Examples PositionSizeCalculator.
Local Open Scope Q_scope.

(** C3, as the code has it.  When the account balance, the risk percent or
    the stop-loss distance is missing or zero, or the pair is not one of the
    table (the source of the pip value), [calculatePositionSize] returns
    without computing: the state [results] stays what it was, so the call
    produces no result of its own, partial or otherwise.  Nothing is
    reported to the caller. *)
Theorem calculator_returns_on_missing_or_zero
    (formData : CalculatorFormData) (results : option CalculationResults) :
  missingOrZero (accountBalance formData)
  ∨ missingOrZero (riskPercentage formData)
  ∨ missingOrZero (stopLossPips formData)
  ∨ Forall (fun p => po_value p ≠ pair formData) pairOptions ->
  calculatePositionSize formData results = results.
Proof.
  unfold calculatePositionSize. intros [H|[H|[H|H]]].
  - by rewrite (truthyValue_missingOrZero _ H).
  - rewrite (truthyValue_missingOrZero _ H).
    by destruct (truthyValue (accountBalance formData)).
  - rewrite (truthyValue_missingOrZero _ H).
    by destruct (truthyValue (accountBalance formData)),
                (truthyValue (riskPercentage formData)).
  - rewrite (pairOptions_find_none _ H).
    by destruct (truthyValue (accountBalance formData)),
                (truthyValue (riskPercentage formData)),
                (truthyValue (stopLossPips formData)).
Qed.

Lemma calculator_returns_on_missing_or_zero_witness :
  (missingOrZero (accountBalance noBalanceForm)
   ∨ missingOrZero (riskPercentage noBalanceForm)
   ∨ missingOrZero (stopLossPips noBalanceForm)
   ∨ Forall (fun p => po_value p ≠ pair noBalanceForm) pairOptions) ∧
  calculatePositionSize noBalanceForm None = None.
Proof.
  assert (H : missingOrZero (accountBalance noBalanceForm)
              ∨ missingOrZero (riskPercentage noBalanceForm)
              ∨ missingOrZero (stopLossPips noBalanceForm)
              ∨ Forall (fun p => po_value p ≠ pair noBalanceForm) pairOptions)
    by (left; exact I).
  split; [exact H|].
  exact (calculator_returns_on_missing_or_zero noBalanceForm None H).
Defined.

(** C3, the claim as it stands fails: a negative account balance is not
    turned away; the computation runs and yields a negative position size
    ([-4] lots for a balance of [-1000]). *)
Lemma calculator_negative_balance_proceeds :
  exists r : CalculationResults,
    calculatePositionSize negativeBalanceForm None = Some r ∧
    lotSize r == -4 ∧ riskAmount r == -20 ∧ lotSize r < 0.
Proof. eexists. split; [reflexivity|]. repeat split; by_evaluation. Qed.

(** C4, as the code has it.  For a positive balance, a risk percent in
    (0, 100], a positive stop-loss distance and a pair of the table (all pip
    values of the table are positive), the calculator sets the result to:
    [riskAmount], the number [balance * riskPercent / 100] rounded to 2
    decimal places; [lotSize], the number
    [riskAmount / (stopLoss * pipValue)] computed from the unrounded risk
    amount and rounded to 4 decimal places; [potentialProfit], for a take
    profit that is a number other than [0], the number
    [takeProfit * pipValue * lotSize] computed from the unrounded lot size
    and rounded to 2 decimal places, and nothing for a take profit that is
    absent, unreadable or [0]. *)
Theorem positionSize_formula_rounded_at_output
    (balance riskPercent stopLoss : Q) (p : PairOption)
    (takeProfit : option Parsed) (results : option CalculationResults) :
  0 < balance -> 0 < riskPercent <= 100 -> 0 < stopLoss -> p ∈ pairOptions ->
  let formData :=
    {| accountBalance := Num balance; riskPercentage := Num riskPercent;
       stopLossPips := Num stopLoss; pair := po_value p;
       takeProfitPips := takeProfit |} in
  let riskAmount' := balance * riskPercent / 100 in
  let positionSize' := riskAmount' / (stopLoss * po_pipValue p) in
  0 < po_pipValue p ∧
  roundedTo 2 riskAmount' (JS.toFixed riskAmount' 2) ∧
  roundedTo 4 positionSize' (JS.toFixed positionSize' 4) ∧
  calculatePositionSize formData results
  = Some {| lotSize := JS.toFixed positionSize' 4;
            riskAmount := JS.toFixed riskAmount' 2;
            potentialProfit :=
              match takeProfit with
              | Some (Num tp) =>
                if Qeq_bool tp 0 then None
                else Some (JS.toFixed (tp * po_pipValue p * positionSize') 2)
              | _ => None
              end;
            pipValue := po_pipValue p |}.
Proof.
  intros Hb Hr Hs Hp formData riskAmount' positionSize'.
  destruct (pairOptions_find p Hp) as [Hfind Hpip].
  split; [exact Hpip|]. split; [apply toFixed_rounds|]. split; [apply toFixed_rounds|].
  unfold calculatePositionSize. subst formData.
  cbn [accountBalance riskPercentage stopLossPips pair takeProfitPips].
  rewrite Hfind, !truthyValue_nonzero by lra.
  fold riskAmount' positionSize'.
  destruct takeProfit as [[|tp]|]; cbn [mbind option_bind truthyValue]; try done.
  unfold JS.truthy at 1. destruct (Qeq_bool tp 0) eqn:Etp; cbn [negb]; [done|].
  assert (Hne : JS.truthy (tp * po_pipValue p * positionSize') = true).
  { apply truthy_neq. intros E.
    assert (Htp : ~ tp == 0) by (intros H0; apply Qeq_bool_iff in H0; congruence).
    assert (Hlot : 0 < positionSize').
    { subst positionSize' riskAmount'. apply Qlt_shift_div_l.
      - apply Qmult_lt_0_compat; lra.
      - rewrite Qmult_0_l. apply Qlt_shift_div_l; [lra|].
        rewrite Qmult_0_l. apply Qmult_lt_0_compat; lra. }
    apply Qmult_integral in E as [E|E]; [|lra].
    apply Qmult_integral in E as [E|E]; [done|lra]. }
  by rewrite Hne.
Qed.

(** The scenario of the specification: balance 10000, risk 2, stop loss 50,
    pip value 0.1 give a risk amount of 200.00 and 40.0000 lots. *)
Lemma positionSize_formula_rounded_at_output_witness :
  (0 < 10000 ∧ 0 < 2 <= 100 ∧ 0 < 50 ∧ gold ∈ pairOptions) ∧
  exists r : CalculationResults,
    calculatePositionSize scenarioForm None = Some r ∧
    riskAmount r == 200 ∧ lotSize r == 40 ∧ pipValue r == 1 # 10 ∧
    potentialProfit r = None.
Proof.
  assert (Hb : 0 < 10000) by lra.
  assert (Hr : 0 < 2 <= 100) by lra.
  assert (Hs : 0 < 50) by lra.
  assert (Hp : gold ∈ pairOptions) by apply list_elem_of_here.
  split; [done|].
  destruct (positionSize_formula_rounded_at_output 10000 2 50 gold None None
              Hb Hr Hs Hp) as (_ & _ & _ & Hrun).
  eexists. split; [exact Hrun|]. repeat split; by_evaluation.
Defined.

(** C4, the claim as it stands fails for a take profit of [0]: it is
    supplied, the product [0 * pipValue * lotSize] rounds to [0.00], and the
    calculator gives no potential profit at all. *)
Lemma calculator_zero_takeProfit_gives_none :
  takeProfitPips zeroTakeProfitForm = Some (Num 0) ∧
  JS.toFixed (0 * (1 # 10) * ((10000 * 2 / 100) / (50 * (1 # 10)))) 2 == 0 ∧
  exists r : CalculationResults,
    calculatePositionSize zeroTakeProfitForm None = Some r ∧
    riskAmount r == 200 ∧ lotSize r == 40 ∧
    potentialProfit r = None.
Proof.
  split; [reflexivity|]. split; [by_evaluation|].
  eexists. split; [reflexivity|]. repeat split; by_evaluation.
Qed.

End CalculatorTheorems.

(* ===================================================================== *)
(** * Part III: further properties of the code                           *)
(* ===================================================================== *)

(** ** Sums *)
Section SumFacts.
Import Types Aggregates.
Local Open Scope Q_scope.

(** The loop of [reduce] adds the sum of the list to what it starts from. *)
Lemma reduce_sum {A} (f : A -> Q) (l : list A) (a : Q) :
  fold_left (fun sum x => sum + f x) l a == a + sumOf f l.
Proof.
  revert a. induction l as [|x l IH]; intros a; cbn.
  - lra.
  - rewrite IH. lra.
Qed.

Lemma sumOf_app {A} (f : A -> Q) (l1 l2 : list A) :
  sumOf f (l1 ++ l2) == sumOf f l1 + sumOf f l2.
Proof.
  induction l1 as [|x l1 IH]; cbn; [lra|]. rewrite IH. lra.
Qed.

Lemma sumOf_perm {A} (f : A -> Q) (l1 l2 : list A) :
  l1 ≡ₚ l2 -> sumOf f l1 == sumOf f l2.
Proof.
  induction 1 as [|x l1 l2 _ IH|x y l|l1 l2 l3 _ IH1 _ IH2]; cbn.
  - reflexivity.
  - rewrite IH. reflexivity.
  - lra.
  - rewrite IH1. exact IH2.
Qed.

Lemma sumOf_bounds {A} (f : A -> Q) (l : list A) (lo hi : Q) :
  Forall (fun x => lo <= f x <= hi) l ->
  inject_Z (Z.of_nat (length l)) * lo <= sumOf f l
  <= inject_Z (Z.of_nat (length l)) * hi.
Proof.
  induction 1 as [|x l [Hlo Hhi] _ IH]; cbn [sumOf length].
  - change (inject_Z (Z.of_nat 0)) with 0. lra.
  - rewrite Nat2Z.inj_succ, <- Z.add_1_r, inject_Z_plus.
    change (inject_Z 1) with 1. lra.
Qed.

Lemma sumOf_nonneg {A} (f : A -> Q) (l : list A) :
  Forall (fun x => 0 <= f x) l -> 0 <= sumOf f l.
Proof. induction 1 as [|x l Hx _ IH]; cbn; lra. Qed.

End SumFacts.

(** ** More on [calculateTradeStats] *)
Section MoreStats.
Import Types Spec Aggregates Examples HistoricalUtils.
Local Open Scope Q_scope.

Lemma filter_length_perm {A} (p : A -> bool) (l1 l2 : list A) :
  l1 ≡ₚ l2 -> length (List.filter p l1) = length (List.filter p l2).
Proof.
  induction 1 as [|x l1 l2 _ IH|x y l|l1 l2 l3 _ IH1 _ IH2]; cbn.
  - done.
  - destruct (p x); cbn; congruence.
  - destruct (p x), (p y); done.
  - congruence.
Qed.

Lemma isMaxOf_unique (x y : Q) (xs ys : list Q) :
  isMaxOf x xs -> isMaxOf y ys -> xs ≡ₚ ys -> x == y.
Proof.
  intros [Hx Hxs] [Hy Hys] Hp. rewrite Forall_forall in Hxs, Hys.
  apply Qle_antisym.
  - apply Hys. by rewrite <- Hp.
  - apply Hxs. by rewrite Hp.
Qed.

Lemma isMinOf_unique (x y : Q) (xs ys : list Q) :
  isMinOf x xs -> isMinOf y ys -> xs ≡ₚ ys -> x == y.
Proof.
  intros [Hx Hxs] [Hy Hys] Hp. rewrite Forall_forall in Hxs, Hys.
  apply Qle_antisym.
  - apply Hxs. by rewrite Hp.
  - apply Hys. by rewrite <- Hp.
Qed.

(** A number is positive, negative or zero, and only one of the three. *)
Lemma sign_cases (x : Q) :
  (JS.ltb 0 x = true ∧ JS.ltb x 0 = false ∧ Qeq_bool x 0 = false)
  ∨ (JS.ltb 0 x = false ∧ JS.ltb x 0 = true ∧ Qeq_bool x 0 = false)
  ∨ (JS.ltb 0 x = false ∧ JS.ltb x 0 = false ∧ Qeq_bool x 0 = true).
Proof.
  destruct (Q_dec 0 x) as [[H|H]|H].
  - left. split; [by apply ltb_lt|]. split; [apply ltb_ge; lra|].
    apply not_true_is_false. intros E. apply Qeq_bool_iff in E. lra.
  - right. left. split; [apply ltb_ge; lra|]. split; [by apply ltb_lt|].
    apply not_true_is_false. intros E. apply Qeq_bool_iff in E. lra.
  - right. right. split; [apply ltb_ge; lra|]. split; [apply ltb_ge; lra|].
    apply Qeq_bool_iff. lra.
Qed.

(** The total of [calculateTradeStats] is the sum of the net results. *)
Lemma totalPnL_sum (trades : list Trade) :
  totalPnL (calculateTradeStats trades) == sumOf netPL trades.
Proof. cbn [calculateTradeStats totalPnL]. rewrite reduce_sum. lra. Qed.

Lemma totalFees_sum (trades : list Trade) :
  totalFees (calculateTradeStats trades) == sumOf fees trades.
Proof. cbn [calculateTradeStats totalFees]. rewrite reduce_sum. lra. Qed.

(** X1.  [calculateTradeStats] sorts every trade into exactly one of three
    classes: a win ([netPL > 0]), a loss ([netPL < 0]) or break-even
    ([netPL = 0]); wins and losses together never outnumber the trades. *)
Theorem tradeStats_three_way_count (trades : list Trade) :
  let s := calculateTradeStats trades in
  (winningTrades s + losingTrades s + length (List.filter isBreakEven trades)
   = totalTrades s)%nat ∧
  (winningTrades s + losingTrades s <= totalTrades s)%nat.
Proof.
  cbn [calculateTradeStats winningTrades losingTrades totalTrades].
  assert (H : (length (List.filter (fun t => JS.ltb 0 (netPL t)) trades)
               + length (List.filter (fun t => JS.ltb (netPL t) 0) trades)
               + length (List.filter isBreakEven trades) = length trades)%nat).
  { induction trades as [|t trades IH]; [done|]. cbn [List.filter length].
    unfold isBreakEven at 1.
    destruct (sign_cases (netPL t)) as [(-> & -> & ->)|[(-> & -> & ->)|(-> & -> & ->)]];
      cbn [length]; lia. }
  split; [exact H | lia].
Qed.

Lemma sumOf_nonpos {A} (f : A -> Q) (l : list A) :
  Forall (fun x => f x <= 0) l -> sumOf f l <= 0.
Proof. induction 1 as [|x l Hx _ IH]; cbn; lra. Qed.

(** X2.  The sign of the totals: when even the worst trade is no loss, the
    total and the average of [calculateTradeStats] are not negative; when
    even the best trade is no gain, they are not positive. *)
Theorem tradeStats_totals_sign (trades : list Trade) :
  let s := calculateTradeStats trades in
  (0 <= worstTrade s -> 0 <= totalPnL s ∧ 0 <= averagePnL s) ∧
  (bestTrade s <= 0 -> totalPnL s <= 0 ∧ averagePnL s <= 0).
Proof.
  intros s. destruct trades as [|t trades].
  { subst s. cbn. split; intros _; lra. }
  destruct (proj1 tradeStats_best_worst t trades) as [[_ Hmax] [_ Hmin]].
  fold s in Hmax, Hmin. rewrite Forall_forall in Hmax, Hmin.
  pose proof (totalPnL_sum (t :: trades)) as Ht. fold s in Ht.
  assert (Hn : 0 < inject_Z (Z.of_nat (length (t :: trades))))
    by (apply inject_nat_pos; cbn; lia).
  assert (Ea : averagePnL s == totalPnL s / inject_Z (Z.of_nat (length (t :: trades))))
    by reflexivity.
  split; intros Hsign.
  - assert (H0 : 0 <= totalPnL s).
    { rewrite Ht. apply sumOf_nonneg, Forall_forall. intros x Hx.
      specialize (Hmin (netPL x) (list_elem_of_fmap_2 netPL _ _ Hx)).
      cbv beta in Hmin. lra. }
    split; [exact H0|]. rewrite Ea. apply Qle_shift_div_l; [done|]. lra.
  - assert (H0 : totalPnL s <= 0).
    { rewrite Ht. apply sumOf_nonpos, Forall_forall. intros x Hx.
      specialize (Hmax (netPL x) (list_elem_of_fmap_2 netPL _ _ Hx)).
      cbv beta in Hmax. lra. }
    split; [exact H0|]. rewrite Ea. apply Qle_shift_div_r; [done|]. lra.
Qed.

Lemma isMaxOf_app (x y : Q) (xs ys : list Q) :
  isMaxOf x xs -> isMaxOf y ys -> isMaxOf (Qmax x y) (xs ++ ys).
Proof.
  intros [Hx Hxs] [Hy Hys]. rewrite Forall_forall in Hxs, Hys. split.
  - apply elem_of_app. destruct (Qmax_cases x y) as [[-> _]|[-> _]]; [by left|by right].
  - apply Forall_forall. intros z Hz. apply elem_of_app in Hz as [Hz|Hz].
    + specialize (Hxs z Hz). cbv beta in Hxs. destruct (Qmax_cases x y) as [[-> H]|[-> H]]; lra.
    + specialize (Hys z Hz). cbv beta in Hys. destruct (Qmax_cases x y) as [[-> H]|[-> H]]; lra.
Qed.

Lemma isMinOf_app (x y : Q) (xs ys : list Q) :
  isMinOf x xs -> isMinOf y ys -> isMinOf (Qmin x y) (xs ++ ys).
Proof.
  intros [Hx Hxs] [Hy Hys]. rewrite Forall_forall in Hxs, Hys. split.
  - apply elem_of_app. destruct (Qmin_cases x y) as [[-> _]|[-> _]]; [by left|by right].
  - apply Forall_forall. intros z Hz. apply elem_of_app in Hz as [Hz|Hz].
    + specialize (Hxs z Hz). cbv beta in Hxs. destruct (Qmin_cases x y) as [[-> H]|[-> H]]; lra.
    + specialize (Hys z Hz). cbv beta in Hys. destruct (Qmin_cases x y) as [[-> H]|[-> H]]; lra.
Qed.

(** X4.  The statistics of two lists put together: the three counts add
    up; and when neither list is empty, the best trade is the better of the
    two best trades and the worst trade the worse of the two worst. *)
Theorem tradeStats_concat_counts (l1 l2 : list Trade) :
  let s := calculateTradeStats (l1 ++ l2) in
  let s1 := calculateTradeStats l1 in
  let s2 := calculateTradeStats l2 in
  totalTrades s = (totalTrades s1 + totalTrades s2)%nat ∧
  winningTrades s = (winningTrades s1 + winningTrades s2)%nat ∧
  losingTrades s = (losingTrades s1 + losingTrades s2)%nat ∧
  match l1, l2 with
  | _ :: _, _ :: _ =>
    bestTrade s == Qmax (bestTrade s1) (bestTrade s2) ∧
    worstTrade s == Qmin (worstTrade s1) (worstTrade s2)
  | [], _ => bestTrade s = bestTrade s2 ∧ worstTrade s = worstTrade s2
  | _, [] => bestTrade s = bestTrade s1 ∧ worstTrade s = worstTrade s1
  end.
Proof.
  intros s s1 s2. subst s s1 s2.
  split; [|split; [|split]].
  1-3: cbn [calculateTradeStats totalTrades winningTrades losingTrades];
       by rewrite ?List.filter_app, !length_app.
  destruct l1 as [|t1 l1]; [done|]. destruct l2 as [|t2 l2].
  { by rewrite app_nil_r. }
  destruct (proj1 tradeStats_best_worst t1 l1) as [Hmax1 Hmin1].
  destruct (proj1 tradeStats_best_worst t2 l2) as [Hmax2 Hmin2].
  destruct (proj1 tradeStats_best_worst t1 (l1 ++ t2 :: l2)) as [Hmax Hmin].
  change (t1 :: l1 ++ t2 :: l2) with ((t1 :: l1) ++ t2 :: l2) in Hmax, Hmin.
  rewrite List.map_app in Hmax, Hmin.
  split.
  - exact (isMaxOf_unique _ _ _ _ Hmax (isMaxOf_app _ _ _ _ Hmax1 Hmax2)
             (reflexivity _)).
  - exact (isMinOf_unique _ _ _ _ Hmin (isMinOf_app _ _ _ _ Hmin1 Hmin2)
             (reflexivity _)).
Qed.

(** X5.  The counts, the win rate, the best and the worst trade of
    [calculateTradeStats] do not depend on the order of the trades. *)
Theorem tradeStats_order_independent (l1 l2 : list Trade) :
  l1 ≡ₚ l2 ->
  let s1 := calculateTradeStats l1 in
  let s2 := calculateTradeStats l2 in
  totalTrades s1 = totalTrades s2 ∧
  winningTrades s1 = winningTrades s2 ∧
  losingTrades s1 = losingTrades s2 ∧
  winRate s1 = winRate s2 ∧
  bestTrade s1 == bestTrade s2 ∧
  worstTrade s1 == worstTrade s2.
Proof.
  intros Hp s1 s2.
  assert (Hn : length l1 = length l2) by (by apply Permutation_length).
  assert (Hw : winningTrades s1 = winningTrades s2)
    by (by apply filter_length_perm).
  assert (Hl : losingTrades s1 = losingTrades s2)
    by (by apply filter_length_perm).
  split; [exact Hn|]. split; [exact Hw|]. split; [exact Hl|].
  split.
  { subst s1 s2. cbn [calculateTradeStats winRate winningTrades totalTrades] in *.
    by rewrite Hw, Hn. }
  destruct l1 as [|t1 l1], l2 as [|t2 l2];
    try done; try (by apply Permutation_nil_cons in Hp).
  destruct (proj1 tradeStats_best_worst t1 l1) as [Hmax1 Hmin1].
  destruct (proj1 tradeStats_best_worst t2 l2) as [Hmax2 Hmin2].
  assert (Hpm : List.map netPL (t1 :: l1) ≡ₚ List.map netPL (t2 :: l2))
    by (by apply Permutation_map).
  split.
  - exact (isMaxOf_unique _ _ _ _ Hmax1 Hmax2 Hpm).
  - exact (isMinOf_unique _ _ _ _ Hmin1 Hmin2 Hpm).
Qed.

Lemma tradeStats_order_independent_witness :
  threeDays ≡ₚ threeDaysShuffled ∧
  winRate (calculateTradeStats threeDays)
  = winRate (calculateTradeStats threeDaysShuffled) ∧
  bestTrade (calculateTradeStats threeDays)
  == bestTrade (calculateTradeStats threeDaysShuffled).
Proof.
  assert (Hp : threeDays ≡ₚ threeDaysShuffled).
  { unfold threeDays, threeDaysShuffled.
    etrans; [|apply Permutation_swap]. apply Permutation_skip, Permutation_swap. }
  split; [exact Hp|].
  destruct (tradeStats_order_independent threeDays threeDaysShuffled Hp)
    as (_ & _ & _ & Hr & Hb & _).
  split; [exact Hr | exact Hb].
Defined.

End MoreStats.

(** X3.  For a set that is not empty the best trade of
    [calculateTradeStats] is the greatest [netPL] of the set and its worst
    trade the least one, of whatever sign; both are [0] for the empty set. *)
Theorem tradeStats_best_is_max_worst_is_min :
  (forall (t : Types.Trade) (trades : list Types.Trade),
     let s := HistoricalUtils.calculateTradeStats (t :: trades) in
     Spec.isMaxOf (HistoricalUtils.bestTrade s) (List.map Types.netPL (t :: trades)) ∧
     Spec.isMinOf (HistoricalUtils.worstTrade s) (List.map Types.netPL (t :: trades))) ∧
  (let s := HistoricalUtils.calculateTradeStats [] in
   HistoricalUtils.bestTrade s = 0%Q ∧ HistoricalUtils.worstTrade s = 0%Q).
Proof.
  split; [|done]. intros t trades s.
  exact (proj1 tradeStats_best_worst t trades).
Qed.

(** ** [filterTradesByDateRange] *)
Section FilterFacts.
Import Types Spec Aggregates Examples HistoricalUtils.
Local Open Scope Z_scope.

Lemma List_filter_sublist {A} (p : A -> bool) (l : list A) :
  sublist (List.filter p l) l.
Proof.
  induction l as [|x l IH]; cbn; [constructor|].
  destruct (p x); by constructor.
Qed.

Lemma List_filter_filter {A} (p q : A -> bool) (l : list A) :
  List.filter p (List.filter q l) = List.filter (fun x => q x && p x) l.
Proof.
  induction l as [|x l IH]; cbn; [done|].
  destruct (q x); cbn; [destruct (p x)|]; by rewrite IH.
Qed.

(** X6.  [filterTradesByDateRange] keeps exactly the trades whose date lies
    between the start and the end of the range, both included, in the order
    of the input. *)
Theorem filterTradesByDateRange_inclusive (trades : list Trade) (range : DateRange) :
  (forall t : Trade,
     t ∈ filterTradesByDateRange trades range
     <-> t ∈ trades ∧ startDate range <= date t <= endDate range) ∧
  sublist (filterTradesByDateRange trades range) trades.
Proof.
  split; [|apply List_filter_sublist].
  intros t. unfold filterTradesByDateRange.
  rewrite !list_elem_of_In, List.filter_In, andb_true_iff, !Z.leb_le.
  unfold JS.Date_parse, JS.msPerDay. split; intros [H1 H2]; (split; [done|lia]).
Qed.

(** X7.  Filtering by one range and then by another is filtering by the
    dates the two ranges share; filtering twice by one range changes nothing
    more. *)
Theorem filterTradesByDateRange_compose (trades : list Trade) (r1 r2 : DateRange) :
  filterTradesByDateRange (filterTradesByDateRange trades r2) r1
  = filterTradesByDateRange trades (intersectRanges r1 r2)
  ∧ filterTradesByDateRange (filterTradesByDateRange trades r1) r1
    = filterTradesByDateRange trades r1.
Proof.
  unfold filterTradesByDateRange. rewrite !List_filter_filter. split.
  - apply List.filter_ext. intros t. cbn [intersectRanges startDate endDate].
    unfold JS.Date_parse, JS.msPerDay. apply eq_true_iff_eq.
    rewrite !andb_true_iff, !Z.leb_le. lia.
  - apply List.filter_ext. intros t.
    by destruct (_ <=? _), (_ <=? _).
Qed.

(** A range whose end lies before its start holds no trade. *)
Theorem filterTradesByDateRange_inverted (trades : list Trade) (range : DateRange) :
  endDate range < startDate range -> filterTradesByDateRange trades range = [].
Proof.
  intros H. unfold filterTradesByDateRange.
  induction trades as [|t trades IH]; [done|]. cbn [List.filter]. rewrite IH.
  unfold JS.Date_parse, JS.msPerDay.
  destruct (Z.leb_spec (startDate range * 86400000) (date t * 86400000));
    destruct (Z.leb_spec (date t * 86400000) (endDate range * 86400000));
    cbn [andb]; first [reflexivity | lia].
Qed.

Lemma filterTradesByDateRange_inverted_witness :
  endDate {| startDate := 19753; endDate := 19723 |}
  < startDate {| startDate := 19753; endDate := 19723 |} ∧
  filterTradesByDateRange threeDays {| startDate := 19753; endDate := 19723 |} = [].
Proof.
  assert (H : endDate {| startDate := 19753; endDate := 19723 |}
              < startDate {| startDate := 19753; endDate := 19723 |}) by (cbn; lia).
  split; [exact H|].
  exact (filterTradesByDateRange_inverted threeDays _ H).
Defined.

End FilterFacts.

(** ** More on [calculateMaxDrawdown] *)
Section MoreDrawdown.
Import Types Spec Aggregates Examples HistoricalUtils.
Local Open Scope Q_scope.

Lemma lossOf_bounds (t : Trade) : 0 <= lossOf t ∧ - netPL t <= lossOf t.
Proof.
  unfold lossOf. destruct (Qmax_cases 0 (- netPL t)) as [[-> H]|[-> H]]; lra.
Qed.

(** What the loop keeps: the peak is never below the running total nor
    below zero, and the recorded drawdown is never below the current one. *)
Lemma drawdown_loop_invariant (trades : list Trade) (st : DrawdownState) (bound : Q) :
  0 <= peak st -> runningTotal st <= peak st ->
  peak st - runningTotal st <= maxDrawdown st ->
  peak st - runningTotal st <= bound -> maxDrawdown st <= bound ->
  let st' := fold_left drawdown_step trades st in
  0 <= peak st' ∧ runningTotal st' <= peak st' ∧
  peak st' - runningTotal st' <= maxDrawdown st' ∧
  maxDrawdown st' <= bound + sumOf lossOf trades ∧
  runningTotal st' == runningTotal st + sumOf netPL trades.
Proof.
  revert st bound. induction trades as [|t trades IH]; intros st bound H0 H1 H2 H3 H4.
  - cbn. repeat split; lra.
  - cbn [fold_left sumOf]. destruct (lossOf_bounds t) as [Hl0 Hl1].
    specialize (IH (drawdown_step st t) (bound + lossOf t)).
    assert (Hstep : 0 <= peak (drawdown_step st t)
                    ∧ runningTotal (drawdown_step st t) <= peak (drawdown_step st t)
                    ∧ peak (drawdown_step st t) - runningTotal (drawdown_step st t)
                      <= maxDrawdown (drawdown_step st t)
                    ∧ peak (drawdown_step st t) - runningTotal (drawdown_step st t)
                      <= bound + lossOf t
                    ∧ maxDrawdown (drawdown_step st t) <= bound + lossOf t
                    ∧ runningTotal (drawdown_step st t) = runningTotal st + netPL t).
    { unfold drawdown_step. cbn [peak runningTotal maxDrawdown].
      destruct (JS.ltb (peak st) (runningTotal st + netPL t)) eqn:E1;
        [apply ltb_lt in E1|apply ltb_ge in E1];
        match goal with |- context [JS.ltb ?a ?b] =>
          destruct (JS.ltb a b) eqn:E2; [apply ltb_lt in E2|apply ltb_ge in E2] end;
        repeat split; lra. }
    destruct Hstep as (S0 & S1 & S2 & S3 & S4 & S5).
    destruct (IH S0 S1 S2 S3 S4) as (I0 & I1 & I2 & I3 & I4).
    repeat split; try done; [lra|]. rewrite I4, S5. lra.
Qed.

Lemma maxDrawdown_between (trades : list Trade) :
  - sumOf netPL trades <= calculateMaxDrawdown trades <= sumOf lossOf trades.
Proof.
  destruct trades as [|t trades]; [cbn; lra|].
  unfold calculateMaxDrawdown.
  pose proof (Array_sort_perm byDateAscending (t :: trades)) as Hp.
  set (sorted := JS.Array_sort byDateAscending (t :: trades)) in *.
  destruct (drawdown_loop_invariant sorted
              {| peak := 0; runningTotal := 0; maxDrawdown := 0 |} 0)
    as (I0 & I1 & I2 & I3 & I4); cbn [peak runningTotal maxDrawdown]; try lra.
  rewrite (sumOf_perm lossOf _ _ Hp) in I3.
  rewrite (sumOf_perm netPL _ _ Hp) in I4.
  cbn [peak runningTotal maxDrawdown] in I4. split; lra.
Qed.

(** A trade that is dated no later than the trades of a second list goes
    in front of them. *)
Lemma sort_insert_before_later (x : Trade) (sorted later : list Trade) :
  Forall (fun t => (date x <= date t)%Z) later ->
  JS.sort_insert byDateAscending x (sorted ++ later)
  = JS.sort_insert byDateAscending x sorted ++ later.
Proof.
  intros Hlater. induction sorted as [|y sorted IH]; cbn.
  - destruct later as [|t later]; [done|]. cbn.
    apply Forall_cons in Hlater as [Ht _].
    rewrite byDateAscending_key. by rewrite (proj2 (Z.leb_le _ _) Ht).
  - destruct (JS.leb (byDateAscending x y) 0); [done|]. by rewrite IH.
Qed.

(** The trades of a later time are sorted behind the earlier ones. *)
Lemma Array_sort_later (trades later : list Trade) :
  (forall t t', t ∈ trades -> t' ∈ later -> (date t <= date t')%Z) ->
  JS.Array_sort byDateAscending (trades ++ later)
  = JS.Array_sort byDateAscending trades ++ JS.Array_sort byDateAscending later.
Proof.
  intros H. induction trades as [|x trades IH]; [done|]. cbn.
  rewrite IH by (intros t t' Ht; apply H; by apply list_elem_of_further).
  apply sort_insert_before_later, Forall_forall. intros t' Ht'.
  apply H; [apply list_elem_of_here|].
  by rewrite <- (Array_sort_perm byDateAscending later).
Qed.

(** The loop never lowers the drawdown it has recorded. *)
Lemma drawdown_loop_grows (trades : list Trade) (st : DrawdownState) :
  maxDrawdown st <= maxDrawdown (fold_left drawdown_step trades st).
Proof.
  revert st. induction trades as [|t trades IH]; intros st; cbn [fold_left]; [lra|].
  apply Qle_trans with (maxDrawdown (drawdown_step st t)); [|apply IH].
  unfold drawdown_step. cbn [maxDrawdown].
  match goal with |- context [JS.ltb ?a ?b] =>
    destruct (JS.ltb a b) eqn:E; [apply ltb_lt in E; lra | lra] end.
Qed.

(** X8.  Trades that come later never lower the maximum drawdown: when
    every trade of a second list is dated no earlier than every trade of the
    first, the maximum drawdown of the two lists together is at least that
    of the first list alone. *)
Theorem maxDrawdown_grows_with_later_trades (trades later : list Trade) :
  (forall t t', t ∈ trades -> t' ∈ later -> (date t <= date t')%Z) ->
  calculateMaxDrawdown trades <= calculateMaxDrawdown (trades ++ later).
Proof.
  intros H. destruct trades as [|t trades].
  { cbn [app]. destruct later as [|t' later]; [cbn; lra|].
    unfold calculateMaxDrawdown at 1. unfold calculateMaxDrawdown.
    apply drawdown_loop_nonneg. cbn. lra. }
  change ((t :: trades) ++ later) with (t :: (trades ++ later)).
  unfold calculateMaxDrawdown.
  change (t :: (trades ++ later)) with ((t :: trades) ++ later).
  rewrite (Array_sort_later (t :: trades) later H), fold_left_app.
  apply drawdown_loop_grows.
Qed.

Lemma maxDrawdown_grows_with_later_trades_witness :
  (forall t t', t ∈ threeDays -> t' ∈ laterLoss -> (date t <= date t')%Z) ∧
  calculateMaxDrawdown threeDays == 50 ∧
  calculateMaxDrawdown (threeDays ++ laterLoss) == 500 ∧
  calculateMaxDrawdown threeDays <= calculateMaxDrawdown (threeDays ++ laterLoss).
Proof.
  assert (H : forall t t', t ∈ threeDays -> t' ∈ laterLoss -> (date t <= date t')%Z).
  { intros t t' Ht Ht'. unfold threeDays, laterLoss in *.
    apply elem_of_cons in Ht' as [->|Ht']; [|by apply elem_of_nil in Ht'].
    repeat (apply elem_of_cons in Ht as [->|Ht]; [cbn; lia|]).
    by apply elem_of_nil in Ht. }
  split; [exact H|]. split; [by_evaluation|]. split; [by_evaluation|].
  exact (maxDrawdown_grows_with_later_trades threeDays laterLoss H).
Defined.

(** X9.  When no trade loses, the maximum drawdown is [0]. *)
Theorem maxDrawdown_zero_without_losses (trades : list Trade) :
  Forall (fun t => 0 <= netPL t) trades -> calculateMaxDrawdown trades == 0.
Proof.
  intros H. destruct (maxDrawdown_between trades) as [_ Hup].
  assert (Hlo : 0 <= calculateMaxDrawdown trades).
  { destruct trades as [|t trades]; [cbn; lra|].
    unfold calculateMaxDrawdown. apply drawdown_loop_nonneg. cbn. lra. }
  assert (Hz : sumOf lossOf trades == 0).
  { clear Hup Hlo. induction H as [|t l Ht _ IH]; cbn [sumOf]; [reflexivity|].
    rewrite IH. unfold lossOf. rewrite Q.max_l by lra. lra. }
  lra.
Qed.

Lemma maxDrawdown_zero_without_losses_witness :
  Forall (fun t => 0 <= netPL t) onlyWins ∧ calculateMaxDrawdown onlyWins == 0.
Proof.
  assert (H : Forall (fun t => 0 <= netPL t) onlyWins).
  { unfold onlyWins. repeat (apply Forall_cons; split; [by_evaluation|]).
    apply Forall_nil_2. }
  split; [exact H|]. exact (maxDrawdown_zero_without_losses onlyWins H).
Defined.

End MoreDrawdown.

(** ** Grouping: [groupTradesByMonth] and [groupTradesByYear] *)
Section GroupingFacts.
Import Types Spec Aggregates Examples HistoricalUtils.
Local Open Scope Z_scope.

(** The loop the two functions share, for any key. *)
Lemma grouping_loop_lookup `{Countable K} (keyOf : Trade -> K)
    (trades : list Trade) (key : K) :
  fold_left (fun (grouped : gmap K (list Trade)) trade =>
      let k := keyOf trade in
      let grouped :=
        if bool_decide (is_Some (grouped !! k)) then grouped
        else <[k := []]> grouped in
      match grouped !! k with
      | Some group => <[k := group ++ [trade]]> grouped
      | None => grouped
      end)
    trades ∅ !! key
  = match List.filter (fun t => bool_decide (keyOf t = key)) trades with
    | [] => None
    | group => Some group
    end.
Proof.
  revert key. induction trades as [|t trades IH] using rev_ind; intros key; [done|].
  rewrite fold_left_app. cbn [fold_left].
  set (g := fold_left _ trades ∅) in *.
  rewrite List.filter_app. cbn [List.filter].
  set (k := keyOf t).
  destruct (decide (k = key)) as [<-|Hne].
  - rewrite (bool_decide_eq_true_2 (k = k)) by done.
    assert (Hsome : forall group : list Trade,
              match group ++ [t] with [] => None | x :: l => Some (x :: l) end
              = Some (group ++ [t])) by (by intros []).
    rewrite Hsome. case_bool_decide as Hs.
    + destruct Hs as [group Hgroup]. rewrite Hgroup, lookup_insert_eq.
      rewrite IH in Hgroup. by destruct (List.filter _ trades); simplify_eq.
    + rewrite lookup_insert_eq, lookup_insert_eq.
      specialize (IH k). destruct (List.filter _ trades); [done|].
      exfalso. apply Hs. by rewrite IH.
  - rewrite (bool_decide_eq_false_2 (k = key)) by done. rewrite app_nil_r.
    case_bool_decide as Hs.
    + destruct Hs as [group Hgroup]. rewrite Hgroup.
      rewrite lookup_insert_ne by done. apply IH.
    + rewrite lookup_insert_eq. rewrite !lookup_insert_ne by done. apply IH.
Qed.

Lemma filter_nonempty_elem {A} (p : A -> bool) (l : list A) (x : A) :
  x ∈ l -> p x = true -> x ∈ List.filter p l.
Proof.
  intros Hx Hp. apply list_elem_of_In, List.filter_In. split; [|done].
  by apply list_elem_of_In.
Qed.

(** X10.  [groupTradesByMonth] files every trade under the key of its month and
    in the order of the input; it holds no empty group. *)
Theorem groupTradesByMonth_partition (tz : Z) (trades : list Trade) :
  let grouped := groupTradesByMonth tz trades in
  (forall (key : string) (group : list Trade),
     grouped !! key = Some group ->
     group ≠ [] ∧
     group = List.filter (fun t => bool_decide (monthKeyOf tz t = key)) trades) ∧
  (forall t : Trade,
     t ∈ trades ->
     exists group, grouped !! monthKeyOf tz t = Some group ∧ t ∈ group).
Proof.
  intros grouped. split.
  - intros key group Hg. subst grouped. rewrite groupTradesByMonth_lookup in Hg.
    destruct (List.filter _ trades) eqn:E; [done|]. by simplify_eq.
  - intros t Ht. subst grouped. rewrite groupTradesByMonth_lookup.
    assert (Hin : t ∈ List.filter
                        (fun t' => bool_decide (monthKeyOf tz t' = monthKeyOf tz t))
                        trades)
      by (apply filter_nonempty_elem; [done | by apply bool_decide_eq_true_2]).
    destruct (List.filter _ trades) eqn:E; [by apply elem_of_nil in Hin|].
    eexists. split; [done|]. exact Hin.
Qed.

(** X11.  Under the key of month [m] of year [y], [m] from 1 to 12,
    [groupTradesByMonth] holds the trades of that month (as the getters read
    the dates), and no entry when the month has none. *)
Theorem groupTradesByMonth_month (tz : Z) (trades : list Trade) (y m : Z) :
  1 <= m <= 12 ->
  let monthTrades := List.filter (inMonth tz y m) trades in
  default [] (groupTradesByMonth tz trades !! getMonthKey y m) = monthTrades ∧
  (groupTradesByMonth tz trades !! getMonthKey y m = None <-> monthTrades = []).
Proof.
  intros Hm monthTrades.
  rewrite groupTradesByMonth_lookup, (monthKey_selects tz y m trades Hm).
  fold monthTrades. by destruct monthTrades.
Qed.

Lemma groupTradesByMonth_month_witness :
  1 <= 3 <= 12 ∧
  default [] (groupTradesByMonth 0 threeMonths !! getMonthKey 2024 3)
  = List.filter (inMonth 0 2024 3) threeMonths ∧
  List.filter (inMonth 0 2024 3) threeMonths = [mkTrade "m" 19797 (-5)].
Proof.
  assert (H : 1 <= 3 <= 12) by lia.
  split; [exact H|].
  split; [exact (proj1 (groupTradesByMonth_month 0 threeMonths 2024 3 H))|].
  vm_compute. reflexivity.
Defined.

(** X12.  [groupTradesByYear] holds under a year the trades of that year (as
    [getFullYear] reads the dates), in the order of the input; a year
    without trades has no entry, and every trade is in the group of its
    year. *)
Theorem groupTradesByYear_year (tz : Z) (trades : list Trade) :
  let yearOf t := JS.getFullYear tz (JS.Date_parse (date t)) in
  (forall y : Z,
     default [] (groupTradesByYear tz trades !! y)
     = List.filter (fun t => bool_decide (yearOf t = y)) trades ∧
     (groupTradesByYear tz trades !! y = None
      <-> List.filter (fun t => bool_decide (yearOf t = y)) trades = [])) ∧
  (forall t : Trade,
     t ∈ trades ->
     exists group, groupTradesByYear tz trades !! yearOf t = Some group ∧ t ∈ group).
Proof.
  intros yearOf.
  assert (L : forall y, groupTradesByYear tz trades !! y
                        = match List.filter (fun t => bool_decide (yearOf t = y)) trades with
                          | [] => None
                          | group => Some group
                          end).
  { intros y. unfold groupTradesByYear. apply (grouping_loop_lookup yearOf). }
  split.
  - intros y. rewrite L. by destruct (List.filter _ trades).
  - intros t Ht. rewrite L.
    assert (Hin : t ∈ List.filter
                        (fun t' => bool_decide (yearOf t' = yearOf t)) trades)
      by (apply filter_nonempty_elem; [done | by apply bool_decide_eq_true_2]).
    destruct (List.filter _ trades) eqn:E; [by apply elem_of_nil in Hin|].
    eexists. split; [done|]. exact Hin.
Qed.

(** The keys of two months, each from 1 to 12, are equal only for the same
    month of the same year: no two months share a group. *)
Theorem getMonthKey_distinct_months (y1 m1 y2 m2 : Z) :
  1 <= m1 <= 12 -> 1 <= m2 <= 12 ->
  getMonthKey y1 m1 = getMonthKey y2 m2 -> y1 = y2 ∧ m1 = m2.
Proof. apply getMonthKey_inj. Qed.

Lemma getMonthKey_distinct_months_witness :
  (1 <= 3 <= 12 ∧ 1 <= 3 <= 12 ∧ getMonthKey 2024 3 = getMonthKey 2024 3) ∧
  getMonthKey 2024 3 = "2024-03" ∧ (2024 = 2024 ∧ 3 = 3).
Proof.
  assert (H : 1 <= 3 <= 12) by lia.
  split; [done|]. split; [reflexivity|].
  exact (getMonthKey_distinct_months 2024 3 2024 3 H H eq_refl).
Defined.

End GroupingFacts.

(** ** The sort, for a comparator that compares numbers *)
Section SortFactsQ.
Context {A : Type} (cmp : A -> A -> Q) (key : A -> Q).
Hypothesis cmp_key : forall a b, JS.leb (cmp a b) 0 = JS.leb (key a) (key b).

Lemma sort_insert_sorted_Q (x : A) (l : list A) :
  StronglySorted (fun a b => (key a <= key b)%Q) l ->
  StronglySorted (fun a b => (key a <= key b)%Q) (JS.sort_insert cmp x l).
Proof.
  induction l as [|y l IH]; intros Hs; simpl.
  - repeat constructor.
  - apply StronglySorted_inv in Hs as [Hl Hy].
    rewrite cmp_key. destruct (JS.leb (key x) (key y)) eqn:E.
    + apply leb_le in E. constructor; [by constructor|].
      constructor; [exact E|].
      eapply Forall_impl; [exact Hy|]. intros z Hz. cbn in *. lra.
    + assert (Hyx : (key y <= key x)%Q).
      { apply Qlt_le_weak, Qnot_le_lt. intros H. apply leb_le in H. congruence. }
      constructor; [by apply IH|].
      rewrite (sort_insert_perm cmp x l). constructor; [exact Hyx | exact Hy].
Qed.

Lemma Array_sort_sorted_Q (l : list A) :
  StronglySorted (fun a b => (key a <= key b)%Q) (JS.Array_sort cmp l).
Proof.
  induction l as [|x l IH]; simpl; [constructor|].
  by apply sort_insert_sorted_Q.
Qed.
End SortFactsQ.

(** ** [calculateSymbolPerformance] *)
Section SymbolFacts.
Import Types Spec Aggregates Examples HistoricalUtils.
Local Open Scope Q_scope.

Lemma Map_get_set_eq {V} (m : list (string * V)) (k : string) (v : V) :
  Map_get (Map_set m k v) k = Some v.
Proof.
  induction m as [|[k' v'] m IH]; cbn.
  - by rewrite bool_decide_eq_true_2.
  - case_bool_decide as E; cbn.
    + by rewrite bool_decide_eq_true_2.
    + by rewrite bool_decide_eq_false_2.
Qed.

Lemma Map_get_set_ne {V} (m : list (string * V)) (k k' : string) (v : V) :
  k ≠ k' -> Map_get (Map_set m k v) k' = Map_get m k'.
Proof.
  intros Hne. induction m as [|[k0 v0] m IH]; cbn.
  - by rewrite bool_decide_eq_false_2.
  - case_bool_decide as E; cbn.
    + subst k0. by rewrite !bool_decide_eq_false_2.
    + by rewrite IH.
Qed.

Lemma Map_set_keys {V} (m : list (string * V)) (k : string) (v : V) :
  NoDup (m.*1) -> NoDup ((Map_set m k v).*1)
  ∧ forall k', k' ∈ (Map_set m k v).*1 <-> k' = k ∨ k' ∈ m.*1.
Proof.
  induction m as [|[k0 v0] m IH]; cbn; intros Hnd.
  - split; [apply NoDup_singleton|]. intros k'. rewrite elem_of_cons, elem_of_nil. tauto.
  - apply NoDup_cons in Hnd as [Hk0 Hnd]. destruct (IH Hnd) as [IH1 IH2].
    case_bool_decide as E; cbn.
    + subst k0. split; [by apply NoDup_cons|].
      intros k'. rewrite elem_of_cons. tauto.
    + split.
      * apply NoDup_cons. split; [|done]. rewrite IH2. intros [?|?]; congruence.
      * intros k'. rewrite !elem_of_cons, IH2. tauto.
Qed.

Lemma Map_get_elem {V} (m : list (string * V)) (k : string) (v : V) :
  (k, v) ∈ m -> NoDup (m.*1) -> Map_get m k = Some v.
Proof.
  induction m as [|[k0 v0] m IH]; intros Hin Hnd; [by apply elem_of_nil in Hin|].
  cbn in Hnd. apply NoDup_cons in Hnd as [Hk0 Hnd].
  apply elem_of_cons in Hin as [E|Hin]; cbn.
  - injection E as -> ->. by rewrite bool_decide_eq_true_2.
  - case_bool_decide as E; [|by apply IH].
    subst k0. exfalso. apply Hk0. by apply (list_elem_of_fmap_2 fst) in Hin.
Qed.

Lemma Map_get_Some_elem {V} (m : list (string * V)) (k : string) (v : V) :
  Map_get m k = Some v -> (k, v) ∈ m.
Proof.
  induction m as [|[k0 v0] m IH]; cbn; [done|].
  case_bool_decide as E.
  - intros [= ->]. subst. apply list_elem_of_here.
  - intros H. by apply list_elem_of_further, IH.
Qed.


(** [calculateSymbolPerformance] is the sort of the entries of the map its
    loop builds. *)
Lemma calculateSymbolPerformance_unfold (trades : list Trade) :
  calculateSymbolPerformance trades
  = JS.Array_sort byPnlDescending
      (List.map entryOfAggregate (fold_left symbolStep trades [])).
Proof.
  unfold calculateSymbolPerformance. f_equal. apply List.map_ext. by intros [sym data].
Qed.

Lemma symbolMap_keys (trades : list Trade) :
  NoDup ((fold_left symbolStep trades []).*1)
  ∧ forall sym, sym ∈ (fold_left symbolStep trades []).*1 <-> sym ∈ List.map symbol trades.
Proof.
  induction trades as [|t trades [IH1 IH2]] using rev_ind.
  - split; [apply NoDup_nil_2|]. done.
  - rewrite fold_left_app. cbn [fold_left]. unfold symbolStep at 1 3.
    destruct (Map_set_keys (fold_left symbolStep trades []) (symbol t)
                {| sa_trades :=
                     sa_trades (default {| sa_trades := 0; sa_pnl := 0;
                                           sa_winningTrades := 0 |}
                                  (Map_get (fold_left symbolStep trades []) (symbol t)))
                     + 1;
                   sa_pnl :=
                     sa_pnl (default {| sa_trades := 0; sa_pnl := 0;
                                        sa_winningTrades := 0 |}
                               (Map_get (fold_left symbolStep trades []) (symbol t)))
                     + netPL t;
                   sa_winningTrades :=
                     sa_winningTrades
                       (default {| sa_trades := 0; sa_pnl := 0; sa_winningTrades := 0 |}
                          (Map_get (fold_left symbolStep trades []) (symbol t)))
                     + (if JS.ltb 0 (netPL t) then 1 else 0) |} IH1) as [K1 K2].
    split; [exact K1|]. intros sym. rewrite K2, IH2, List.map_app.
    cbn [List.map]. rewrite elem_of_app, elem_of_cons, elem_of_nil. tauto.
Qed.

Lemma symbolMap_lookup (trades : list Trade) (sym : string) :
  Map_get (fold_left symbolStep trades []) sym
  = match List.filter (fun t => bool_decide (symbol t = sym)) trades with
    | [] => None
    | own => Some (aggregateOf own)
    end.
Proof.
  revert sym. induction trades as [|t trades IH] using rev_ind; intros sym; [done|].
  rewrite fold_left_app. cbn [fold_left]. unfold symbolStep at 1.
  rewrite List.filter_app. cbn [List.filter].
  destruct (decide (symbol t = sym)) as [<-|Hne].
  - rewrite Map_get_set_eq, (bool_decide_eq_true_2 (symbol t = symbol t)) by done.
    rewrite IH.
    set (own := List.filter _ trades).
    assert (Hsome : match own ++ [t] with
                    | [] => None
                    | x :: l => Some (aggregateOf (x :: l))
                    end = Some (aggregateOf (own ++ [t]))) by (by destruct own).
    rewrite Hsome. f_equal. unfold aggregateOf.
    rewrite List.filter_app, !length_app, fold_left_app. cbn [List.filter fold_left].
    destruct own as [|x own']; cbn [default].
    + cbn. f_equal. by destruct (JS.ltb 0 (netPL t)).
    + cbn [sa_trades sa_pnl sa_winningTrades]. f_equal.
      by destruct (JS.ltb 0 (netPL t)).
  - rewrite Map_get_set_ne by done.
    rewrite (bool_decide_eq_false_2 (symbol t = sym)) by done.
    rewrite app_nil_r. apply IH.
Qed.

Lemma entryOfAggregate_symbolEntry (sym : string) (trades : list Trade) :
  entryOfAggregate
    (sym, aggregateOf (List.filter (fun t => bool_decide (symbol t = sym)) trades))
  = symbolEntry sym trades.
Proof. reflexivity. Qed.

(** The entries before the sort: one for each traded symbol. *)
Lemma symbolMap_entries (trades : list Trade) (e : SymbolPerformance) :
  e ∈ List.map entryOfAggregate (fold_left symbolStep trades [])
  <-> sp_symbol e ∈ List.map symbol trades ∧ e = symbolEntry (sp_symbol e) trades.
Proof.
  destruct (symbolMap_keys trades) as [Hnd Hkeys].
  rewrite list_elem_of_fmap. split.
  - intros ([sym data] & -> & Hin). cbn [entryOfAggregate sp_symbol fst].
    split; [apply Hkeys; by apply (list_elem_of_fmap_2 fst) in Hin|].
    apply Map_get_elem in Hin; [|done]. rewrite symbolMap_lookup in Hin.
    destruct (List.filter _ trades) eqn:E; [done|]. injection Hin as <-.
    by rewrite <- E.
  - intros [Hsym He]. apply Hkeys in Hsym.
    apply list_elem_of_fmap in Hsym as ([sym data] & Hs & Hin). cbn in Hs.
    exists (sym, data). split; [|done]. rewrite He, <- Hs.
    apply Map_get_elem in Hin as Hget; [|done]. rewrite symbolMap_lookup in Hget.
    destruct (List.filter _ trades) eqn:E; [done|]. injection Hget as <-.
    rewrite Hs, <- E. reflexivity.
Qed.

(** X13.  [calculateSymbolPerformance] reports each traded symbol once, and no
    other; the entry of a symbol holds the number, the total and the win
    rate of the trades of that symbol, as [calculateTradeStats] finds them. *)
Theorem symbolPerformance_entries (trades : list Trade) :
  let report := calculateSymbolPerformance trades in
  NoDup (List.map sp_symbol report) ∧
  (forall sym : string,
     sym ∈ List.map sp_symbol report <-> sym ∈ List.map symbol trades) ∧
  (forall e : SymbolPerformance,
     e ∈ report -> e = symbolEntry (sp_symbol e) trades).
Proof.
  intros report. subst report. rewrite calculateSymbolPerformance_unfold.
  pose proof (Array_sort_perm byPnlDescending
                (List.map entryOfAggregate (fold_left symbolStep trades []))) as Hp.
  destruct (symbolMap_keys trades) as [Hnd Hkeys].
  assert (Hsyms : List.map sp_symbol
                    (List.map entryOfAggregate (fold_left symbolStep trades []))
                  = (fold_left symbolStep trades []).*1).
  { rewrite List.map_map. apply List.map_ext. by intros [sym data]. }
  split; [|split].
  - rewrite Hp, Hsyms. exact Hnd.
  - intros sym. rewrite Hp, Hsyms. apply Hkeys.
  - intros e He. rewrite Hp in He. by apply symbolMap_entries in He as [_ He].
Qed.

(** The sort leaves the entries in the order of the keys [- pnl]. *)
Lemma calculateSymbolPerformance_sorted (trades : list Trade) :
  StronglySorted (fun a b => - sp_pnl a <= - sp_pnl b)
    (calculateSymbolPerformance trades).
Proof.
  rewrite calculateSymbolPerformance_unfold.
  pose proof (Array_sort_sorted_Q byPnlDescending (fun e => - sp_pnl e)) as Hs.
  apply Hs. intros a b. unfold byPnlDescending. apply eq_true_iff_eq.
  rewrite !leb_le. split; lra.
Qed.

(** X14.  [calculateSymbolPerformance] ranks the symbols by their total, the
    greatest first. *)
Theorem symbolPerformance_ranked (trades : list Trade) :
  StronglySorted (fun a b => sp_pnl b <= sp_pnl a) (calculateSymbolPerformance trades).
Proof.
  eapply StronglySorted_weaken; [|apply calculateSymbolPerformance_sorted].
  intros a b. cbn. lra.
Qed.

End SymbolFacts.

(** ** [calculateTradingConsistency] *)
Section ConsistencyFacts.
Import Types Spec Aggregates Examples HistoricalUtils.
Local Open Scope Q_scope.

Lemma filter_none {A} (p : A -> bool) (l : list A) :
  (forall x, x ∈ l -> p x = false) -> List.filter p l = [].
Proof.
  induction l as [|x l IH]; intros Hp; cbn; [done|].
  rewrite (Hp x) by apply list_elem_of_here.
  apply IH. intros y Hy. apply Hp. by apply list_elem_of_further.
Qed.

Lemma List_filter_map {A B} (p : B -> bool) (f : A -> B) (l : list A) :
  List.filter p (List.map f l) = List.map f (List.filter (fun x => p (f x)) l).
Proof.
  induction l as [|x l IH]; cbn; [done|]. destruct (p (f x)); cbn; by rewrite IH.
Qed.

Lemma dayTotal_absent (day : Z) (trades : list Trade) :
  day ∉ List.map date trades -> dayTotal day trades == 0.
Proof.
  intros Hd. unfold dayTotal. rewrite filter_none; [reflexivity|].
  intros t Ht. apply bool_decide_eq_false_2. intros <-. apply Hd.
  by apply (list_elem_of_fmap_2 date).
Qed.

(** What the loop holds for a day: nothing before the first trade of the
    day, then the sum of its trades. *)
Lemma dayPnLOf_lookup (trades : list Trade) (day : Z) :
  match dayPnLOf trades !! day with
  | Some v => day ∈ List.map date trades ∧ v == dayTotal day trades
  | None => day ∉ List.map date trades
  end.
Proof.
  revert day. induction trades as [|t trades IH] using rev_ind; intros day.
  - cbn. rewrite lookup_empty. by intros ?%elem_of_nil.
  - unfold dayPnLOf. rewrite fold_left_app. cbn [fold_left].
    fold (dayPnLOf trades). rewrite List.map_app. cbn [List.map].
    destruct (decide (date t = day)) as [<-|Hne].
    + rewrite lookup_insert_eq.
      split; [apply elem_of_app; right; apply list_elem_of_here|].
      unfold dayTotal. rewrite List.filter_app, sumOf_app. cbn [List.filter].
      rewrite (bool_decide_eq_true_2 (date t = date t)) by done. cbn [sumOf].
      fold (dayTotal (date t) trades).
      specialize (IH (date t)). destruct (dayPnLOf trades !! date t) as [v|].
      * destruct IH as [_ Hv]. destruct (JS.truthy v) eqn:Ev.
        -- rewrite Hv. lra.
        -- assert (v == 0) as Hz.
           { destruct (Qeq_dec v 0) as [|Hn]; [done|].
             apply truthy_neq in Hn. congruence. }
           rewrite <- Hv, Hz. lra.
      * rewrite (dayTotal_absent _ _ IH). lra.
    + rewrite lookup_insert_ne by done. specialize (IH day).
      destruct (dayPnLOf trades !! day) as [v|].
      * destruct IH as [Hin Hv]. split; [apply elem_of_app; by left|].
        rewrite Hv. unfold dayTotal. rewrite List.filter_app. cbn [List.filter].
        rewrite (bool_decide_eq_false_2 (date t = day)) by done.
        by rewrite app_nil_r.
      * rewrite elem_of_app, elem_of_cons, elem_of_nil.
        intros [Hin|[Heq|[]]]; [by apply IH|by apply Hne].
Qed.

Lemma consistency_unfold (trades : list Trade) :
  tradingDays (calculateTradingConsistency trades)
  = size (list_to_set (List.map date trades) : gset Z)
  ∧ profitableDays (calculateTradingConsistency trades)
    = length (List.filter (fun pnl => JS.ltb 0 pnl)
                (snd <$> map_to_list (dayPnLOf trades))).
Proof. done. Qed.

Lemma dayPnLOf_dom (trades : list Trade) :
  dom (dayPnLOf trades) = (list_to_set (List.map date trades) : gset Z).
Proof.
  apply set_eq. intros day. rewrite elem_of_dom, elem_of_list_to_set.
  pose proof (dayPnLOf_lookup trades day) as H.
  destruct (dayPnLOf trades !! day) as [v|].
  - split; [by intros _; destruct H|by eexists].
  - split; [by intros [? ?]|done].
Qed.

Lemma tradingDays_le (trades : list Trade) :
  (size (list_to_set (List.map date trades) : gset Z) <= length trades)%nat.
Proof.
  unfold size, set_size. cbn.
  rewrite <- (length_map date trades).
  apply submseteq_length, NoDup_submseteq; [apply NoDup_elements|].
  intros d. by rewrite elem_of_elements, elem_of_list_to_set.
Qed.

End ConsistencyFacts.

Section ConsistencyTheorems.
Import Types Spec Aggregates Examples HistoricalUtils.
Local Open Scope Q_scope.

(** The days on which the trades of the day add up to a gain, each once. *)
Lemma profitable_days_list (trades : list Trade) :
  let days :=
    (List.filter (fun p : Z * Q => JS.ltb 0 p.2) (map_to_list (dayPnLOf trades))).*1 in
  NoDup days ∧
  (forall day, day ∈ days <-> day ∈ List.map date trades ∧ 0 < dayTotal day trades) ∧
  profitableDays (calculateTradingConsistency trades) = length days.
Proof.
  intros days. subst days. split; [|split].
  - eapply sublist_NoDup; [apply (NoDup_fst_map_to_list (dayPnLOf trades))|].
    apply fmap_sublist. apply List_filter_sublist.
  - intros day. pose proof (dayPnLOf_lookup trades day) as Hday.
    rewrite list_elem_of_fmap. split.
    + intros ([d v] & -> & Hin). cbn [fst].
      apply list_elem_of_In, List.filter_In in Hin as [Hin Hpos].
      apply list_elem_of_In, elem_of_map_to_list in Hin. cbn [fst] in Hday.
      rewrite Hin in Hday. destruct Hday as [Hd Hv]. split; [done|].
      cbn [snd] in Hpos. apply ltb_lt in Hpos. by rewrite <- Hv.
    + intros [Hd Hpos]. destruct (dayPnLOf trades !! day) as [v|] eqn:E; [|done].
      destruct Hday as [_ Hv]. exists (day, v). split; [done|].
      apply filter_nonempty_elem; [by apply elem_of_map_to_list|].
      cbn [snd]. apply ltb_lt. by rewrite Hv.
  - destruct (consistency_unfold trades) as [_ ->].
    rewrite length_fmap. change (snd <$> map_to_list (dayPnLOf trades))
      with (List.map snd (map_to_list (dayPnLOf trades))).
    by rewrite List_filter_map, length_map.
Qed.

Lemma sumOf_gain {A} (f : A -> Q) (l : list A) :
  Forall (fun x => 0 <= f x) l -> Exists (fun x => 0 < f x) l -> 0 < sumOf f l.
Proof.
  intros Hall Hex. induction Hall as [|x l Hx Hall IH]; [by apply Exists_nil in Hex|].
  cbn [sumOf]. pose proof (sumOf_nonneg f l Hall) as Hl.
  apply Exists_cons in Hex as [Hex|Hex]; [lra|]. specialize (IH Hex). lra.
Qed.

(** A day of gains only has a positive total, and a day with a positive
    total has a gaining trade. *)
Lemma gainOnly_total (trades : list Trade) (day : Z) :
  gainOnly trades day = true -> 0 < dayTotal day trades.
Proof.
  unfold gainOnly, dayTotal. fold (tradesOn day trades).
  intros [Hall Hex]%andb_true_iff. apply sumOf_gain.
  - apply Forall_forall. intros t Ht. rewrite forallb_forall in Hall.
    apply leb_le, Hall. by apply list_elem_of_In.
  - apply existsb_exists in Hex as (t & Ht & Hpos). apply Exists_exists.
    exists t. split; [by apply list_elem_of_In|by apply ltb_lt].
Qed.

Lemma total_hasGain (trades : list Trade) (day : Z) :
  0 < dayTotal day trades -> hasGain trades day = true.
Proof.
  unfold hasGain, dayTotal. fold (tradesOn day trades). intros Hpos.
  destruct (existsb _ (tradesOn day trades)) eqn:E; [done|]. exfalso.
  assert (Hno : sumOf netPL (tradesOn day trades) <= 0); [|lra].
  apply sumOf_nonpos, Forall_forall. intros t Ht.
  apply ltb_ge. apply not_true_iff_false. intros Hw.
  apply not_true_iff_false in E. apply E, existsb_exists.
  exists t. split; [by apply list_elem_of_In|done].
Qed.

Lemma NoDup_incl_length {A} (l k : list A) :
  NoDup l -> (forall x, x ∈ l -> x ∈ k) -> (length l <= length k)%nat.
Proof. intros Hnd Hin. by apply submseteq_length, NoDup_submseteq. Qed.

(** X15.  [calculateTradingConsistency] counts days, not trades: the
    trading days are the distinct dates of the trades; among them, a day on
    which no trade loses and one at least gains is counted as profitable,
    and a day without a gaining trade is not. *)
Theorem consistency_counts_days (trades : list Trade) :
  let c := calculateTradingConsistency trades in
  exists dates : list Z,
    NoDup dates ∧
    (forall day, day ∈ dates <-> day ∈ List.map date trades) ∧
    tradingDays c = length dates ∧
    (length (List.filter (gainOnly trades) dates) <= profitableDays c
     <= length (List.filter (hasGain trades) dates))%nat.
Proof.
  intros c. subst c.
  destruct (profitable_days_list trades) as (Hnd & Hdays & ->).
  set (days := (List.filter _ (map_to_list (dayPnLOf trades))).*1) in *.
  set (dates := elements (list_to_set (List.map date trades) : gset Z)).
  assert (Hdates : forall day, day ∈ dates <-> day ∈ List.map date trades).
  { intros day. subst dates. by rewrite elem_of_elements, elem_of_list_to_set. }
  assert (Hnd' : NoDup dates) by apply NoDup_elements.
  exists dates. split; [exact Hnd'|]. split; [exact Hdates|].
  split; [by destruct (consistency_unfold trades) as [-> _]|]. split.
  - apply NoDup_incl_length.
    + eapply sublist_NoDup; [exact Hnd'|]. apply List_filter_sublist.
    + intros day Hday. apply list_elem_of_In, List.filter_In in Hday as [Hday Hgain].
      apply Hdays. split; [by apply Hdates, list_elem_of_In|].
      by apply gainOnly_total.
  - apply NoDup_incl_length; [exact Hnd|].
    intros day [Hday Hpos]%Hdays. apply list_elem_of_In, List.filter_In.
    split; [by apply list_elem_of_In, Hdates|]. by apply total_hasGain.
Qed.

(** X16.  There are no more profitable days than trading days and no more
    trading days than trades; a list that is not empty has at least one
    trading day and on average at least one trade a day. *)
Theorem consistency_bounds (trades : list Trade) :
  let c := calculateTradingConsistency trades in
  (profitableDays c <= tradingDays c <= length trades)%nat ∧
  match trades with
  | [] => tradingDays c = 0%nat ∧ averageTradesPerDay c == 0
  | _ :: _ => (1 <= tradingDays c)%nat ∧ 1 <= averageTradesPerDay c
  end.
Proof.
  intros c. subst c. destruct (consistency_unfold trades) as [Hdays Hprofit].
  pose proof (tradingDays_le trades) as Hle.
  assert (Hpos : trades <> [] ->
                 (1 <= size (list_to_set (List.map date trades) : gset Z))%nat).
  { destruct trades as [|t trades]; [done|]. intros _.
    destruct (decide (size (list_to_set (List.map date (t :: trades)) : gset Z) = 0%nat))
      as [Hz|]; [|lia].
    apply size_empty_inv in Hz. exfalso.
    apply (not_elem_of_empty (C := gset Z) (date t)). rewrite <- Hz.
    apply elem_of_list_to_set. cbn. apply list_elem_of_here. }
  split.
  - rewrite Hdays, Hprofit. split; [|exact Hle].
    rewrite <- (dayPnLOf_dom trades), size_dom, <- length_map_to_list.
    etrans; [apply filter_length_le|]. by rewrite length_fmap.
  - destruct trades as [|t trades]; [done|].
    specialize (Hpos ltac:(done)). split; [by rewrite Hdays|].
    unfold calculateTradingConsistency. cbn [averageTradesPerDay].
    set (n := size _) in *.
    destruct (0 <? n)%nat eqn:En; [|apply Nat.ltb_ge in En; lia].
    assert (0 < inject_Z (Z.of_nat n)) as Hn by (apply inject_nat_pos; lia).
    apply Qle_shift_div_l; [done|]. rewrite Qmult_1_l.
    apply inject_nat_le. exact Hle.
Qed.

End ConsistencyTheorems.

(** ** [generateHistoricalAnalytics] *)

Section AnalyticsFacts.
Import Types Spec Aggregates Examples HistoricalUtils.
Local Open Scope Q_scope.
Variable tz : Z.

Lemma inMonth_inYear (y m : Z) (t : Trade) :
  inMonth tz y m t
  = inYear tz y t
    && bool_decide ((JS.getMonth tz (JS.Date_parse (date t)) + 1)%Z = m).
Proof.
  unfold inMonth, inYear. apply eq_true_iff_eq.
  rewrite andb_true_iff, !bool_decide_eq_true. tauto.
Qed.

(** Sums over a list of months in which one month is marked. *)
Lemma marked_count_absent (k : Z) (g : Z -> nat) (ms : list Z) :
  k ∉ ms ->
  sum_list (List.map (fun m => ((if bool_decide (k = m) then 1 else 0) + g m)%nat) ms)
  = sum_list (List.map g ms).
Proof.
  induction ms as [|m ms IH]; intros Hk; [done|]. cbn.
  rewrite IH by (intros ?; apply Hk; by apply list_elem_of_further).
  rewrite bool_decide_eq_false_2; [done|].
  intros ->. apply Hk, list_elem_of_here.
Qed.

Lemma marked_count (k : Z) (g : Z -> nat) (ms : list Z) :
  NoDup ms -> k ∈ ms ->
  sum_list (List.map (fun m => ((if bool_decide (k = m) then 1 else 0) + g m)%nat) ms)
  = S (sum_list (List.map g ms)).
Proof.
  induction 1 as [|m ms Hm Hnd IH]; intros Hk; [by apply elem_of_nil in Hk|].
  cbn. apply elem_of_cons in Hk as [->|Hk].
  - rewrite bool_decide_eq_true_2 by done.
    by rewrite marked_count_absent.
  - rewrite bool_decide_eq_false_2 by (by intros ->).
    rewrite IH by done. lia.
Qed.

Lemma marked_sum_absent (k : Z) (c : Q) (g : Z -> Q) (ms : list Z) :
  k ∉ ms ->
  sumOf (fun m => (if bool_decide (k = m) then c else 0) + g m) ms == sumOf g ms.
Proof.
  induction ms as [|m ms IH]; intros Hk; [done|]. cbn [sumOf].
  rewrite IH by (intros ?; apply Hk; by apply list_elem_of_further).
  rewrite bool_decide_eq_false_2; [lra|].
  intros ->. apply Hk, list_elem_of_here.
Qed.

Lemma marked_sum (k : Z) (c : Q) (g : Z -> Q) (ms : list Z) :
  NoDup ms -> k ∈ ms ->
  sumOf (fun m => (if bool_decide (k = m) then c else 0) + g m) ms == c + sumOf g ms.
Proof.
  induction 1 as [|m ms Hm Hnd IH]; intros Hk; [by apply elem_of_nil in Hk|].
  cbn [sumOf]. apply elem_of_cons in Hk as [->|Hk].
  - rewrite bool_decide_eq_true_2 by done.
    rewrite marked_sum_absent by done. lra.
  - rewrite bool_decide_eq_false_2 by (by intros ->).
    rewrite IH by done. lra.
Qed.

Lemma sumOf_ext {A} (f g : A -> Q) (l : list A) :
  (forall x, f x == g x) -> sumOf f l == sumOf g l.
Proof.
  intros H. induction l as [|x l IH]; cbn [sumOf]; [reflexivity|].
  rewrite H, IH. reflexivity.
Qed.

Lemma months_count (y : Z) (l : list Trade) :
  sum_list (List.map (fun m => length (List.filter (inMonth tz y m) l)) (seqZ 1 12))
  = length (List.filter (inYear tz y) l).
Proof.
  induction l as [|t l IH]; [done|].
  cbn [List.filter].
  pose proof (month_of_range (JS.localDay tz (JS.Date_parse (date t)))) as Hk.
  assert (Hm : forall m, inMonth tz y m t
                 = inYear tz y t
                   && bool_decide ((JS.month_of (JS.localDay tz (JS.Date_parse (date t))))
                                   = m)).
  { intros m. rewrite inMonth_inYear. unfold JS.getMonth. do 2 f_equal.
    apply bool_decide_ext. lia. }
  destruct (inYear tz y t) eqn:Ey.
  - cbn [length]. rewrite <- IH. clear IH.
    set (k := JS.month_of _) in *. clearbody k.
    assert (Hs : forall m, length (if inMonth tz y m t
                                   then t :: List.filter (inMonth tz y m) l
                                   else List.filter (inMonth tz y m) l)
                           = ((if bool_decide (k = m) then 1 else 0)
                              + length (List.filter (inMonth tz y m) l))%nat).
    { intros m. rewrite Hm. cbn [andb]. by destruct (bool_decide (k = m)). }
    rewrite (List.map_ext _ _ Hs).
    apply (marked_count k (fun m => length (List.filter (inMonth tz y m) l)));
      [apply NoDup_seqZ|apply elem_of_seqZ; lia].
  - rewrite <- IH. f_equal. apply List.map_ext. intros m. by rewrite Hm.
Qed.

Lemma months_sum (f : Trade -> Q) (y : Z) (l : list Trade) :
  sumOf (fun m => sumOf f (List.filter (inMonth tz y m) l)) (seqZ 1 12)
  == sumOf f (List.filter (inYear tz y) l).
Proof.
  induction l as [|t l IH]; [done|].
  cbn [List.filter].
  pose proof (month_of_range (JS.localDay tz (JS.Date_parse (date t)))) as Hk.
  assert (Hm : forall m, inMonth tz y m t
                 = inYear tz y t
                   && bool_decide ((JS.month_of (JS.localDay tz (JS.Date_parse (date t))))
                                   = m)).
  { intros m. rewrite inMonth_inYear. unfold JS.getMonth. do 2 f_equal.
    apply bool_decide_ext. lia. }
  destruct (inYear tz y t) eqn:Ey.
  - cbn [sumOf]. rewrite <- IH. clear IH.
    set (k := JS.month_of _) in *. clearbody k.
    assert (Hs : forall m, sumOf f (if inMonth tz y m t
                                    then t :: List.filter (inMonth tz y m) l
                                    else List.filter (inMonth tz y m) l)
                           == (if bool_decide (k = m) then f t else 0)
                              + sumOf f (List.filter (inMonth tz y m) l)).
    { intros m. rewrite Hm. cbn [andb].
      destruct (bool_decide (k = m)); cbn [sumOf]; lra. }
    rewrite (sumOf_ext _ _ _ Hs).
    apply (marked_sum k (f t) (fun m => sumOf f (List.filter (inMonth tz y m) l)));
      [apply NoDup_seqZ|apply elem_of_seqZ; lia].
  - rewrite <- IH. clear IH.
    assert (Hs : forall m, (if inMonth tz y m t
                            then t :: List.filter (inMonth tz y m) l
                            else List.filter (inMonth tz y m) l)
                           = List.filter (inMonth tz y m) l).
    { intros m. by rewrite Hm. }
    clear Hm. induction (seqZ 1 12) as [|m ms IHm]; cbn [sumOf]; [reflexivity|].
    rewrite Hs, IHm. reflexivity.
Qed.

Lemma sumOf_map {A B} (f : B -> Q) (g : A -> B) (l : list A) :
  sumOf f (List.map g l) = sumOf (fun x => f (g x)) l.
Proof. induction l as [|x l IH]; cbn [List.map sumOf]; [done|]. by rewrite IH. Qed.

Lemma sumOf_ext_in {A} (f g : A -> Q) (l : list A) :
  (forall x, x ∈ l -> f x == g x) -> sumOf f l == sumOf g l.
Proof.
  induction l as [|x l IH]; intros H; cbn [sumOf]; [reflexivity|].
  rewrite (H x) by apply list_elem_of_here.
  rewrite IH; [reflexivity|]. intros z Hz. apply H. by apply list_elem_of_further.
Qed.

Lemma monthlyBreakdown_entries (user : string) (trades : list Trade) (range : DateRange) :
  ha_monthlyBreakdown (generateHistoricalAnalytics tz user trades yearly range)
  = Some (List.map
            (breakdownEntry tz range
               (groupTradesByMonth tz (filterTradesByDateRange trades range)))
            (seqZ 1 12)).
Proof.
  cbn [generateHistoricalAnalytics ha_monthlyBreakdown].
  unfold monthlyBreakdownOf. by rewrite push_loop_map.
Qed.

(** The months of the yearly breakdown add up to the trades of the year of
    the start date. *)
Lemma monthlyBreakdown_sums (trades : list Trade) (range : DateRange) :
  let filtered := filterTradesByDateRange trades range in
  let y := JS.getFullYear tz (JS.Date_parse (startDate range)) in
  let breakdown :=
    List.map (breakdownEntry tz range (groupTradesByMonth tz filtered)) (seqZ 1 12) in
  sum_list (List.map mb_trades breakdown) = length (List.filter (inYear tz y) filtered)
  ∧ sumOf mb_pnl breakdown == sumOf netPL (List.filter (inYear tz y) filtered).
Proof.
  intros filtered y breakdown. subst breakdown. split.
  - rewrite <- (months_count y filtered), List.map_map. f_equal.
    apply List.map_ext_in. intros m Hm%list_elem_of_In%elem_of_seqZ.
    by destruct (breakdownEntry_month tz range filtered m ltac:(lia)) as (_ & _ & -> & _).
  - rewrite <- (months_sum netPL y filtered), sumOf_map.
    apply sumOf_ext_in. intros m Hm%elem_of_seqZ.
    destruct (breakdownEntry_month tz range filtered m ltac:(lia)) as (_ & _ & _ & -> & _).
    apply totalPnL_sum.
Qed.

End AnalyticsFacts.

Section AnalyticsTheorems.
Import Types Spec Aggregates Examples HistoricalUtils.
Local Open Scope Q_scope.

(** X17.  The trade counts of the twelve months of the yearly breakdown
    add up to the number of the trades of the range that the local-time
    getters read as of the year they read from its start date.  The trades
    of the range read as of another year are in the statistics of the
    report and in no month. *)
Theorem yearly_breakdown_counts
    (tz : Z) (user : string) (trades : list Trade) (range : DateRange) :
  let report := generateHistoricalAnalytics tz user trades yearly range in
  let y := JS.getFullYear tz (JS.Date_parse (startDate range)) in
  let ofYear := List.filter (inYear tz y) (filterTradesByDateRange trades range) in
  exists breakdown : list MonthlyBreakdownEntry,
    ha_monthlyBreakdown report = Some breakdown ∧
    sum_list (List.map mb_trades breakdown) = length ofYear ∧
    (length ofYear <= totalTrades (ha_stats report))%nat ∧
    (sum_list (List.map mb_trades breakdown) = totalTrades (ha_stats report)
     <-> ofYear = filterTradesByDateRange trades range).
Proof.
  intros report y ofYear. subst report. eexists.
  split; [apply monthlyBreakdown_entries|].
  destruct (monthlyBreakdown_sums tz trades range) as [Hn _].
  split; [exact Hn|].
  cbn [generateHistoricalAnalytics ha_stats calculateTradeStats totalTrades].
  split; [apply filter_length_le|]. cbv zeta in Hn. rewrite Hn. fold y. fold ofYear.
  split; [|by intros ->].
  subst ofYear. generalize (filterTradesByDateRange trades range). intros l.
  induction l as [|t l IH]; [done|]. cbn [List.filter length].
  pose proof (filter_length_le (inYear tz y) l) as Hle.
  destruct (inYear tz y t); cbn [length]; intros E; [|lia].
  f_equal. apply IH. lia.
Qed.

(** X18.  The top symbols of the report are the first ten of the ranking of
    [calculateSymbolPerformance] on the trades of the range, all of them
    when there are fewer: no symbol left out has a greater total than one
    that is listed. *)
Theorem analytics_top_symbols (tz : Z) (user : string) (trades : list Trade)
    (timeframe : Timeframe) (range : DateRange) :
  let ranking := calculateSymbolPerformance (filterTradesByDateRange trades range) in
  let top := ha_topSymbols (generateHistoricalAnalytics tz user trades timeframe range) in
  length top = Nat.min 10 (length ranking) ∧
  exists rest : list SymbolPerformance,
    ranking = top ++ rest ∧
    forall e e', e ∈ top -> e' ∈ rest -> sp_pnl e' <= sp_pnl e.
Proof.
  intros ranking top. subst top.
  cbn [generateHistoricalAnalytics ha_topSymbols]. fold ranking.
  split; [apply length_take|].
  exists (drop 10 ranking). split; [by rewrite take_drop|].
  intros e e' He He'.
  pose proof (calculateSymbolPerformance_sorted (filterTradesByDateRange trades range))
    as Hs.
  fold ranking in Hs. rewrite <- (take_drop 10 ranking) in Hs.
  pose proof (StronglySorted_app_1_elem_of _ _ _ _ _ Hs He He') as Hle.
  cbn in Hle. lra.
Qed.

(** A range that holds none of the trades gives the report of no
    trades: every number of it is [0] and it lists no symbol. *)
Theorem analytics_empty_range (tz : Z) (user : string) (trades : list Trade)
    (timeframe : Timeframe) (range : DateRange) :
  Forall (fun t => ~ (startDate range <= date t <= endDate range)%Z) trades ->
  let report := generateHistoricalAnalytics tz user trades timeframe range in
  ha_stats report = calculateTradeStats [] ∧
  totalTrades (ha_stats report) = 0%nat ∧
  totalPnL (ha_stats report) = 0 ∧
  winRate (ha_stats report) = 0 ∧
  averagePnL (ha_stats report) = 0 ∧
  bestTrade (ha_stats report) = 0 ∧
  worstTrade (ha_stats report) = 0 ∧
  ha_maxDrawdown report = 0 ∧
  tradingDays (ha_consistency report) = 0%nat ∧
  averageTradesPerDay (ha_consistency report) = 0 ∧
  profitableDays (ha_consistency report) = 0%nat ∧
  ha_topSymbols report = [].
Proof.
  intros Hout report.
  assert (Hnone : filterTradesByDateRange trades range = []).
  { apply filter_none. intros t Ht. rewrite Forall_forall in Hout.
    specialize (Hout t Ht). unfold JS.Date_parse, JS.msPerDay.
    apply not_true_iff_false. rewrite andb_true_iff, !Z.leb_le. lia. }
  subst report. unfold generateHistoricalAnalytics. rewrite Hnone.
  cbn [ha_stats ha_maxDrawdown ha_consistency ha_topSymbols].
  repeat split.
Qed.

Lemma analytics_empty_range_witness :
  Forall (fun t => ~ (startDate {| startDate := 100; endDate := 200 |} <= date t
                      <= endDate {| startDate := 100; endDate := 200 |})%Z) threeDays
  ∧ ha_topSymbols
      (generateHistoricalAnalytics 0 "u" threeDays monthly
         {| startDate := 100; endDate := 200 |}) = [].
Proof.
  assert (H : Forall (fun t => ~ (startDate {| startDate := 100; endDate := 200 |}
                                  <= date t
                                  <= endDate {| startDate := 100; endDate := 200 |})%Z)
                threeDays).
  { repeat constructor; cbn; lia. }
  split; [exact H|].
  apply (analytics_empty_range 0 "u" threeDays monthly
           {| startDate := 100; endDate := 200 |} H).
Defined.

End AnalyticsTheorems.

(** ** The service: what [updateMonthlyTargetProgress] leaves alone *)
Section ServiceFacts.
Import Types Spec Aggregates Examples HistoricalUtils MonthlyTargetsService.
Local Open Scope Q_scope.

(** A query reads and never rejects. *)
Lemma getMonthlyTarget_reads (user : string) (y m : Z) (w : World) :
  exists r : option MonthlyTarget, getMonthlyTarget user y m w = Some (r, w).
Proof. by eexists. Qed.

(** The target a query finds is one of the user and of the month. *)
Lemma getMonthlyTarget_matches (user : string) (y m : Z) (w w' : World)
    (target : MonthlyTarget) :
  getMonthlyTarget user y m w = Some (Some target, w') ->
  userId (data target) = user ∧ year (data target) = y ∧ month (data target) = m.
Proof.
  unfold getMonthlyTarget, getDocs, mbind, Async_bind, mret, Async_ret.
  intros H. injection H as H _.
  apply head_Some_elem_of in H. apply list_elem_of_fmap in H as ([i d] & -> & H).
  apply list_elem_of_In, List.filter_In in H as [_ H]. cbn [data].
  apply andb_true_iff in H as [H H3]. apply andb_true_iff in H as [H1 H2].
  by apply bool_decide_eq_true in H1, H2, H3.
Qed.

(** When no document matches, the query finds none; when one matches, it
    finds one. *)
Lemma getMonthlyTarget_none (user : string) (y m : Z) (w : World) :
  getMonthlyTarget user y m w = Some (None, w)
  <-> forall i d, targets w !! i = Some d ->
        ~ (userId d = user ∧ year d = y ∧ month d = m).
Proof.
  unfold getMonthlyTarget, getDocs, mbind, Async_bind, mret, Async_ret.
  set (p := fun '(i, d) => _ && _ && _).
  split.
  - intros H i d Hi [H1 [H2 H3]]. injection H as H.
    apply head_None in H. apply fmap_nil_inv in H.
    assert (Hin : (i, d) ∈ List.filter p (map_to_list (targets w))).
    { apply filter_nonempty_elem; [by apply elem_of_map_to_list|].
      subst p. cbn. by rewrite !bool_decide_eq_true_2. }
    rewrite H in Hin. by apply elem_of_nil in Hin.
  - intros H. do 2 f_equal. rewrite filter_none; [done|].
    intros [i d] Hin%elem_of_map_to_list. apply not_true_iff_false. intros Hp.
    apply (H i d Hin). subst p. cbn in Hp.
    apply andb_true_iff in Hp as [Hp H3]. apply andb_true_iff in Hp as [H1 H2].
    by apply bool_decide_eq_true in H1, H2, H3.
Qed.

(** The window of dates the progress of a month is computed from. *)
Lemma monthTradesOf_window (tz y m : Z) (trades : list Trade) :
  (1 <= m <= 12)%Z -> (100 <= y)%Z -> (-1440 < tz <= 1440)%Z ->
  let shift := (if 0 <? tz then 1 else 0)%Z in
  monthTradesOf tz y m trades
  = datedBetween (monthFirstDay y m - shift) (monthLastDay y m - shift) trades.
Proof.
  intros Hm Hy Htz shift. unfold monthTradesOf, filterTradesByDateRange, datedBetween.
  apply List.filter_ext. intros t. cbn [startDate endDate].
  unfold monthFirstDay, monthLastDay, JS.toISODate, JS.Date_local, JS.Date_parse.
  assert (Hyr : ((0 <=? y) && (y <=? 99))%Z = false).
  { apply andb_false_iff. right. apply Z.leb_gt. lia. }
  rewrite Hyr.
  replace ((m - 1) / 12)%Z with 0%Z by (symmetry; apply Z.div_small; lia).
  replace ((m - 1) mod 12 + 1)%Z with m by (rewrite Z.mod_small; lia).
  rewrite Z.add_0_r.
  set (first := JS.days_from_civil y m 1).
  set (next := JS.days_from_civil (y + m / 12) (m mod 12 + 1) 1).
  clearbody first next.
  assert (Hs : forall D : Z,
             ((D * JS.msPerDay - tz * JS.msPerMinute) / JS.msPerDay = D - shift)%Z).
  { intros D. subst shift. unfold JS.msPerDay, JS.msPerMinute.
    destruct (0 <? tz)%Z eqn:E; [apply Z.ltb_lt in E|apply Z.ltb_ge in E];
      Z.div_mod_to_equations; lia. }
  replace (first + 1 - 1)%Z with first by lia.
  replace (next + 0 - 1)%Z with (next - 1)%Z by lia.
  rewrite !Hs. apply eq_true_iff_eq.
  rewrite andb_true_iff, !Z.leb_le, bool_decide_eq_true.
  unfold JS.msPerDay. lia.
Qed.

Lemma List_filter_perm {A} (p : A -> bool) (l1 l2 : list A) :
  l1 ≡ₚ l2 -> List.filter p l1 ≡ₚ List.filter p l2.
Proof.
  induction 1 as [|x l1 l2 _ IH|x y l|l1 l2 l3 _ IH1 _ IH2]; cbn.
  - done.
  - destruct (p x); [by constructor|done].
  - destruct (p x), (p y); try done. apply Permutation_swap.
  - by etrans.
Qed.

(** Once a document of the user and the month is added to a collection
    without one, the query finds that document. *)
Lemma getMonthlyTarget_added (user : string) (y m : Z) (w : World)
    (i : string) (d : TargetDoc) :
  getMonthlyTarget user y m w = Some (None, w) ->
  targets w !! i = None ->
  userId d = user -> year d = y -> month d = m ->
  let w' := {| targets := <[i := d]> (targets w); now := now w |} in
  getMonthlyTarget user y m w' = Some (Some {| id := i; data := d |}, w').
Proof.
  intros Hnone Hi Hu Hy Hm w'.
  unfold getMonthlyTarget, getDocs, mbind, Async_bind, mret, Async_ret in *.
  injection Hnone as Hnone. apply head_None, fmap_nil_inv in Hnone.
  do 2 f_equal. cbn [targets].
  set (p := fun '(i, d) => _ && _ && _) in *.
  assert (Hp : List.filter p (map_to_list (<[i := d]> (targets w))) ≡ₚ [(i, d)]).
  { rewrite (List_filter_perm p _ _ (map_to_list_insert (targets w) i d Hi)).
    cbn [List.filter]. rewrite Hnone.
    assert (p (i, d) = true) as ->; [|done].
    subst p. cbn. by rewrite !bool_decide_eq_true_2. }
  apply Permutation_singleton_r in Hp. subst w'. cbn [targets]. by rewrite Hp.
Qed.

(** The target [getCurrentMonthTarget] makes when there is none. *)
Lemma getCurrentMonthTarget_unfold (tz : Z) (user : string) (w : World) :
  let y := JS.getFullYear tz (now w) in
  let m := (JS.getMonth tz (now w) + 1)%Z in
  getCurrentMonthTarget tz user w
  = match getMonthlyTarget user y m w with
    | Some (Some found, w1) => Some (Some found, w1)
    | Some (None, w1) =>
      (createMonthlyTarget
         {| n_userId := user; n_year := y; n_month := m;
            n_monthName := getMonthName m +:+ " " +:+ pretty y;
            n_pnlTarget := 1000; n_tradesTarget := 20; n_winRateTarget := 60;
            n_currentPnL := 0; n_currentTrades := 0; n_currentWinRate := 0;
            n_isCompleted := false; n_completedAt := None |}
       ≫= getMonthlyTargetById) w1
    | None => None
    end.
Proof.
  intros y m. unfold getCurrentMonthTarget, newDate, getCurrentMonth.
  unfold mbind at 1. unfold Async_bind at 1. fold y m.
  unfold mbind at 1. unfold Async_bind at 1.
  by destruct (getMonthlyTarget user y m w) as [[[found|] w1]|].
Qed.

(** One run of [getCurrentMonthTarget]. *)
Lemma getCurrentMonthTarget_run (tz : Z) (user : string) (w : World) :
  let y := JS.getFullYear tz (now w) in
  let m := (JS.getMonth tz (now w) + 1)%Z in
  match getMonthlyTarget user y m w with
  | Some (Some found, _) => getCurrentMonthTarget tz user w = Some (Some found, w)
  | _ =>
    let i := fresh (dom (targets w)) in
    let d := {| userId := user; year := y; month := m;
                monthName := getMonthName m +:+ " " +:+ pretty y;
                pnlTarget := 1000; tradesTarget := 20; winRateTarget := 60;
                currentPnL := 0; currentTrades := 0; currentWinRate := 0;
                isCompleted := false; completedAt := None;
                createdAt := now w; updatedAt := now w |} in
    getCurrentMonthTarget tz user w
    = Some (Some {| id := i; data := d |},
            {| targets := <[i := d]> (targets w); now := now w |})
  end.
Proof.
  intros y m. pose proof (getCurrentMonthTarget_unfold tz user w) as Hrun.
  cbv zeta in Hrun. fold y m in Hrun.
  destruct (getMonthlyTarget_reads user y m w) as [r Hget].
  rewrite Hget in Hrun |- *.
  destruct r as [found|]; [done|].
  intros i d. rewrite Hrun.
  unfold createMonthlyTarget, newDate, addDoc, getMonthlyTargetById, getDoc.
  unfold mbind, Async_bind.
  cbn [targets now n_userId n_year n_month n_monthName n_pnlTarget n_tradesTarget
       n_winRateTarget n_currentPnL n_currentTrades n_currentWinRate n_isCompleted
       n_completedAt].
  fold i. fold d. by rewrite lookup_insert_eq.
Qed.

End ServiceFacts.

Section ServiceTheorems.
Import Types Spec Aggregates Examples HistoricalUtils MonthlyTargetsService.
Local Open Scope Q_scope.

(** X19.  [updateMonthlyTargetProgress] always resolves, and what it writes
    is confined: the clock and the set of documents stay as they are, no
    document loses or changes its user, year, month, name, goals or
    creation time, and a document that changes at all is a target of the
    user and the month of the call. *)
Theorem progress_update_frame (tz : Z) (user : string) (y m : Z)
    (trades : list Trade) (w : World) :
  exists w' : World,
    updateMonthlyTargetProgress tz user y m trades w = Some (tt, w') ∧
    now w' = now w ∧
    dom (targets w') = dom (targets w) ∧
    forall (i : string) (d : TargetDoc),
      targets w !! i = Some d ->
      exists d' : TargetDoc,
        targets w' !! i = Some d' ∧
        userId d' = userId d ∧ year d' = year d ∧ month d' = month d ∧
        monthName d' = monthName d ∧ pnlTarget d' = pnlTarget d ∧
        tradesTarget d' = tradesTarget d ∧ winRateTarget d' = winRateTarget d ∧
        createdAt d' = createdAt d ∧
        (d' <> d -> userId d = user ∧ year d = y ∧ month d = m).
Proof.
  destruct (getMonthlyTarget_reads user y m w) as [[target|] Hget].
  - destruct (getMonthlyTarget_found _ _ _ _ _ _ Hget) as [_ Hdoc].
    destruct (getMonthlyTarget_matches _ _ _ _ _ _ Hget) as (Hu & Hy & Hm).
    eexists. split; [by apply updateMonthlyTargetProgress_writes|].
    cbn [now targets]. split; [done|].
    split; [by apply dom_insert_lookup_L|].
    intros i d Hi. destruct (decide (i = id target)) as [->|Hne].
    + rewrite lookup_insert_eq. eexists. split; [done|].
      rewrite Hdoc in Hi. injection Hi as <-. by repeat split.
    + rewrite lookup_insert_ne by done. exists d. by repeat split.
  - exists w. split; [by apply updateMonthlyTargetProgress_no_target|].
    do 2 (split; [done|]). intros i d Hi. exists d. by repeat split.
Qed.

(** X20.  The trades [updateMonthlyTargetProgress] counts for a month are
    those dated from the first to the last day of the month only at or west
    of UTC.  East of UTC the window lies one day earlier: it takes in the
    last day of the month before and leaves out the last day of the month. *)
Theorem progress_month_window (tz : Z) (user : string) (y m : Z)
    (trades : list Trade) (w : World) (target : MonthlyTarget) :
  getMonthlyTarget user y m w = Some (Some target, w) ->
  (1 <= m <= 12)%Z -> (100 <= y)%Z -> (-1440 < tz <= 1440)%Z ->
  let shift := (if 0 <? tz then 1 else 0)%Z in
  let counted :=
    datedBetween (monthFirstDay y m - shift) (monthLastDay y m - shift) trades in
  exists doc' : TargetDoc,
    updateMonthlyTargetProgress tz user y m trades w
    = Some (tt, {| targets := <[id target := doc']> (targets w); now := now w |}) ∧
    currentTrades doc' = inject_Z (Z.of_nat (length counted)) ∧
    currentPnL doc' == sumOf netPL counted ∧
    currentWinRate doc' = winRate (calculateTradeStats counted).
Proof.
  intros Hget Hm Hy Htz shift counted.
  eexists. split; [by apply updateMonthlyTargetProgress_writes|].
  cbn [currentTrades currentPnL currentWinRate].
  rewrite (monthTradesOf_window tz y m trades Hm Hy Htz). fold shift counted.
  split; [done|]. split; [apply totalPnL_sum|done].
Qed.

Lemma progress_month_window_witness :
  let target := {| id := "t1"; data := januaryTarget |} in
  let trades := [mkTrade "a" 19722 100; mkTrade "b" 19753 (-50)] in
  getMonthlyTarget "u1" 2024 1 world0 = Some (Some target, world0) ∧
  (1 <= 1 <= 12)%Z ∧ (100 <= 2024)%Z ∧ (-1440 < 60 <= 1440)%Z ∧
  datedBetween (monthFirstDay 2024 1 - 1) (monthLastDay 2024 1 - 1) trades
  = [mkTrade "a" 19722 100] ∧
  exists doc' : TargetDoc,
    updateMonthlyTargetProgress 60 "u1" 2024 1 trades world0
    = Some (tt, {| targets := <[id target := doc']> (targets world0);
                   now := now world0 |}) ∧
    currentTrades doc'
    = inject_Z (Z.of_nat (length
        (datedBetween (monthFirstDay 2024 1 - 1) (monthLastDay 2024 1 - 1) trades))) ∧
    currentPnL doc'
    == sumOf netPL
         (datedBetween (monthFirstDay 2024 1 - 1) (monthLastDay 2024 1 - 1) trades) ∧
    currentWinRate doc'
    = winRate (calculateTradeStats
        (datedBetween (monthFirstDay 2024 1 - 1) (monthLastDay 2024 1 - 1) trades)).
Proof.
  intros target trades.
  assert (Hget : getMonthlyTarget "u1" 2024 1 world0 = Some (Some target, world0))
    by reflexivity.
  split; [exact Hget|]. split; [lia|]. split; [lia|]. split; [lia|].
  split; [reflexivity|].
  apply (progress_month_window 60 "u1" 2024 1 trades world0 target Hget);
    lia.
Defined.

(** X21.  [createMonthlyTarget] always resolves, to an id the collection
    did not hold; it leaves the other documents as they are, and
    [getMonthlyTargetById] on that id then finds the target as it was
    given, created and updated at the instant of the call;
    [deleteMonthlyTarget] on that id gives back the collection as it was
    before. *)
Theorem createMonthlyTarget_then_get (target : NewTarget) (w : World) :
  exists (i : string) (w' : World) (t : MonthlyTarget),
    createMonthlyTarget target w = Some (i, w') ∧
    targets w !! i = None ∧
    now w' = now w ∧
    (forall j : string, j <> i -> targets w' !! j = targets w !! j) ∧
    getMonthlyTargetById i w' = Some (Some t, w') ∧
    id t = i ∧
    userId (data t) = n_userId target ∧ year (data t) = n_year target ∧
    month (data t) = n_month target ∧ monthName (data t) = n_monthName target ∧
    pnlTarget (data t) = n_pnlTarget target ∧
    tradesTarget (data t) = n_tradesTarget target ∧
    winRateTarget (data t) = n_winRateTarget target ∧
    currentPnL (data t) = n_currentPnL target ∧
    currentTrades (data t) = n_currentTrades target ∧
    currentWinRate (data t) = n_currentWinRate target ∧
    isCompleted (data t) = n_isCompleted target ∧
    completedAt (data t) = n_completedAt target ∧
    createdAt (data t) = now w ∧ updatedAt (data t) = now w ∧
    deleteMonthlyTarget i w' = Some (tt, w).
Proof.
  assert (Hfresh : targets w !! fresh (dom (targets w)) = None)
    by apply not_elem_of_dom, is_fresh.
  do 3 eexists. split; [reflexivity|].
  split; [exact Hfresh|].
  split; [done|]. split.
  - intros j Hj. cbn [targets]. by rewrite lookup_insert_ne.
  - unfold getMonthlyTargetById, getDoc. cbn [targets].
    rewrite lookup_insert_eq. cbn [fmap option_fmap option_map id data].
    do 15 (split; [done|]).
    unfold deleteMonthlyTarget, deleteDoc. cbn [targets now].
    rewrite delete_insert_id by exact Hfresh. by destruct w.
Qed.

(** [deleteMonthlyTarget] always resolves; afterwards
    [getMonthlyTargetById] finds no target under the id, the other
    documents are as they were, and deleting an id the collection does not
    hold changes nothing. *)
Theorem deleteMonthlyTarget_removes (i : string) (w : World) :
  exists w' : World,
    deleteMonthlyTarget i w = Some (tt, w') ∧
    getMonthlyTargetById i w' = Some (None, w') ∧
    now w' = now w ∧
    (forall j : string, j <> i -> targets w' !! j = targets w !! j) ∧
    match targets w !! i with
    | Some _ => dom (targets w') = dom (targets w) ∖ {[i]}
    | None => w' = w
    end.
Proof.
  eexists. split; [reflexivity|]. cbn [targets now].
  split; [|split; [done|split]].
  - unfold getMonthlyTargetById, getDoc. cbn [targets]. by rewrite lookup_delete_eq.
  - intros j Hj. by rewrite lookup_delete_ne.
  - destruct (targets w !! i) eqn:E.
    + apply dom_delete_L.
    + rewrite delete_id by done. by destruct w.
Qed.

(** X22.  [getCurrentMonthTarget] always resolves to a target of the user
    for the year and month the clock shows, and that target is in the
    collection afterwards.  When the query finds one, it is returned and
    nothing is written; otherwise exactly one document is added, under a
    new id, with the goals 1000, 20 and 60, no progress and not completed. *)
Theorem getCurrentMonthTarget_get_or_create (tz : Z) (user : string) (w : World) :
  let y := JS.getFullYear tz (now w) in
  let m := (JS.getMonth tz (now w) + 1)%Z in
  exists (t : MonthlyTarget) (w' : World),
    getCurrentMonthTarget tz user w = Some (Some t, w') ∧
    now w' = now w ∧
    targets w' !! id t = Some (data t) ∧
    userId (data t) = user ∧ year (data t) = y ∧ month (data t) = m ∧
    match getMonthlyTarget user y m w with
    | Some (Some found, _) => t = found ∧ w' = w
    | _ =>
      targets w !! id t = None ∧
      targets w' = <[id t := data t]> (targets w) ∧
      monthName (data t) = getMonthName m +:+ " " +:+ pretty y ∧
      pnlTarget (data t) = 1000 ∧ tradesTarget (data t) = 20 ∧
      winRateTarget (data t) = 60 ∧
      currentPnL (data t) = 0 ∧ currentTrades (data t) = 0 ∧
      currentWinRate (data t) = 0 ∧
      isCompleted (data t) = false ∧ completedAt (data t) = None ∧
      createdAt (data t) = now w
    end.
Proof.
  intros y m. pose proof (getCurrentMonthTarget_run tz user w) as Hrun.
  cbv zeta in Hrun. fold y m in Hrun.
  destruct (getMonthlyTarget_reads user y m w) as [r Hget].
  rewrite Hget in Hrun |- *. destruct r as [found|].
  - exists found, w. split; [exact Hrun|]. split; [done|].
    destruct (getMonthlyTarget_found _ _ _ _ _ _ Hget) as [_ Hdoc].
    destruct (getMonthlyTarget_matches _ _ _ _ _ _ Hget) as (Hu & Hy & Hm).
    by repeat split.
  - do 2 eexists. split; [exact Hrun|]. cbn [now targets id data].
    split; [done|]. split; [by rewrite lookup_insert_eq|].
    do 3 (split; [done|]).
    split; [apply not_elem_of_dom, is_fresh|]. by repeat split.
Qed.

(** X23.  Asking again gives the same target and creates nothing more:
    [getCurrentMonthTarget] run in the world a first run leaves resolves to
    the same target and leaves that world as it is. *)
Theorem getCurrentMonthTarget_again (tz : Z) (user : string) (w w' : World)
    (r : option MonthlyTarget) :
  getCurrentMonthTarget tz user w = Some (r, w') ->
  getCurrentMonthTarget tz user w' = Some (r, w').
Proof.
  intros H1. pose proof (getCurrentMonthTarget_run tz user w) as Hrun.
  cbv zeta in Hrun.
  set (y := JS.getFullYear tz (now w)) in *.
  set (m := (JS.getMonth tz (now w) + 1)%Z) in *.
  destruct (getMonthlyTarget_reads user y m w) as [found Hget].
  rewrite Hget in Hrun. destruct found as [found|].
  - rewrite Hrun in H1. injection H1 as <- <-. exact Hrun.
  - rewrite Hrun in H1. injection H1 as <- <-.
    set (i := fresh (dom (targets w))) in *.
    set (d := {| userId := user; year := y |}) in *.
    pose proof (getMonthlyTarget_added user y m w i d Hget) as Hadd.
    cbv zeta in Hadd.
    specialize (Hadd ltac:(apply not_elem_of_dom, is_fresh) eq_refl eq_refl eq_refl).
    set (w' := {| targets := <[i := d]> (targets w); now := now w |}) in *.
    pose proof (getCurrentMonthTarget_run tz user w') as Hrun'.
    cbv zeta in Hrun'. change (now w') with (now w) in Hrun'. fold y m in Hrun'.
    by rewrite Hadd in Hrun'.
Qed.

Lemma getCurrentMonthTarget_again_witness :
  exists (r : option MonthlyTarget) (w' : World),
    getCurrentMonthTarget 0 "u2" world0 = Some (r, w') ∧
    targets w' !! "t1" = Some januaryTarget ∧
    size (targets w') = 2%nat ∧
    getCurrentMonthTarget 0 "u2" w' = Some (r, w').
Proof.
  do 2 eexists.
  assert (H : getCurrentMonthTarget 0 "u2" world0
              = Some (Some {| id := fresh (dom (targets world0));
                              data := {| userId := "u2"; year := 1970; month := 1;
                                         monthName := "January 1970";
                                         pnlTarget := 1000; tradesTarget := 20;
                                         winRateTarget := 60;
                                         currentPnL := 0; currentTrades := 0;
                                         currentWinRate := 0;
                                         isCompleted := false; completedAt := None;
                                         createdAt := 1000; updatedAt := 1000 |} |},
                      {| targets :=
                           <[fresh (dom (targets world0)) :=
                               {| userId := "u2"; year := 1970; month := 1;
                                  monthName := "January 1970";
                                  pnlTarget := 1000; tradesTarget := 20;
                                  winRateTarget := 60;
                                  currentPnL := 0; currentTrades := 0;
                                  currentWinRate := 0;
                                  isCompleted := false; completedAt := None;
                                  createdAt := 1000; updatedAt := 1000 |}]>
                             (targets world0);
                         now := 1000 |})) by reflexivity.
  split; [exact H|]. split; [reflexivity|]. split; [reflexivity|].
  exact (getCurrentMonthTarget_again 0 "u2" world0 _ _ H).
Defined.

End ServiceTheorems.

(** ** The queries with [orderBy] and the summary of a year *)
Section SortFactsR.
Context {A : Type} (cmp : A -> A -> Q) (R : A -> A -> Prop).
Hypothesis cmp_R : forall a b, JS.leb (cmp a b) 0 = true <-> R a b.
Hypothesis R_total : forall a b, R a b ∨ R b a.
Hypothesis R_trans : forall a b c, R a b -> R b c -> R a c.

Lemma sort_insert_sorted_R (x : A) (l : list A) :
  StronglySorted R l -> StronglySorted R (JS.sort_insert cmp x l).
Proof.
  induction l as [|y l IH]; intros Hs; simpl.
  - repeat constructor.
  - apply StronglySorted_inv in Hs as [Hl Hy].
    destruct (JS.leb (cmp x y) 0) eqn:E.
    + apply cmp_R in E. constructor; [by constructor|].
      constructor; [exact E|].
      eapply Forall_impl; [exact Hy|]. intros z Hz. by eapply R_trans.
    + assert (Hyx : R y x).
      { destruct (R_total x y) as [H|H]; [|done]. apply cmp_R in H. congruence. }
      constructor; [by apply IH|].
      rewrite (sort_insert_perm cmp x l). constructor; [exact Hyx | exact Hy].
Qed.

Lemma Array_sort_sorted_R (l : list A) : StronglySorted R (JS.Array_sort cmp l).
Proof.
  induction l as [|x l IH]; simpl; [constructor|].
  by apply sort_insert_sorted_R.
Qed.
End SortFactsR.

Section QueryFacts.
Import Types Spec Aggregates Examples HistoricalUtils MonthlyTargetsService.
Local Open Scope Q_scope.

(** What a query returns: each matching document of the collection, once. *)
Lemma getDocs_spec (matches : TargetDoc -> bool) (w : World) :
  exists docs : list MonthlyTarget,
    getDocs matches w = Some (docs, w) ∧
    NoDup (id <$> docs) ∧
    forall t : MonthlyTarget,
      t ∈ docs <-> targets w !! id t = Some (data t) ∧ matches (data t) = true.
Proof.
  eexists. split; [reflexivity|]. split.
  - rewrite <- list_fmap_compose.
    eapply sublist_NoDup; [apply (NoDup_fst_map_to_list (targets w))|].
    erewrite (list_fmap_ext _ fst); [|by intros ? [i d]].
    apply fmap_sublist. apply List_filter_sublist.
  - intros t. rewrite list_elem_of_fmap. split.
    + intros ([i d] & -> & Hin). cbn [id data].
      apply list_elem_of_In, List.filter_In in Hin as [Hin Hp].
      by apply list_elem_of_In, elem_of_map_to_list in Hin.
    + intros [Hdoc Hp]. exists (id t, data t). split; [by destruct t|].
      apply filter_nonempty_elem; [by apply elem_of_map_to_list|done].
Qed.

Lemma getDocsOrdered_spec (matches : TargetDoc -> bool)
    (cmp : MonthlyTarget -> MonthlyTarget -> Q) (w : World) :
  exists docs sorted : list MonthlyTarget,
    getDocs matches w = Some (docs, w) ∧
    getDocsOrdered matches cmp w = Some (sorted, w) ∧
    sorted = JS.Array_sort cmp docs ∧
    NoDup (id <$> sorted) ∧
    forall t : MonthlyTarget,
      t ∈ sorted <-> targets w !! id t = Some (data t) ∧ matches (data t) = true.
Proof.
  destruct (getDocs_spec matches w) as (docs & Hrun & Hnd & Hin).
  exists docs, (JS.Array_sort cmp docs).
  split; [exact Hrun|]. split.
  { unfold getDocsOrdered, mbind, Async_bind. by rewrite Hrun. }
  split; [done|]. pose proof (Array_sort_perm cmp docs) as Hp. split.
  - by rewrite Hp.
  - intros t. by rewrite Hp.
Qed.

Lemma byMonthAscending_key (a b : MonthlyTarget) :
  JS.leb (byMonthAscending a b) 0 = (month (data a) <=? month (data b))%Z.
Proof.
  unfold byMonthAscending. apply eq_true_iff_eq.
  rewrite leb_le, Z.leb_le. change 0 with (inject_Z 0). rewrite <- Zle_Qle. lia.
Qed.

Lemma byYearMonthDescending_rel (a b : MonthlyTarget) :
  JS.leb (byYearMonthDescending a b) 0 = true
  <-> (year (data b) < year (data a)
       ∨ year (data a) = year (data b) ∧ month (data b) <= month (data a))%Z.
Proof.
  unfold byYearMonthDescending. rewrite leb_le. change 0 with (inject_Z 0).
  case_bool_decide; rewrite <- Zle_Qle; lia.
Qed.

Lemma reduce_sum_0 {A} (f : A -> Q) (l : list A) :
  fold_left (fun sum x => sum + f x) l 0 == sumOf f l.
Proof. rewrite reduce_sum. lra. Qed.

End QueryFacts.

Section QueryTheorems.
Import Types Spec Aggregates Examples HistoricalUtils MonthlyTargetsService.
Local Open Scope Q_scope.

(** X24.  [getUserMonthlyTargets] reads and writes nothing; it returns the
    targets of the user, each once and no other document, the later year
    first and within a year the later month first. *)
Theorem getUserMonthlyTargets_sorted (user : string) (w : World) :
  exists found : list MonthlyTarget,
    getUserMonthlyTargets user w = Some (found, w) ∧
    NoDup (id <$> found) ∧
    (forall t : MonthlyTarget,
       t ∈ found <-> targets w !! id t = Some (data t) ∧ userId (data t) = user) ∧
    StronglySorted
      (fun a b => (year (data b) < year (data a)
                   ∨ year (data a) = year (data b) ∧ month (data b) <= month (data a))%Z)
      found.
Proof.
  destruct (getDocsOrdered_spec (fun d => bool_decide (userId d = user))
              byYearMonthDescending w) as (docs & found & _ & Hrun & -> & Hnd & Hin).
  eexists. split; [exact Hrun|]. split; [exact Hnd|]. split.
  - intros t. rewrite Hin. by rewrite bool_decide_eq_true.
  - apply (Array_sort_sorted_R byYearMonthDescending).
    + apply byYearMonthDescending_rel.
    + intros a b. lia.
    + intros a b c. lia.
Qed.

(** X25.  [getYearTargetsSummary] reads and writes nothing; its targets are
    the targets of the user for the year, each once, by ascending month;
    the summary counts them all, no more of them completed than there are,
    with a completion rate from 0 to 100 that is 100 exactly when there is
    a target and every target is completed, and the totals are the sums of
    the goals and of the progress. *)
Theorem yearTargetsSummary_counts (user : string) (y : Z) (w : World) :
  exists r : YearTargets,
    getYearTargetsSummary user y w = Some (r, w) ∧
    yt_year r = y ∧
    NoDup (id <$> yt_targets r) ∧
    (forall t : MonthlyTarget,
       t ∈ yt_targets r
       <-> targets w !! id t = Some (data t) ∧ userId (data t) = user
           ∧ year (data t) = y) ∧
    StronglySorted (fun a b => (month (data a) <= month (data b))%Z) (yt_targets r) ∧
    totalTargets (yt_summary r) = length (yt_targets r) ∧
    completedTargets (yt_summary r)
    = length (List.filter (fun t => isCompleted (data t)) (yt_targets r)) ∧
    (completedTargets (yt_summary r) <= totalTargets (yt_summary r))%nat ∧
    0 <= completionRate (yt_summary r) <= 100 ∧
    (completionRate (yt_summary r) == 100
     <-> yt_targets r <> []
         ∧ Forall (fun t => isCompleted (data t) = true) (yt_targets r)) ∧
    totalTargetPnL (yt_summary r) == sumOf (fun t => pnlTarget (data t)) (yt_targets r) ∧
    totalCurrentPnL (yt_summary r)
    == sumOf (fun t => currentPnL (data t)) (yt_targets r).
Proof.
  destruct (getDocsOrdered_spec
              (fun d => bool_decide (userId d = user) && bool_decide (year d = y))
              byMonthAscending w) as (docs & found & _ & Hrun & Hsort & Hnd & Hin).
  eexists. split.
  { unfold getYearTargetsSummary. unfold mbind at 1. unfold Async_bind at 1.
    rewrite Hrun. reflexivity. }
  cbn [yt_year yt_targets yt_summary totalTargets completedTargets completionRate
       totalTargetPnL totalCurrentPnL].
  split; [done|]. split; [exact Hnd|]. split.
  { intros t. rewrite Hin, andb_true_iff, !bool_decide_eq_true. tauto. }
  split.
  { rewrite Hsort. apply (Array_sort_sorted byMonthAscending (fun t => month (data t))).
    apply byMonthAscending_key. }
  split; [done|]. split; [done|].
  pose proof (filter_length_le (fun t => isCompleted (data t)) found) as Hle.
  split; [exact Hle|].
  assert (Hall : length (List.filter (fun t => isCompleted (data t)) found) = length found
                 <-> Forall (fun t => isCompleted (data t) = true) found).
  { clear. induction found as [|t l IH]; cbn; [by split; [constructor|]|].
    pose proof (filter_length_le (fun t => isCompleted (data t)) l) as Hle.
    destruct (isCompleted (data t)) eqn:E; cbn.
    - rewrite Forall_cons. split.
      + intros H. split; [done|]. apply IH. lia.
      + intros [_ H]. apply IH in H. lia.
    - split; [lia|]. intros H. apply Forall_cons in H as [H _]. congruence. }
  split; [|split; [|split; apply reduce_sum_0]].
  - destruct found as [|t l].
    + cbn. lra.
    + destruct (0 <? length (t :: l))%nat eqn:E; [|cbn in E; done].
      apply (rate_bounds _ _ Hle). cbn. lia.
  - destruct found as [|t l].
    + cbn. split; [lra|]. by intros [? _].
    + destruct (0 <? length (t :: l))%nat eqn:E; [|cbn in E; done].
      rewrite <- Hall.
      set (c := length (List.filter _ _)) in *. set (n := length (t :: l)) in *.
      assert (0 < inject_Z (Z.of_nat n)) as Hn by (apply inject_nat_pos; cbn; lia).
      split.
      * intros H. split; [done|].
        assert (inject_Z (Z.of_nat c) == inject_Z (Z.of_nat n)) as Heq.
        { transitivity (inject_Z (Z.of_nat c) / inject_Z (Z.of_nat n) * 100
                        * (inject_Z (Z.of_nat n) / 100)); [field; lra|].
          rewrite H. field. }
        unfold Qeq in Heq. cbn [inject_Z Qnum Qden] in Heq. lia.
      * intros [_ ->]. field. lra.
Qed.

End QueryTheorems.

(** ** The calculator: what the rounded numbers are worth *)
Section CalculatorMore.
Import Spec PositionSizeCalculator.
Local Open Scope Q_scope.

Lemma rounded_within (digits : nat) (x r : Q) :
  roundedTo digits x r ->
  - ((1 # 2) * (1 / inject_Z (10 ^ Z.of_nat digits))) <= r - x
  <= (1 # 2) * (1 / inject_Z (10 ^ Z.of_nat digits)).
Proof. intros [_ H]. by apply Qabs_Qle_condition in H. Qed.

(** X27.  With a positive balance, risk percent, stop loss and take profit
    and a pair of the table, the numbers the calculator shows are worth
    what was asked for: the risk amount is within half a cent of
    [balance * riskPercent / 100]; a stop-out at the lot size shown loses
    that amount to within [0.00005] lots' worth,
    [stopLoss * pipValue * 0.00005]; and the potential profit is within half
    a cent of the risk times [takeProfit / stopLoss], whatever the pair. *)
Theorem calculator_risk_and_reward
    (balance riskPercent stopLoss takeProfit : Q) (p : PairOption)
    (results : option CalculationResults) :
  0 < balance -> 0 < riskPercent -> 0 < stopLoss -> 0 < takeProfit ->
  p ∈ pairOptions ->
  let formData :=
    {| accountBalance := Num balance; riskPercentage := Num riskPercent;
       stopLossPips := Num stopLoss; pair := po_value p;
       takeProfitPips := Some (Num takeProfit) |} in
  let risk := balance * riskPercent / 100 in
  exists (r : CalculationResults) (profit : Q),
    calculatePositionSize formData results = Some r ∧
    potentialProfit r = Some profit ∧
    pipValue r = po_pipValue p ∧
    Qabs (riskAmount r - risk) <= 1 # 200 ∧
    Qabs (lotSize r * (stopLoss * pipValue r) - risk)
    <= stopLoss * pipValue r * (1 # 20000) ∧
    Qabs (profit - risk * (takeProfit / stopLoss)) <= 1 # 200.
Proof.
  intros Hb Hr Hs Ht Hp formData risk.
  destruct (pairOptions_find p Hp) as [Hfind Hpip].
  set (lot := risk / (stopLoss * po_pipValue p)).
  assert (Hrisk : 0 < risk).
  { subst risk. apply Qlt_shift_div_l; [lra|]. rewrite Qmult_0_l.
    apply Qmult_lt_0_compat; lra. }
  assert (Hc : 0 < stopLoss * po_pipValue p) by (apply Qmult_lt_0_compat; lra).
  assert (Hlot : 0 < lot).
  { subst lot. apply Qlt_shift_div_l; [done|]. by rewrite Qmult_0_l. }
  assert (Hprofit : 0 < takeProfit * po_pipValue p * lot).
  { apply Qmult_lt_0_compat; [apply Qmult_lt_0_compat; lra|exact Hlot]. }
  assert (Hrun : calculatePositionSize formData results
                 = Some {| lotSize := JS.toFixed lot 4;
                           riskAmount := JS.toFixed risk 2;
                           potentialProfit :=
                             Some (JS.toFixed (takeProfit * po_pipValue p * lot) 2);
                           pipValue := po_pipValue p |}).
  { unfold calculatePositionSize. subst formData.
    cbn [accountBalance riskPercentage stopLossPips pair takeProfitPips].
    rewrite Hfind, !truthyValue_nonzero by lra. fold risk lot.
    cbn [mbind option_bind]. rewrite truthyValue_nonzero by lra.
    assert (Hne : JS.truthy (takeProfit * po_pipValue p * lot) = true).
    { apply truthy_neq. apply Qnot_eq_sym, Qlt_not_eq, Hprofit. }
    by rewrite Hne. }
  do 2 eexists. split; [exact Hrun|].
  cbn [potentialProfit pipValue riskAmount lotSize].
  split; [done|]. split; [done|].
  pose proof (rounded_within 2 risk _ (toFixed_rounds risk 2)) as H2.
  pose proof (rounded_within 4 lot _ (toFixed_rounds lot 4)) as H4.
  pose proof (rounded_within 2 _ _ (toFixed_rounds (takeProfit * po_pipValue p * lot) 2))
    as H5.
  assert (E2 : (1 # 2) * (1 / inject_Z (10 ^ Z.of_nat 2)) == 1 # 200) by reflexivity.
  assert (E4 : (1 # 2) * (1 / inject_Z (10 ^ Z.of_nat 4)) == 1 # 20000) by reflexivity.
  rewrite E2 in H2, H5. rewrite E4 in H4.
  set (r2 := JS.toFixed risk 2) in *. set (l4 := JS.toFixed lot 4) in *.
  set (p2 := JS.toFixed (takeProfit * po_pipValue p * lot) 2) in *.
  clearbody r2 l4 p2.
  split; [apply Qabs_Qle_condition; lra|]. split.
  - assert (E : l4 * (stopLoss * po_pipValue p) - risk
                == (l4 - lot) * (stopLoss * po_pipValue p)).
    { subst lot. field. split; lra. }
    rewrite E. apply Qabs_Qle_condition.
    set (c := stopLoss * po_pipValue p) in *. clearbody c. split; nra.
  - assert (E : takeProfit * po_pipValue p * lot == risk * (takeProfit / stopLoss)).
    { subst lot. field. split; lra. }
    rewrite <- E. apply Qabs_Qle_condition. lra.
Qed.

Lemma calculator_risk_and_reward_witness :
  exists (r : CalculationResults) (profit : Q),
    calculatePositionSize
      {| accountBalance := Num 10000; riskPercentage := Num 2;
         stopLossPips := Num 50; pair := po_value Examples.gold;
         takeProfitPips := Some (Num 100) |} None = Some r ∧
    potentialProfit r = Some profit ∧
    pipValue r = po_pipValue Examples.gold ∧
    Qabs (riskAmount r - 10000 * 2 / 100) <= 1 # 200 ∧
    Qabs (lotSize r * (50 * pipValue r) - 10000 * 2 / 100)
    <= 50 * pipValue r * (1 # 20000) ∧
    Qabs (profit - 10000 * 2 / 100 * (100 / 50)) <= 1 # 200.
Proof.
  apply (calculator_risk_and_reward 10000 2 50 100 Examples.gold None);
    [reflexivity..|].
  unfold pairOptions, Examples.gold. apply list_elem_of_here.
Defined.

End CalculatorMore.

(** ** [calculateTradeMetrics] *)
Section TradeMetricsTheorems.
Import TradingUtils.
Local Open Scope Q_scope.

(** X28.  [calculateTradeMetrics]: the net result is always the result less
    the fees; a trade without an exit price, or with the exit price [0], is
    open, with result and percentage [0]; a closed BUY (or LONG) earns what
    the same SELL (or SHORT) loses; and for a type that is none of these
    four names the result of a closed trade is [0] and its net result the
    fees lost. *)
Theorem tradeMetrics_by_direction (type : string) (quantity entryPrice fees : Q)
    (exitPrice : option Q) :
  let metricsOf :=
    fun type => calculateTradeMetrics type quantity entryPrice exitPrice fees in
  let metrics := metricsOf type in
  tm_netPnl metrics == tm_pnlAmount metrics - fees ∧
  tm_totalInvestment metrics = entryPrice * quantity ∧
  (tm_isOpen metrics = true
   <-> match exitPrice with Some exit => exit == 0 | None => True end) ∧
  (tm_isOpen metrics = true ->
   tm_pnlAmount metrics = 0 ∧ tm_pnlPercentage metrics = 0) ∧
  (forall exit : Q,
     exitPrice = Some exit -> ~ exit == 0 ->
     tm_pnlAmount (metricsOf "BUY") == (exit - entryPrice) * quantity ∧
     tm_pnlAmount (metricsOf "SELL") == - tm_pnlAmount (metricsOf "BUY")) ∧
  metricsOf "LONG" = metricsOf "BUY" ∧ metricsOf "SHORT" = metricsOf "SELL" ∧
  (type ∉ ["BUY"; "LONG"; "SELL"; "SHORT"] ->
   tm_pnlAmount metrics = 0 ∧ tm_netPnl metrics == - fees).
Proof.
  intros metricsOf metrics. subst metrics metricsOf. unfold calculateTradeMetrics.
  destruct exitPrice as [exit|]; cbn [mbind option_bind].
  - destruct (JS.truthy exit) eqn:Ex.
    + assert (Hne : ~ exit == 0) by (by apply truthy_neq).
      cbn [tm_netPnl tm_pnlAmount tm_totalInvestment tm_isOpen tm_pnlPercentage].
      split; [reflexivity|]. split; [done|]. split; [split; [done|tauto]|].
      split; [done|]. split.
      { intros exit' [= <-] _. split; [reflexivity|].
        repeat case_bool_decide; try done. cbn [orb]. lra. }
      split; [done|]. split; [done|].
      intros Hout. rewrite !elem_of_cons, elem_of_nil in Hout.
      rewrite !bool_decide_eq_false_2 by tauto. cbn. split; [done|lra].
    + assert (Hz : exit == 0).
      { destruct (Qeq_dec exit 0) as [|Hn]; [done|].
        apply truthy_neq in Hn. congruence. }
      cbn [tm_netPnl tm_pnlAmount tm_totalInvestment tm_isOpen tm_pnlPercentage].
      split; [lra|]. split; [done|]. split; [done|]. split; [done|].
      split; [by intros exit' [= <-] Hn|]. split; [done|]. split; [done|].
      intros _. split; [done|lra].
  - cbn [tm_netPnl tm_pnlAmount tm_totalInvestment tm_isOpen tm_pnlPercentage].
    split; [lra|]. do 3 (split; [done|]). split; [done|].
    split; [done|]. split; [done|]. intros _. split; [done|lra].
Qed.

End TradeMetricsTheorems.

(** ** [getPortfolioSummary] and [calculateDailyStats] *)
Section SummaryTheorems.
Import Types Spec Aggregates Examples.
Local Open Scope Q_scope.

(** X29.  [getPortfolioSummary] reports on the trades of the user alone:
    the trades of other users in the collection change nothing, and its
    nine numbers are those [calculateTradeStats] gives for the trades of
    the user. *)
Theorem portfolioSummary_own_trades (collection : list Trade) (user : string) :
  let own := TradingStorageService.getUserTrades collection user in
  let summary := TradingStorageService.getPortfolioSummary collection user in
  let stats := HistoricalUtils.calculateTradeStats own in
  (forall t : Trade, t ∈ own <-> t ∈ collection ∧ userId t = user) ∧
  (forall others : list Trade,
     Forall (fun t => userId t <> user) others ->
     TradingStorageService.getPortfolioSummary (others ++ collection) user = summary
     ∧ TradingStorageService.getPortfolioSummary (collection ++ others) user = summary) ∧
  TradingStorageService.totalTrades summary = HistoricalUtils.totalTrades stats ∧
  TradingStorageService.totalNetPL summary = HistoricalUtils.totalPnL stats ∧
  TradingStorageService.totalFees summary = HistoricalUtils.totalFees stats ∧
  TradingStorageService.winningTrades summary = HistoricalUtils.winningTrades stats ∧
  TradingStorageService.losingTrades summary = HistoricalUtils.losingTrades stats ∧
  TradingStorageService.winRate summary = HistoricalUtils.winRate stats ∧
  TradingStorageService.bestTrade summary = HistoricalUtils.bestTrade stats ∧
  TradingStorageService.worstTrade summary = HistoricalUtils.worstTrade stats ∧
  TradingStorageService.averageNetPL summary = HistoricalUtils.averagePnL stats.
Proof.
  intros own summary stats. split; [|split; [|by repeat split]].
  - intros t. subst own. unfold TradingStorageService.getUserTrades.
    by rewrite !list_elem_of_In, List.filter_In, bool_decide_eq_true.
  - intros others Hothers.
    assert (Hnone : TradingStorageService.getUserTrades others user = []).
    { apply filter_none. intros t Ht. rewrite Forall_forall in Hothers.
      apply bool_decide_eq_false_2, Hothers, Ht. }
    subst summary. unfold TradingStorageService.getPortfolioSummary.
    assert (H1 : TradingStorageService.getUserTrades (others ++ collection) user
                 = TradingStorageService.getUserTrades collection user).
    { unfold TradingStorageService.getUserTrades in *.
      by rewrite List.filter_app, Hnone. }
    assert (H2 : TradingStorageService.getUserTrades (collection ++ others) user
                 = TradingStorageService.getUserTrades collection user).
    { unfold TradingStorageService.getUserTrades in *.
      by rewrite List.filter_app, Hnone, app_nil_r. }
    by rewrite H1, H2.
Qed.

Lemma streak_le_wins (trades : list Trade) :
  (length (leadingWins trades) <= length (List.filter isWin trades))%nat.
Proof.
  induction trades as [|t trades IH]; cbn; [done|].
  destruct (isWin t); cbn; lia.
Qed.

(** X30.  [calculateDailyStats] leaves the two daily goals as they are;
    the trades of the day are those dated with the UTC date of the instant
    of the call, their number and their total being the day's figures
    whatever else the list holds; and the streak is at most the number of
    winning trades. *)
Theorem dailyStats_today (now : Z) (allTrades : list Trade)
    (prev : SimpleTradingJournal.DailyTarget) :
  let today := JS.toISODate now in
  let stats := SimpleTradingJournal.calculateDailyStats now allTrades prev in
  SimpleTradingJournal.dailyPnLTarget stats = SimpleTradingJournal.dailyPnLTarget prev ∧
  SimpleTradingJournal.dailyTradesTarget stats
  = SimpleTradingJournal.dailyTradesTarget prev ∧
  SimpleTradingJournal.currentDayTrades stats
  = length (List.filter (fun t => bool_decide (date t = today)) allTrades) ∧
  SimpleTradingJournal.currentDayPnL stats
  == sumOf netPL (List.filter (fun t => bool_decide (date t = today)) allTrades) ∧
  (SimpleTradingJournal.currentDayTrades stats <= length allTrades)%nat ∧
  (SimpleTradingJournal.streak stats <= length (List.filter isWin allTrades))%nat.
Proof.
  intros today stats. subst stats. unfold SimpleTradingJournal.calculateDailyStats.
  cbn [SimpleTradingJournal.dailyPnLTarget SimpleTradingJournal.dailyTradesTarget
       SimpleTradingJournal.currentDayTrades SimpleTradingJournal.currentDayPnL
       SimpleTradingJournal.streak].
  fold today. do 3 (split; [done|]).
  split; [rewrite reduce_sum; lra|]. split; [apply filter_length_le|].
  rewrite streakLoop_leadingWins. cbn [Nat.add].
  etrans; [apply streak_le_wins|].
  apply Nat.eq_le_incl, filter_length_perm.
  apply (Array_sort_perm SimpleTradingJournal.byDateDescending).
Qed.

End SummaryTheorems.

(** ** [getPresetDateRange] *)
Section PresetTheorems.
Import Types Spec Aggregates HistoricalUtils.
Local Open Scope Z_scope.

(** X26.  Every preset range ends on the UTC date of the instant of the
    call.  ["today"] is that one day; ["week"] begins seven days before it;
    ["all"], and any name that is no preset, begins on 2020-01-01; and
    ["year"] begins on the first of January of the local year only at or
    west of UTC, and on the 31st of December before it east of UTC. *)
Theorem presetDateRange_bounds (tz now : Z) (preset : string) :
  let today := JS.toISODate now in
  let range := fst (getPresetDateRange tz now preset) in
  let rangeOf := fun name => fst (getPresetDateRange tz now name) in
  endDate range = today ∧
  startDate (rangeOf "today") = today ∧
  startDate (rangeOf "week") = today - 7 ∧
  startDate (rangeOf "all") = JS.days_from_civil 2020 1 1 ∧
  (preset ∉ ["today"; "week"; "month"; "quarter"; "year"] ->
   getPresetDateRange tz now preset = getPresetDateRange tz now "all") ∧
  (100 <= JS.getFullYear tz now -> -1440 < tz <= 1440 ->
   startDate (rangeOf "year")
   = monthFirstDay (JS.getFullYear tz now) 1 - (if 0 <? tz then 1 else 0)).
Proof.
  intros today range rangeOf. subst range rangeOf.
  split; [|split; [done|split; [|split; [done|split]]]].
  - unfold getPresetDateRange. by repeat case_bool_decide.
  - change (startDate (fst (getPresetDateRange tz now "week")))
      with (JS.toISODate (JS.getTime now - 7 * 24 * 60 * 60 * 1000)).
    subst today. unfold JS.toISODate, JS.getTime, JS.msPerDay.
    Z.div_mod_to_equations. lia.
  - intros Hout. rewrite !elem_of_cons, elem_of_nil in Hout.
    unfold getPresetDateRange. rewrite !bool_decide_eq_false_2 by tauto. done.
  - intros Hy Htz.
    change (startDate (fst (getPresetDateRange tz now "year")))
      with (JS.toISODate (JS.Date_local tz (JS.getFullYear tz now) 0 1)).
    unfold monthFirstDay, JS.toISODate, JS.Date_local.
    assert (Hyr : ((0 <=? JS.getFullYear tz now) && (JS.getFullYear tz now <=? 99))
                  = false).
    { apply andb_false_iff. right. apply Z.leb_gt. lia. }
    rewrite Hyr. change (0 / 12) with 0. change (0 mod 12 + 1) with 1.
    rewrite Z.add_0_r.
    set (first := JS.days_from_civil (JS.getFullYear tz now) 1 1). clearbody first.
    unfold JS.msPerDay, JS.msPerMinute.
    destruct (0 <? tz) eqn:E; [apply Z.ltb_lt in E|apply Z.ltb_ge in E];
      Z.div_mod_to_equations; lia.
Qed.

End PresetTheorems.
